(** * udjat-module-sqlite: the SQLite URL queue protocol

    A shallow embedding of [SQLite::Protocol] (the two protocol sources of
    the repository) and the properties of its delivery sweep, status
    projection, construction and single-flight guard.

    The SQL engine, the HTTP client, the XML parser, the main loop and the
    thread pool are collaborators outside the repository's sources: they
    appear as an environment record [Env] of oracles and as fields of the
    [World] the code runs in. *)

From Stdlib Require Import ZArith String Ascii List Bool Lia DecimalString.
Import ListNotations.

Local Open Scope string_scope.
Local Open Scope list_scope.

Notation "a +++ b" := (String.append a b) (at level 60, right associativity).

(** ** Exceptions and outcomes *)

(** What a C++ [throw] carries, as far as the handlers of the source tell
    it apart: [catch(const std::exception &e)] against [catch(...)]. *)
Inductive exn : Type :=
| std_exception (what : string)
| foreign_exception.

Inductive outcome (A : Type) : Type :=
| Returns (a : A)
| Throws (e : exn).
Arguments Returns {A} a.
Arguments Throws {A} e.

(** ** Data *)

(** One row of the queue table, the four columns [send] reads with
    [select.get(0..3)]. *)
Record Row : Type := mkRow {
  row_id : Z;
  row_url : string;
  row_action : string;
  row_payload : string
}.

(** [HTTP::Method] as the [switch] of [send] sees it: [HTTP::Get],
    [HTTP::Post], or any other enumerator (the [default] label). *)
Inductive Method : Type := Get | Post | OtherMethod.

(** What [client.get()] / [client.post()] hand back; [send] only writes it
    to the log. *)
Record Response : Type := mkResponse {
  status_code : Z;
  body : string
}.

Inductive Level : Type := Info | Warning | Error | Trace | Cout.

(** A [pugi::xml_node]: element name, text content ([child_value()]) and
    child elements in document order. *)
#[warnings="-register-all"]
Inductive xml_node : Type :=
| Element (name : string) (text : string) (children : list xml_node).

Definition node_name (n : xml_node) : string :=
  match n with Element name _ _ => name end.
Definition node_text (n : xml_node) : string :=
  match n with Element _ text _ => text end.
Definition node_children (n : xml_node) : list xml_node :=
  match n with Element _ _ children => children end.

(** Everything mutable the protocol code touches. [busy] is the member of
    the one protocol object; [mainloop] is [MainLoop::getInstance()] read
    as a bool, [verify] is [Protocol::verify(this)]; [timer] is the
    interval last given to [MainLoop::reset(this,...)], [published] the
    summary of the state last activated. [http] and [sql] are ghost traces:
    the transport calls issued and the SQL texts run. *)
Record World : Type := mkWorld {
  queue : list Row;
  last_id : Z;
  busy : bool;
  mainloop : bool;
  verify : bool;
  timer : option Z;
  published : option string;
  log : list (Level * string);
  http : list (Method * Row);
  sql : list string
}.

Definition set_queue (q : list Row) (w : World) : World :=
  mkWorld q (last_id w) (busy w) (mainloop w) (verify w) (timer w)
          (published w) (log w) (http w) (sql w).
Definition set_last_id (n : Z) (w : World) : World :=
  mkWorld (queue w) n (busy w) (mainloop w) (verify w) (timer w)
          (published w) (log w) (http w) (sql w).
Definition set_busy (b : bool) (w : World) : World :=
  mkWorld (queue w) (last_id w) b (mainloop w) (verify w) (timer w)
          (published w) (log w) (http w) (sql w).
Definition set_timer (t : option Z) (w : World) : World :=
  mkWorld (queue w) (last_id w) (busy w) (mainloop w) (verify w) t
          (published w) (log w) (http w) (sql w).
Definition set_published (p : option string) (w : World) : World :=
  mkWorld (queue w) (last_id w) (busy w) (mainloop w) (verify w) (timer w)
          p (log w) (http w) (sql w).
Definition add_log (e : Level * string) (w : World) : World :=
  mkWorld (queue w) (last_id w) (busy w) (mainloop w) (verify w) (timer w)
          (published w) (log w ++ [e]) (http w) (sql w).
Definition add_http (c : Method * Row) (w : World) : World :=
  mkWorld (queue w) (last_id w) (busy w) (mainloop w) (verify w) (timer w)
          (published w) (log w) (http w ++ [c]) (sql w).
Definition add_sql (s : string) (w : World) : World :=
  mkWorld (queue w) (last_id w) (busy w) (mainloop w) (verify w) (timer w)
          (published w) (log w) (http w) (sql w ++ [s]).

(** The collaborators, as oracles. A fault is the exception the operation
    throws, [None] when it goes through. [strip], [expand] and
    [expand_env] are [String::strip], [String::expand(node)] and
    [String::expand(true,true)]; [getAttribute] is [Object::getAttribute]
    on an unsigned value; [systemservice] tells whether
    [SystemService::getInstance()] is non-null. *)
Record Env : Type := mkEnv {
  MethodFactory : string -> outcome Method;
  client_get : string -> outcome Response;
  client_post : string -> string -> outcome Response;
  prepare_fault : string -> option exn;
  step_fault : string -> list Row -> option exn;
  exec_fault : string -> list Row -> option exn;
  strip : string -> string;
  expand : xml_node -> string -> string;
  expand_env : string -> string;
  getAttribute : xml_node -> string -> string -> Z -> Z;
  systemservice : bool
}.

(** [std::to_string] on an integer. *)
Definition to_string (z : Z) : string := NilZero.string_of_int (Z.to_int z).

(** ** The monad the code runs in

    State passing over [World]; an operation returns, throws, or (the outer
    [option]) runs out of loop fuel. *)
Definition M (A : Type) : Type := World -> option (outcome A * World).

Definition ret {A : Type} (a : A) : M A := fun w => Some (Returns a, w).

Definition throw {A : Type} (e : exn) : M A := fun w => Some (Throws e, w).

Definition bind {A B : Type} (m : M A) (k : A -> M B) : M B := fun w =>
  match m w with
  | Some (Returns a, w1) => k a w1
  | Some (Throws e, w1) => Some (Throws e, w1)
  | None => None
  end.

Definition out_of_fuel {A : Type} : M A := fun _ => None.

(** [try { body } catch(const std::exception &e) { ... } catch(...) { ... }]:
    the handler receives whatever was thrown; the state reached before the
    throw stays. *)
Definition try_catch (body : M unit) (handler : exn -> M unit) : M unit := fun w =>
  match body w with
  | Some (Throws e, w1) => handler e w1
  | r => r
  end.

Notation "x <- m ;; k" := (bind m (fun x => k))
  (at level 61, m at next level, right associativity).
Notation "m ;; k" := (bind m (fun _ => k))
  (at level 61, right associativity).

Definition gets {A : Type} (f : World -> A) : M A := fun w => Some (Returns (f w), w).

Definition modify (f : World -> World) : M unit := fun w => Some (Returns tt, f w).

Definition write (lvl : Level) (msg : string) : M unit := modify (add_log (lvl, msg)).

Definition raise_fault (f : option exn) : M unit :=
  match f with
  | Some e => throw e
  | None => ret tt
  end.

Definition lift {A : Type} (o : outcome A) : M A :=
  match o with
  | Returns a => ret a
  | Throws e => throw e
  end.

(** ** The SQL layer

    The [Statement] and [Database] classes (udjat/sqlite/statement.h,
    database.h) are not among the sources; the operations [send], [count],
    the constructor and the worker call on them follow the spec's Queue
    Store. *)

(** The state of a select statement: [None] before its first [step()] and
    after [reset()], otherwise the rows its open cursor still has to
    give. *)
Definition Cursor : Type := option (list Row).

Inductive Flow : Type := Continue | Break.

Section SqlLayer.
Variable env : Env.

(** Modelled from the spec: the [Statement] constructor, which prepares
    the SQL text and fails with a store error on a bad one. *)
Definition Statement (text : string) : M unit :=
  raise_fault (prepare_fault env text).

(** Modelled from the spec: [Statement::step()] on the select template,
    the scan of the pending rows in ascending id order; a statement that
    was never stepped, or was reset, opens a fresh cursor over the table
    as it is then. *)
Definition step_select (text : string) (c : Cursor) : M (option Row * Cursor) :=
  modify (add_sql text) ;;
  q <- gets queue ;;
  raise_fault (step_fault env text q) ;;
  match (match c with None => q | Some rows => rows end) with
  | [] => ret (None, Some [])
  | r :: rest => ret (Some r, Some rest)
  end.

(** Modelled from the spec: [Statement::reset()], back to the state
    before the first [step()]. *)
Definition reset (c : Cursor) : Cursor := None.

(** Modelled from the spec: [bind(1,id).exec()] on the delete template,
    which removes the row of that id; an absent id is no error. *)
Definition exec_delete (text : string) (id : Z) : M unit :=
  modify (add_sql text) ;;
  q <- gets queue ;;
  raise_fault (exec_fault env text q) ;;
  modify (set_queue (filter (fun r => negb (row_id r =? id)%Z) q)).

(** Modelled from the spec: [bind(url,method,payload).exec()] on the
    insert template, which persists one record under a generated,
    monotonically increasing id. *)
Definition exec_insert (text url method payload : string) : M unit :=
  modify (add_sql text) ;;
  q <- gets queue ;;
  raise_fault (exec_fault env text q) ;;
  n <- gets last_id ;;
  modify (fun w => set_last_id (n + 1)%Z
                     (set_queue (q ++ [mkRow (n + 1)%Z url method payload]) w)).

(** Modelled from the spec: [step()] and [get(0,...)] on the pending
    template, the scalar count of the pending rows. *)
Definition step_count (text : string) : M Z :=
  modify (add_sql text) ;;
  q <- gets queue ;;
  raise_fault (step_fault env text q) ;;
  ret (Z.of_nat (length q)).

(** Modelled from the spec: [Database::exec], the one-shot statement run
    at construction for schema setup. *)
Definition Database_exec (text : string) : M unit :=
  modify (add_sql text) ;;
  q <- gets queue ;;
  raise_fault (exec_fault env text q).

(** [node.child(name)]: the first child element of that name. *)
Definition child (node : xml_node) (name : string) : option xml_node :=
  find (fun c => String.eqb (node_name c) name) (node_children node).

(** [child_value], the same static function in both protocol sources. *)
Definition child_value (node : xml_node) (name : string) (required : bool)
  : outcome string :=
  match child node name with
  | None =>
      if required
      then Throws (std_exception ("Required child '" +++ name +++ "' not found"))
      else Returns ""
  | Some c => Returns (expand env node (strip env (node_text c)))
  end.

(** The [for] loop over the [init] children of both constructors. *)
Fixpoint run_init (cs : list xml_node) : M unit :=
  match cs with
  | [] => ret tt
  | c :: cs' =>
      Database_exec (expand env c (strip env (node_text c))) ;;
      run_init cs'
  end.

Definition init_children (node : xml_node) : list xml_node :=
  filter (fun c => String.eqb (node_name c) "init") (node_children node).

End SqlLayer.

(** [pending && *pending] on a [const char *]. *)
Definition configured (pending : option string) : bool :=
  match pending with
  | Some (String _ _) => true
  | _ => false
  end.

(** [while(...) { ... }] over one pass of the loop: [iteration] evaluates
    the condition and, when it holds, the body. *)
Fixpoint while_rows (iteration : Cursor -> M (Flow * Cursor)) (fuel : nat)
  (select : Cursor) : M unit :=
  match fuel with
  | O => out_of_fuel
  | S fuel' =>
      s <- iteration select ;;
      match fst s with
      | Continue => while_rows iteration fuel' (snd s)
      | Break => ret tt
      end
  end.

(** Modelled from the spec: [Logger::Message(fmt, arg)], not among the
    sources, interpolates the literal count: the first [{}] of the format
    is replaced by the argument. *)
Fixpoint Logger_Message (fmt : string) (arg : string) : string :=
  match fmt with
  | EmptyString => EmptyString
  | String c rest =>
      match rest with
      | String c' rest' =>
          if (Ascii.eqb c "{" && Ascii.eqb c' "}")%bool
          then arg +++ rest'
          else String c (Logger_Message rest arg)
      | EmptyString => String c EmptyString
      end
  end.

(** [Abstract::State]: name, level, summary. *)
Inductive StateLevel : Type := unimportant | ready | warning.

Record State : Type := mkState {
  state_name : string;
  state_level : StateLevel;
  state_summary : string
}.

(** ** The first protocol source (src/unnamed/part_000)

    Here [send] owns the busy flag, under a static mutex, and catches
    whatever the sweep throws. *)
Module Part000.

Record Protocol : Type := mkProtocol {
  ins : string;
  del : string;
  select : string;
  pending : option string;
  send_delay : Z;
  value : Z
}.

Section Code.
Variable env : Env.

(** [SQLite::Protocol::Protocol(const pugi::xml_node &)]: the member
    initialisers, in the order they are written, then the body. The
    defaults of the members [send_delay] and [value] are in the class
    declaration, which is not among the sources; the base class
    constructor, which registers the protocol under its name, is left
    out. *)
Definition Protocol_ctor (default_delay default_value : Z) (node : xml_node)
  : M Protocol :=
  i <- lift (child_value env node "insert" true) ;;
  d <- lift (child_value env node "delete" true) ;;
  s <- lift (child_value env node "select" true) ;;
  p <- lift (child_value env node "pending" false) ;;
  run_init env (init_children node) ;;
  ret (mkProtocol i d s (Some p)
         (getAttribute env node "sqlite" "retry-delay" default_delay)
         default_value).

Variable self : Protocol.

(** [SQLite::Protocol::count() const]. *)
Definition count : M Z :=
  if configured (pending self)
  then
    match pending self with
    | Some text => Statement env text ;; step_count env text
    | None => ret 0%Z
    end
  else ret 0%Z.

(** [SQLite::Protocol::state() const]. It reads the member [value]; the
    local class [State] takes it as [uint64_t]. [_()] is the message
    catalogue lookup, the identity here. *)
Definition state : M State :=
  if configured (pending self)
  then
    let st :=
      if (value self =? 0)%Z
      then mkState "empty" unimportant "Output queue is empty"
      else if (value self =? 1)%Z
      then mkState "pending" warning "One pending request in the output queue"
      else mkState "pending" warning
             (Logger_Message "{} pending requests in the output queue"
                (to_string (value self mod 2 ^ 64)%Z))
    in
    write Info (state_summary st) ;;
    ret st
  else ret (mkState "none" unimportant "No pending requests").

(** The block under [lock_guard<mutex> lock(guard)] at the head of
    [send]: [true] when this call took the flag. *)
Definition send_guard : M bool :=
  b <- gets busy ;;
  if b then ret false else modify (set_busy true) ;; ret true.

(** The body of the [while] loop of [send], for the row just read, up to
    the delete. The column reads and the constructor of [HTTP::Client] are
    taken to go through. *)
Definition send_row (r : Row) : M unit :=
  write Info ("Sending " +++ row_action r +++ " " +++ row_url r +++ " ("
              +++ to_string (row_id r) +++ ")") ;;
  write Trace (row_payload r) ;;
  m <- lift (MethodFactory env (row_action r)) ;;
  match m with
    | Get =>
        modify (add_http (Get, r)) ;;
        response <- lift (client_get env (row_url r)) ;;
        write Info (row_url r) ;;
        write Trace (body response)
    | Post =>
        modify (add_http (Post, r)) ;;
        response <- lift (client_post env (row_url r) (row_payload r)) ;;
        write Trace (body response)
    | OtherMethod =>
        write Error ("Unexpected verb '" +++ row_action r
                     +++ "' sending queued request, ignoring")
  end ;;
  write Info ("Removing request '" +++ to_string (row_id r)
              +++ "' from URL queue") ;;
  exec_delete env (del self) (row_id r).

(** One evaluation of
    [select.step() == SQLITE_ROW && mainloop && Protocol::verify(this)]
    and, when it holds, the loop body with its [select.reset()]. The
    [sleep(send_delay)] that ends the body changes nothing here. *)
Definition send_iteration (sel : Cursor) : M (Flow * Cursor) :=
  s <- step_select env (select self) sel ;;
  match fst s with
  | None => ret (Break, snd s)
  | Some r =>
      ml <- gets mainloop ;;
      if ml
      then
        vf <- gets verify ;;
        if vf
        then send_row r ;; ret (Continue, reset (snd s))
        else ret (Break, snd s)
      else ret (Break, snd s)
  end.

(** The [try] block of [send]. *)
Definition send_body (fuel : nat) : M unit :=
  Statement env (del self) ;;
  Statement env (select self) ;;
  while_rows send_iteration fuel None.

(** The two [catch] clauses of [send]. *)
Definition send_catch (e : exn) : M unit :=
  match e with
  | std_exception what => write Warning ("Error sending queued message: " +++ what)
  | foreign_exception => write Warning "Unexpected error sending queued messages"
  end.

Definition send_fuel (fuel : nat) : M unit :=
  entered <- send_guard ;;
  if entered
  then
    try_catch (send_body fuel) send_catch ;;
    modify (set_busy false)
  else ret tt.

(** [SQLite::Protocol::send()]. Every pass of the loop that goes on
    deletes the row it read, so one pass per queued row and one more
    for the final [step()] is all the loop can make. *)
Definition send : M unit := fun w => send_fuel (S (length (queue w))) w.

(** [SQLite::Protocol::retry()]. *)
Definition retry : M bool :=
  try_catch send
    (fun e =>
       match e with
       | std_exception what => write Error what
       | foreign_exception => throw e
       end) ;;
  ret false.

(** [Worker::get]: the insert; the result tells whether the
    [sqlite-worker] task was pushed to the thread pool. [method] is
    [std::to_string(method())]. *)
Definition Worker_get (url method payload : string) : M bool :=
  let text := expand_env env (ins self) in
  Statement env text ;;
  exec_insert env text url method payload ;;
  gets mainloop.

(** The task [Worker::get] pushes. *)
Definition sqlite_worker : M unit :=
  vf <- gets verify ;;
  if vf then send else ret tt.

End Code.

End Part000.

(** ** The second protocol source (src/unnamed/part_001)

    Here [send] is the bare loop; the timer callback registered by the
    constructor owns the busy flag and the task it pushes to the thread
    pool catches what [send] throws. *)
Module Part001.

Record Protocol : Type := mkProtocol {
  ins : string;
  del : string;
  select : string;
  pending : option string;
  retry_delay : Z;
  retry_interval : Z;
  retry_when_busy : Z;
  retry_notify : bool
}.

(** The local class [SQLState] of the worker task. *)
Definition SQLState (value : Z) : State :=
  mkState "SQLite" ready
    (if (value =? 0)%Z then "No pending messages"
     else if (value =? 1)%Z then "1 pending message"
     else to_string value +++ " pending messages").

Section Code.
Variable env : Env.
Variable self : Protocol.

(** [SQLite::Protocol::count() const]. *)
Definition count : M Z :=
  if configured (pending self)
  then
    match pending self with
    | Some text => Statement env text ;; step_count env text
    | None => ret 0%Z
    end
  else ret 0%Z.

(** The body of the [while] loop of [send], for the row just read. *)
Definition send_row (r : Row) : M unit :=
  write Info ("Sending " +++ row_action r +++ " " +++ row_url r +++ " ("
              +++ to_string (row_id r) +++ ")") ;;
  write Info (row_payload r) ;;
  m <- lift (MethodFactory env (row_action r)) ;;
  match m with
    | Get =>
        modify (add_http (Get, r)) ;;
        response <- lift (client_get env (row_url r)) ;;
        write Cout (body response)
    | Post =>
        modify (add_http (Post, r)) ;;
        response <- lift (client_post env (row_url r) (row_payload r)) ;;
        write Cout (body response)
    | OtherMethod =>
        write Error ("Unexpected verb '" +++ row_action r
                     +++ "' sending queued request, ignoring")
  end ;;
  write Info ("Removing request '" +++ to_string (row_id r)
              +++ "' from URL queue") ;;
  exec_delete env (del self) (row_id r).

(** One evaluation of [select.step() == SQLITE_ROW && mainloop] and,
    when it holds, the loop body with its [select.reset()]. *)
Definition send_iteration (sel : Cursor) : M (Flow * Cursor) :=
  s <- step_select env (select self) sel ;;
  match fst s with
  | None => ret (Break, snd s)
  | Some r =>
      ml <- gets mainloop ;;
      if ml
      then send_row r ;; ret (Continue, reset (snd s))
      else ret (Break, snd s)
  end.

Definition send_fuel (fuel : nat) : M unit :=
  Statement env (del self) ;;
  Statement env (select self) ;;
  while_rows send_iteration fuel None.

(** [SQLite::Protocol::send() const]. *)
Definition send : M unit := fun w => send_fuel (S (length (queue w))) w.

(** The [try] statement at the head of the worker task. *)
Definition worker_sweep : M unit :=
  try_catch send
    (fun e =>
       match e with
       | std_exception what =>
           write Warning ("Error '" +++ what +++ "' while sending queued requests")
       | foreign_exception =>
           write Warning "Unexpected error while sending queued requests"
       end).

(** The task the timer callback pushes to the thread pool. The text
    written to [cout] carries a time stamp, left out here. *)
Definition worker_task : M unit :=
  worker_sweep ;;
  (if (retry_notify self && configured (pending self))%bool
   then
     if systemservice env
     then
       modify (set_published None) ;;
       n <- count ;;
       modify (set_published (Some (state_summary (SQLState n))))
     else ret tt
   else ret tt) ;;
  write Cout "Scheduling retry" ;;
  modify (set_timer (Some (retry_interval self))) ;;
  modify (set_busy false).

(** The callback given to [MainLoop::insert]: its result is the
    callback's return value and whether it pushed [worker_task]. *)
Definition timer_callback : M (bool * bool) :=
  modify (set_timer (Some (retry_when_busy self))) ;;
  b <- gets busy ;;
  if b
  then ret (true, false)
  else modify (set_busy true) ;; ret (true, true).

(** [Worker::get]: the insert and the timer reset. *)
Definition Worker_get (url method payload : string) : M unit :=
  let text := expand_env env (ins self) in
  Statement env text ;;
  exec_insert env text url method payload ;;
  modify (set_timer (Some 100%Z)).

End Code.

End Part001.

(** ** Threads racing to start a sweep (first source)

    [retry()] and every [sqlite-worker] task call [send] from their own
    thread. A thread is followed through [send] by a program counter; what
    the mutex makes atomic is one step. *)
Inductive Pc : Type :=
| AtGuard
| InTry
| InLoop (sel : Cursor)
| AtRelease
| Finished.

Section Threads.
Variable env : Env.
Variable self : Part000.Protocol.

(** The [catch] clauses, then on to the release of the flag. *)
Definition caught (r : option (outcome unit * World)) (next : Pc)
  : option (Pc * World) :=
  match r with
  | Some (Returns _, w1) => Some (next, w1)
  | Some (Throws e, w1) =>
      match Part000.send_catch e w1 with
      | Some (_, w2) => Some (AtRelease, w2)
      | None => None
      end
  | None => None
  end.

(** One step of one thread inside [send]; [None] when it has none. *)
Definition thread_step (pc : Pc) (w : World) : option (Pc * World) :=
  match pc with
  | AtGuard =>
      match Part000.send_guard w with
      | Some (Returns true, w1) => Some (InTry, w1)
      | Some (_, w1) => Some (Finished, w1)
      | None => None
      end
  | InTry =>
      caught ((Statement env (Part000.del self) ;;
               Statement env (Part000.select self)) w) (InLoop None)
  | InLoop sel =>
      match Part000.send_iteration env self sel w with
      | Some (Returns (Continue, sel'), w1) => Some (InLoop sel', w1)
      | Some (Returns (Break, _), w1) => Some (AtRelease, w1)
      | Some (Throws e, w1) => caught (Some (Throws e, w1)) AtRelease
      | None => None
      end
  | AtRelease => Some (Finished, set_busy false w)
  | Finished => None
  end.

(** Inside the sweep: past the guard, flag not yet released. *)
Definition sweeping (pc : Pc) : bool :=
  match pc with
  | InTry | InLoop _ | AtRelease => true
  | AtGuard | Finished => false
  end.

Definition sweepers (ts : list Pc) : nat := length (filter sweeping ts).

(** The interleavings: a thread of the pool takes a step, a new attempt
    to sweep arrives, or a [Worker::get] inserts a request. *)
Inductive sys_step : World * list Pc -> World * list Pc -> Prop :=
| step_thread : forall w w' pc pc' before after,
    thread_step pc w = Some (pc', w') ->
    sys_step (w, before ++ pc :: after) (w', before ++ pc' :: after)
| step_attempt : forall w ts,
    sys_step (w, ts) (w, ts ++ [AtGuard])
| step_enqueue : forall w w' ts url method payload r,
    Part000.Worker_get env self url method payload w = Some (r, w') ->
    sys_step (w, ts) (w', ts).

Inductive reachable (s0 : World * list Pc) : World * list Pc -> Prop :=
| reach_here : reachable s0 s0
| reach_step : forall s s', reachable s0 s -> sys_step s s' -> reachable s0 s'.

(** One thread followed alone from [pc] until it has left [send]. *)
Fixpoint run_thread (fuel : nat) (pc : Pc) (w : World) : option World :=
  match pc with
  | Finished => Some w
  | _ =>
      match fuel with
      | O => None
      | S fuel' =>
          match thread_step pc w with
          | Some (pc', w') => run_thread fuel' pc' w'
          | None => None
          end
      end
  end.

(** What another thread does meanwhile: only its effect on the world
    reaches this one. *)
Definition elsewhere {A : Type} (m : M A) : M unit := fun w =>
  match m w with
  | Some (_, w') => Some (Returns tt, w')
  | None => None
  end.

(** [k] passes of the loop of [send], short of a [Break]. *)
Fixpoint passes (k : nat) (sel : Cursor) : M (Flow * Cursor) :=
  match k with
  | O => ret (Continue, sel)
  | S k' =>
      s <- Part000.send_iteration env self sel ;;
      match fst s with
      | Continue => passes k' (snd s)
      | Break => ret s
      end
  end.

(** [send] with a [Worker::get] of another thread falling between the
    [k]-th pass of its loop and the next [select.step()]: the same call,
    the same select statement before and after the insert. *)
Definition send_with_insert (k fuel : nat) (url method payload : string)
  : M unit :=
  entered <- Part000.send_guard ;;
  if entered
  then
    try_catch
      (Statement env (Part000.del self) ;;
       Statement env (Part000.select self) ;;
       s <- passes k None ;;
       elsewhere (Part000.Worker_get env self url method payload) ;;
       match fst s with
       | Continue => while_rows (Part000.send_iteration env self) fuel (snd s)
       | Break => ret tt
       end)
      Part000.send_catch ;;
    modify (set_busy false)
  else ret tt.

End Threads.

(** ** Vocabulary of the statements *)

(** Each id below all later ones: the queue [r1..rn] in ascending ids. *)
Fixpoint ascending (q : list Row) : bool :=
  match q with
  | [] => true
  | r :: q' => forallb (fun r' => (row_id r <? row_id r')%Z) q' && ascending q'
  end.

(** The row has method GET or POST and the transport hands back a
    response for it. *)
Definition delivers (env : Env) (r : Row) : bool :=
  match MethodFactory env (row_action r) with
  | Returns Get =>
      match client_get env (row_url r) with
      | Returns _ => true
      | Throws _ => false
      end
  | Returns Post =>
      match client_post env (row_url r) (row_payload r) with
      | Returns _ => true
      | Throws _ => false
      end
  | _ => false
  end.

(** The row has method GET or POST and the transport throws on it. *)
Definition transport_raises (env : Env) (r : Row) : bool :=
  match MethodFactory env (row_action r) with
  | Returns Get =>
      match client_get env (row_url r) with
      | Returns _ => false
      | Throws _ => true
      end
  | Returns Post =>
      match client_post env (row_url r) (row_payload r) with
      | Returns _ => false
      | Throws _ => true
      end
  | _ => false
  end.

(** No store error on the statements a sweep runs. *)
Definition store_sound (env : Env) (del select : string) : Prop :=
  prepare_fault env del = None /\
  prepare_fault env select = None /\
  (forall q, step_fault env select q = None) /\
  (forall q, exec_fault env del q = None).

(** What both [catch] clauses of [send] write. *)
Definition send_warning (e : exn) : Level * string :=
  match e with
  | std_exception what => (Warning, "Error sending queued message: " +++ what)
  | foreign_exception => (Warning, "Unexpected error sending queued messages")
  end.

(** The world fields the loop of a sweep never writes. *)
Definition same_frame (w w' : World) : Prop :=
  busy w' = busy w /\ mainloop w' = mainloop w /\ verify w' = verify w /\
  last_id w' = last_id w /\ timer w' = timer w /\ published w' = published w.

(** A loop pass that, on a select statement in its initial state, always
    ends, and goes on only with the statement reset and the queue
    shorter. *)
Definition shrinking (iteration : Cursor -> M (Flow * Cursor)) : Prop :=
  forall w, exists o w',
    iteration None w = Some (o, w') /\
    same_frame w w' /\
    match o with
    | Returns (Continue, c) => c = None /\ length (queue w') < length (queue w)
    | _ => length (queue w') <= length (queue w)
    end.

(** [s] occurs inside [t]. *)
Definition contains (t s : string) : Prop :=
  exists before after, t = before +++ s +++ after.

(** The conclusion of "at least once": the first sweep returns with the
    rows before [rk] deleted and [rk] and the later ones queued, its last
    transport call the one on [rk]; the second sweep calls the transport
    on [rk] and the later rows in queue order and leaves nothing. *)
Definition at_least_once (sweep1 sweep2 : M unit) (w : World)
  (before : list Row) (rk : Row) (after : list Row) : Prop :=
  exists w1 w2,
    sweep1 w = Some (Returns tt, w1) /\
    queue w1 = rk :: after /\
    map snd (http w1) = map snd (http w) ++ before ++ [rk] /\
    busy w1 = busy w /\
    sweep2 w1 = Some (Returns tt, w2) /\
    queue w2 = [] /\
    map snd (http w2) = map snd (http w1) ++ rk :: after.

(** ** A sample installation *)

Definition sample_MethodFactory (action : string) : outcome Method :=
  if String.eqb action "GET" then Returns Get
  else if String.eqb action "POST" then Returns Post
  else if String.eqb action "PUT" then Returns OtherMethod
  else Throws (std_exception "Invalid HTTP method").

(** An environment whose transport refuses the url [down] and answers
    every other one, never with a 2xx status. *)
Definition sample_env (down : string) : Env :=
  mkEnv sample_MethodFactory
    (fun url =>
       if String.eqb url down
       then Throws (std_exception "Connection refused")
       else Returns (mkResponse 404 "Not Found"))
    (fun url payload =>
       if String.eqb url down
       then Throws (std_exception "Connection refused")
       else Returns (mkResponse 500 "Internal Server Error"))
    (fun _ => None) (fun _ _ => None) (fun _ _ => None)
    (fun s => s) (fun _ s => s) (fun s => s) (fun _ _ _ d => d) true.

Definition sample_protocol : Part000.Protocol :=
  Part000.mkProtocol
    "insert into queue (url,action,payload) values (?,?,?)"
    "delete from queue where id=?"
    "select id,url,action,payload from queue order by id"
    (Some "select count(*) from queue") 1 0.

Definition sample_protocol' : Part001.Protocol :=
  Part001.mkProtocol
    "insert into queue (url,action,payload) values (?,?,?)"
    "delete from queue where id=?"
    "select id,url,action,payload from queue order by id"
    (Some "select count(*) from queue") 1 60000 5000 true.

Definition sample_world (q : list Row) : World :=
  mkWorld q 10 false true true None None [] [] [].

Definition row_a : Row := mkRow 1 "http://a.example/" "GET" "".
Definition row_b : Row := mkRow 2 "http://b.example/" "POST" "x=1".
Definition row_c : Row := mkRow 3 "http://c.example/" "GET" "".
Definition row_put : Row := mkRow 4 "http://d.example/" "PUT" "x=2".

Definition sample_node : xml_node :=
  Element "sql" ""
    [ Element "init" "create table if not exists queue (id integer primary key)" [];
      Element "insert" "insert into queue (url,action,payload) values (?,?,?)" [];
      Element "delete" "delete from queue where id=?" [];
      Element "select" "select id,url,action,payload from queue order by id" [] ].

(** ** The constructor of the second source *)

(** [unsigned int] arithmetic, on 32 bits. *)
Definition uint32 (z : Z) : Z := z mod 2 ^ 32.

Section Part001Construction.
Variable env : Env.

(** [Object::getAttribute] on a [bool] value. *)
Variable getAttribute_bool : xml_node -> string -> string -> bool -> bool.

(** The last statement of the constructor: under a configured pending
    query, the count and its log line inside a [try] whose one handler is
    for [std::exception]. The count is held as [uint64_t]. *)
Definition log_pending (self : Part001.Protocol) : M unit :=
  if configured (Part001.pending self)
  then
    try_catch
      (n <- Part001.count env self ;;
       let pending_messages := (n mod 2 ^ 64)%Z in
       if (pending_messages =? 0)%Z
       then write Info "No pending requests"
       else if (pending_messages =? 1)%Z
       then write Warning "1 pending request"
       else write Warning (to_string pending_messages +++ " pending requests"))
      (fun e =>
         match e with
         | std_exception what =>
             write Error ("Error '" +++ what +++ "' counting pending requests")
         | foreign_exception => throw e
         end)
  else ret tt.

(** [SQLite::Protocol::Protocol(const pugi::xml_node &)] of the second
    source: the member initialisers, the retry settings, the registration
    of the timer callback with [MainLoop::insert] (recorded as the timer
    interval), the init statements, the count. The defaults of the retry
    members are in the class declaration, which is not among the sources;
    the base class constructor is left out. *)
Definition Protocol_ctor' (default_delay default_interval default_when_busy : Z)
  (node : xml_node) : M Part001.Protocol :=
  i <- lift (child_value env node "insert" true) ;;
  d <- lift (child_value env node "delete" true) ;;
  s <- lift (child_value env node "select" true) ;;
  p <- lift (child_value env node "pending" false) ;;
  let self :=
    Part001.mkProtocol i d s (Some p)
      (getAttribute env node "sqlite" "retry-delay" default_delay)
      (uint32 (getAttribute env node "sqlite" "retry-interval" default_interval * 1000))
      (uint32 (getAttribute env node "sqlite" "retry-when-busy" default_when_busy * 1000))
      (getAttribute_bool node "sqlite" "notify" (configured (Some p))) in
  (if (Part001.retry_interval self =? 0)%Z
   then ret tt
   else
     write Info ("URL retry timer set to "
                 +++ to_string (Part001.retry_interval self / 1000) +++ " seconds") ;;
     modify (set_timer (Some (Part001.retry_interval self)))) ;;
  run_init env (init_children node) ;;
  log_pending self ;;
  ret self.

End Part001Construction.

(** ** More vocabulary *)

(** The text an [init] child is run as. *)
Definition init_text (env : Env) (c : xml_node) : string :=
  expand env c (strip env (node_text c)).

(** A loop pass that, on a select statement in its initial state, makes at
    most one transport call, for the row at the head of the queue, and
    removes rows or leaves the queue as it is. *)
Definition accounted (iteration : Cursor -> M (Flow * Cursor)) : Prop :=
  forall w, exists o w',
    iteration None w = Some (o, w') /\
    (http w' = http w \/
     exists m r rest, queue w = r :: rest /\ http w' = http w ++ [(m, r)]) /\
    match o with
    | Returns (Continue, _) =>
        exists r rest,
          queue w = r :: rest /\
          queue w' = filter (fun x => negb (row_id x =? row_id r)%Z) (queue w)
    | _ => queue w' = queue w
    end.

(** A sweep left the queue a part of what it was, and called the
    transport only for rows that were queued, once per row at most. *)
Definition only_removes (w w' : World) : Prop :=
  incl (queue w') (queue w) /\
  last_id w' = last_id w /\
  (forall call, In call (http w') -> In call (http w) \/ In (snd call) (queue w)) /\
  length (http w') <= length (http w) + length (queue w).

(** The verb of the row resolves to GET or POST. *)
Definition has_transport (env : Env) (r : Row) : bool :=
  match MethodFactory env (row_action r) with
  | Returns Get | Returns Post => true
  | _ => false
  end.

(** The verb of the row resolves and, if it is GET or POST, the transport
    hands back a response. *)
Definition completes (env : Env) (r : Row) : bool :=
  match MethodFactory env (row_action r) with
  | Returns OtherMethod => true
  | _ => delivers env r
  end.

(** A sample environment whose delete statement fails. *)
Definition sample_env_delete_fails : Env :=
  mkEnv sample_MethodFactory
    (fun url => Returns (mkResponse 200 "OK"))
    (fun url payload => Returns (mkResponse 200 "OK"))
    (fun _ => None) (fun _ _ => None)
    (fun text _ =>
       if String.eqb text "delete from queue where id=?"
       then Some (std_exception "database is locked") else None)
    (fun s => s) (fun _ s => s) (fun s => s) (fun _ _ _ d => d) true.

(** A sample environment whose pending query cannot be prepared. *)
Definition sample_env_count_fails : Env :=
  mkEnv sample_MethodFactory
    (fun url => Returns (mkResponse 200 "OK"))
    (fun url payload => Returns (mkResponse 200 "OK"))
    (fun text =>
       if String.eqb text "select count(*) from queue"
       then Some (std_exception "no such table: queue") else None)
    (fun _ _ => None) (fun _ _ => None)
    (fun s => s) (fun _ s => s) (fun s => s) (fun _ _ _ d => d) true.

(** A sample environment whose init statement fails. *)
Definition sample_env_init_fails : Env :=
  mkEnv sample_MethodFactory
    (fun url => Returns (mkResponse 200 "OK"))
    (fun url payload => Returns (mkResponse 200 "OK"))
    (fun _ => None) (fun _ _ => None)
    (fun text _ =>
       if String.eqb text "create table if not exists queue (id integer primary key)"
       then Some (std_exception "disk I/O error") else None)
    (fun s => s) (fun _ s => s) (fun s => s) (fun _ _ _ d => d) true.

Definition row_bad : Row := mkRow 5 "http://e.example/" "FETCH" "".

Definition sample_node' : xml_node :=
  Element "sql" ""
    [ Element "init" "create table if not exists queue (id integer primary key)" [];
      Element "init" "create index if not exists queue_url on queue (url)" [];
      Element "insert" "insert into queue (url,action,payload) values (?,?,?)" [];
      Element "delete" "delete from queue where id=?" [];
      Element "select" "select id,url,action,payload from queue order by id" [];
      Element "pending" "select count(*) from queue" [] ].

(** ** Tasks racing in the second source

    The timer callback runs on the main loop, one call at a time; the
    worker tasks it pushes run in the thread pool. A task is followed by a
    program counter through the [try] statement around [send] and through
    what follows it. Only the callback sets the flag and only the end of
    a task clears it, so the callback is taken as one step: a clear that
    falls between its test and its assignment comes after the test that
    found the flag clear already. *)
Inductive TaskPc : Type :=
| TaskStart
| TaskInLoop (sel : Cursor)
| TaskTail
| TaskDone.

Section Tasks.
Variable env : Env.
Variable self : Part001.Protocol.

(** The two [catch] clauses of the worker task. *)
Definition worker_catch (e : exn) : M unit :=
  match e with
  | std_exception what =>
      write Warning ("Error '" +++ what +++ "' while sending queued requests")
  | foreign_exception =>
      write Warning "Unexpected error while sending queued requests"
  end.

(** The worker task below its [try] statement: the status publication,
    the rescheduling, the release of the flag. *)
Definition worker_tail : M unit :=
  (if (Part001.retry_notify self && configured (Part001.pending self))%bool
   then
     if systemservice env
     then
       modify (set_published None) ;;
       n <- Part001.count env self ;;
       modify (set_published (Some (state_summary (Part001.SQLState n))))
     else ret tt
   else ret tt) ;;
  write Cout "Scheduling retry" ;;
  modify (set_timer (Some (Part001.retry_interval self))) ;;
  modify (set_busy false).

Definition task_caught (r : option (outcome unit * World)) (next : TaskPc)
  : option (TaskPc * World) :=
  match r with
  | Some (Returns _, w1) => Some (next, w1)
  | Some (Throws e, w1) =>
      match worker_catch e w1 with
      | Some (_, w2) => Some (TaskTail, w2)
      | None => None
      end
  | None => None
  end.

(** One step of one worker task; an exception thrown below the [try]
    statement ends the task where it is. *)
Definition task_step (pc : TaskPc) (w : World) : option (TaskPc * World) :=
  match pc with
  | TaskStart =>
      task_caught ((Statement env (Part001.del self) ;;
                    Statement env (Part001.select self)) w) (TaskInLoop None)
  | TaskInLoop sel =>
      match Part001.send_iteration env self sel w with
      | Some (Returns (Continue, sel'), w1) => Some (TaskInLoop sel', w1)
      | Some (Returns (Break, _), w1) => Some (TaskTail, w1)
      | Some (Throws e, w1) => task_caught (Some (Throws e, w1)) TaskTail
      | None => None
      end
  | TaskTail =>
      match worker_tail w with
      | Some (_, w1) => Some (TaskDone, w1)
      | None => None
      end
  | TaskDone => None
  end.

Definition running (pc : TaskPc) : bool :=
  match pc with
  | TaskDone => false
  | _ => true
  end.

Definition runners (ts : list TaskPc) : nat := length (filter running ts).

(** The interleavings: a task of the pool takes a step, the timer ticks
    (a tick of the retry interval, of the busy interval, or the early one
    an enqueue asks for) and the callback pushes a task or not, or a
    [Worker::get] inserts a request. *)
Inductive pool_step : World * list TaskPc -> World * list TaskPc -> Prop :=
| pool_task : forall w w' pc pc' before after,
    task_step pc w = Some (pc', w') ->
    pool_step (w, before ++ pc :: after) (w', before ++ pc' :: after)
| pool_tick : forall w w' ts again pushed,
    Part001.timer_callback self w = Some (Returns (again, pushed), w') ->
    pool_step (w, ts) (w', if pushed then ts ++ [TaskStart] else ts)
| pool_enqueue : forall w w' ts url method payload r,
    Part001.Worker_get env self url method payload w = Some (r, w') ->
    pool_step (w, ts) (w', ts).

Inductive pool_reachable (s0 : World * list TaskPc) : World * list TaskPc -> Prop :=
| pool_here : pool_reachable s0 s0
| pool_next : forall s s',
    pool_reachable s0 s -> pool_step s s' -> pool_reachable s0 s'.

(** One task followed alone from [pc] to its end. *)
Fixpoint run_task (fuel : nat) (pc : TaskPc) (w : World) : option World :=
  match pc with
  | TaskDone => Some w
  | _ =>
      match fuel with
      | O => None
      | S fuel' =>
          match task_step pc w with
          | Some (pc', w') => run_task fuel' pc' w'
          | None => None
          end
      end
  end.

End Tasks.

(** ** An insert in the middle of a sweep, in general *)

(** [k] passes of a loop, short of a [Break]. *)
Fixpoint passes_of (iteration : Cursor -> M (Flow * Cursor)) (k : nat)
  (sel : Cursor) : M (Flow * Cursor) :=
  match k with
  | O => ret (Continue, sel)
  | S k' =>
      s <- iteration sel ;;
      match fst s with
      | Continue => passes_of iteration k' (snd s)
      | Break => ret s
      end
  end.

(** The loop of a sweep with what another thread does, [insert], falling
    after its [k]-th pass. *)
Definition loop_with_insert (iteration : Cursor -> M (Flow * Cursor))
  (insert : M unit) (k fuel : nat) : M unit :=
  s <- passes_of iteration k None ;;
  insert ;;
  match fst s with
  | Continue => while_rows iteration fuel (snd s)
  | Break => ret tt
  end.

(** The [try] statement of the worker task of the second source with a
    [Worker::get] of another thread falling after the [k]-th pass of the
    loop of [send], or after its last [select.step()] when the loop has
    fewer passes. *)
Definition worker_sweep_with_insert (env : Env) (self : Part001.Protocol)
  (k fuel : nat) (url method payload : string) : M unit :=
  try_catch
    (Statement env (Part001.del self) ;;
     Statement env (Part001.select self) ;;
     s <- passes_of (Part001.send_iteration env self) k None ;;
     elsewhere (Part001.Worker_get env self url method payload) ;;
     match fst s with
     | Continue => while_rows (Part001.send_iteration env self) fuel (snd s)
     | Break => ret tt
     end)
    worker_catch.

(** What becomes of a request [new] inserted in the middle of a sweep over
    the queue of [w]. Inserted after [k] passes, the loop not yet left:
    the same sweep delivers the queued requests and then [new]. Inserted
    after the [select.step()] that found the queue empty: the sweep ends
    with [new] queued and uncalled, and the next sweep delivers it. *)
Definition insert_mid_sweep (sweep_with_insert : nat -> nat -> M unit)
  (next_sweep : M unit) (w : World) (new : Row) : Prop :=
  (forall k fuel,
      k <= length (queue w) ->
      length (queue w) + 1 - k < fuel ->
      exists w',
        sweep_with_insert k fuel w = Some (Returns tt, w') /\
        queue w' = [] /\
        map snd (http w') = map snd (http w) ++ queue w ++ [new]) /\
  (forall k fuel,
      length (queue w) < k ->
      exists w' w'',
        sweep_with_insert k fuel w = Some (Returns tt, w') /\
        queue w' = [new] /\
        map snd (http w') = map snd (http w) ++ queue w /\
        next_sweep w' = Some (Returns tt, w'') /\
        queue w'' = [] /\
        map snd (http w'') = map snd (http w') ++ [new]).

(** The transport calls a sweep added are for requests that were queued
    when it started, no two of them for the same id. *)
Definition calls_once (w w' : World) : Prop :=
  exists calls,
    http w' = http w ++ calls /\
    NoDup (map (fun call => row_id (snd call)) calls) /\
    (forall call, In call calls -> In (snd call) (queue w)) /\
    length calls <= length (queue w).

(** A sample environment in which no statement can be prepared. *)
Definition sample_env_no_prepare : Env :=
  mkEnv sample_MethodFactory
    (fun url => Returns (mkResponse 200 "OK"))
    (fun url payload => Returns (mkResponse 200 "OK"))
    (fun _ => Some (std_exception "database disk image is malformed"))
    (fun _ _ => None) (fun _ _ => None)
    (fun s => s) (fun _ s => s) (fun s => s) (fun _ _ _ d => d) true.

(** * Properties *)

(** ** The monad *)

Ltac monad_unfold :=
  unfold bind, ret, gets, modify, write, throw, raise_fault, lift,
    out_of_fuel, try_catch in *.

Ltac break_match :=
  match goal with
  | |- context [match ?x with _ => _ end] =>
      lazymatch x with
      | context [match _ with _ => _ end] => fail
      | _ => destruct x eqn:?
      end
  end.

Lemma filter_head_shorter (r : Row) (rest : list Row) :
  length (filter (fun x => negb (row_id x =? row_id r)%Z) (r :: rest))
  < length (r :: rest).
Proof.
  cbn [filter]. rewrite Z.eqb_refl. cbn [negb length].
  pose proof (filter_length_le (fun x => negb (row_id x =? row_id r)%Z) rest).
  lia.
Qed.

Lemma filter_head_ascending (r : Row) (rest : list Row) :
  ascending (r :: rest) = true ->
  filter (fun x => negb (row_id x =? row_id r)%Z) (r :: rest) = rest.
Proof.
  cbn [ascending filter]. rewrite Z.eqb_refl. cbn [negb].
  intros H. apply andb_true_iff in H as [H _].
  induction rest as [|x rest IH]; [reflexivity|].
  cbn [forallb] in H. apply andb_true_iff in H as [Hx H].
  cbn [filter]. apply Z.ltb_lt in Hx.
  destruct (Z.eqb_spec (row_id x) (row_id r)); [lia|].
  cbn [negb]. f_equal. auto.
Qed.

Lemma filter_head_gone (r : Row) (q : list Row) :
  ~ In r (filter (fun x => negb (row_id x =? row_id r)%Z) q).
Proof.
  intros H. apply filter_In in H as [_ H].
  rewrite Z.eqb_refl in H. discriminate.
Qed.

(** ** The loop body *)

Section Part000Facts.
Variable env : Env.
Variable self : Part000.Protocol.

Lemma same_frame_refl w : same_frame w w.
Proof. repeat split. Qed.

Lemma same_frame_trans w1 w2 w3 :
  same_frame w1 w2 -> same_frame w2 w3 -> same_frame w1 w3.
Proof. unfold same_frame. intuition congruence. Qed.

(** Whatever [send_row] does, it ends; when it returns it has deleted
    the row, when it throws the queue is as it was. *)
Lemma send_row_outcome (r : Row) (w : World) :
  exists o w',
    Part000.send_row env self r w = Some (o, w') /\
    same_frame w w' /\
    match o with
    | Returns _ =>
        queue w' = filter (fun x => negb (row_id x =? row_id r)%Z) (queue w)
    | Throws _ => queue w' = queue w
    end.
Proof.
  unfold Part000.send_row, exec_delete. monad_unfold. cbn.
  repeat (break_match; cbn);
    do 2 eexists; (split; [reflexivity|]); split;
    try (repeat split; reflexivity); reflexivity.
Qed.

(** One pass of the loop on a select statement in its initial state. *)
Lemma send_iteration_outcome (w : World) :
  exists o w',
    Part000.send_iteration env self None w = Some (o, w') /\
    same_frame w w' /\
    match o with
    | Returns (Continue, c) =>
        c = None /\
        exists r rest,
          queue w = r :: rest /\
          queue w' = filter (fun x => negb (row_id x =? row_id r)%Z) (queue w)
    | _ => queue w' = queue w
    end.
Proof.
  unfold Part000.send_iteration, step_select. monad_unfold. cbn -[Part000.send_row].
  destruct (step_fault env (Part000.select self) (queue w)); cbn -[Part000.send_row].
  { do 2 eexists. split; [reflexivity|]. split; [repeat split|reflexivity]. }
  destruct (queue w) as [|r rest] eqn:Hq; cbn -[Part000.send_row].
  { do 2 eexists. split; [reflexivity|]. split; [repeat split|]. cbn. exact Hq. }
  destruct (mainloop w); cbn -[Part000.send_row];
    [destruct (verify w); cbn -[Part000.send_row]|];
    try (do 2 eexists; split; [reflexivity|]; split; [repeat split|]; cbn; exact Hq).
  destruct (send_row_outcome r (add_sql (Part000.select self) w))
    as (o & w' & E & F & Q).
  rewrite E. destruct o as [[]|e]; cbn in *.
  - do 2 eexists. split; [reflexivity|]. split; [exact F|].
    split; [reflexivity|]. exists r, rest. rewrite Hq in *. auto.
  - do 2 eexists. split; [reflexivity|]. split; [exact F|]. congruence.
Qed.

Lemma send_iteration_shrinking : shrinking (Part000.send_iteration env self).
Proof.
  intros w. destruct (send_iteration_outcome w) as (o & w' & E & F & Q).
  exists o, w'. split; [exact E|]. split; [exact F|].
  destruct o as [[[] c]|e].
  - destruct Q as (-> & r & rest & Hq & Hq'). split; [reflexivity|].
    rewrite Hq', Hq. apply filter_head_shorter.
  - rewrite Q. lia.
  - rewrite Q. lia.
Qed.

End Part000Facts.

(** ** The loop ends *)

Section WhileRows.
Variable iteration : Cursor -> M (Flow * Cursor).
Hypothesis iteration_shrinking : shrinking iteration.

(** With more fuel than queued rows the loop never runs dry. *)
Lemma while_rows_ends (fuel : nat) :
  forall w, length (queue w) < fuel ->
  exists o w',
    while_rows iteration fuel None w = Some (o, w') /\
    same_frame w w' /\
    length (queue w') <= length (queue w).
Proof.
  induction fuel as [|fuel IH]; intros w Hlen; [lia|].
  cbn [while_rows]. unfold bind.
  destruct (iteration_shrinking w) as (o & w1 & E & F & Q). rewrite E.
  destruct o as [[[] c]|e]; cbn.
  - destruct Q as [-> Q].
    destruct (IH w1) as (o2 & w2 & E2 & F2 & Q2); [lia|].
    exists o2, w2. split; [exact E2|].
    split; [eapply same_frame_trans; eassumption|lia].
  - do 2 eexists. split; [reflexivity|]. split; [exact F|exact Q].
  - do 2 eexists. split; [reflexivity|]. split; [exact F|exact Q].
Qed.

(** And any such fuel gives the same run. *)
Lemma while_rows_fuel (f1 : nat) :
  forall f2 w, length (queue w) < f1 -> length (queue w) < f2 ->
  while_rows iteration f1 None w = while_rows iteration f2 None w.
Proof.
  induction f1 as [|f1 IH]; intros f2 w H1 H2; [lia|].
  destruct f2 as [|f2]; [lia|].
  cbn [while_rows]. unfold bind.
  destruct (iteration_shrinking w) as (o & w1 & E & F & Q). rewrite E.
  destruct o as [[[] c]|e]; cbn; try reflexivity.
  destruct Q as [-> Q]. apply IH; lia.
Qed.

End WhileRows.

(** ** The sweep of the first source *)

Section Part000Send.
Variable env : Env.
Variable self : Part000.Protocol.

Lemma send_catch_returns (e : exn) (w : World) :
  Part000.send_catch e w = Some (Returns tt, add_log (send_warning e) w).
Proof. destruct e; reflexivity. Qed.

Lemma send_body_outcome (fuel : nat) (w : World) :
  length (queue w) < fuel ->
  exists o w1,
    Part000.send_body env self fuel w = Some (o, w1) /\ same_frame w w1.
Proof.
  intros Hlen. unfold Part000.send_body, Statement. monad_unfold.
  destruct (prepare_fault env (Part000.del self)).
  { do 2 eexists. split; [reflexivity|apply same_frame_refl]. }
  destruct (prepare_fault env (Part000.select self)).
  { do 2 eexists. split; [reflexivity|apply same_frame_refl]. }
  destruct (while_rows_ends _ (send_iteration_shrinking env self) fuel w Hlen)
    as (o & w1 & E & F & _).
  exists o, w1. split; [exact E|exact F].
Qed.

(** [send], whole: a call that finds the flag set changes nothing; any
    other call runs the [try] block, writes the warning of the [catch]
    clause if the block threw, and clears the flag. *)
Lemma send_characterised (w : World) :
  exists w',
    Part000.send env self w = Some (Returns tt, w') /\
    if busy w
    then w' = w
    else
      match Part000.send_body env self (S (length (queue w))) (set_busy true w) with
      | Some (Returns _, w1) => w' = set_busy false w1
      | Some (Throws e, w1) => w' = set_busy false (add_log (send_warning e) w1)
      | None => False
      end.
Proof.
  unfold Part000.send, Part000.send_fuel, Part000.send_guard.
  unfold bind at 1. unfold bind at 1. unfold gets. cbn beta iota.
  destruct (busy w) eqn:Hb.
  { exists w. split; reflexivity. }
  unfold bind at 1. unfold modify at 1, ret at 1. cbn beta iota.
  unfold bind at 1, try_catch.
  destruct (send_body_outcome (S (length (queue w))) (set_busy true w))
    as (o & w1 & E & F); [cbn; lia|].
  rewrite E. destruct o as [[]|e].
  - eexists. split; reflexivity.
  - rewrite send_catch_returns. eexists. split; reflexivity.
Qed.

Lemma send_returns (w : World) :
  exists w', Part000.send env self w = Some (Returns tt, w') /\
             (busy w = false -> busy w' = false) /\
             mainloop w' = mainloop w /\ verify w' = verify w.
Proof.
  destruct (send_characterised w) as (w' & E & C).
  exists w'. split; [exact E|].
  destruct (busy w) eqn:Hb.
  { subst w'. repeat split; congruence. }
  destruct (send_body_outcome (S (length (queue w))) (set_busy true w))
    as (o & w1 & E1 & F); [cbn; lia|].
  rewrite E1 in C. destruct F as (_ & Fm & Fv & _). cbn in Fm, Fv.
  destruct o as [[]|e]; subst w'; cbn; repeat split; intros; assumption.
Qed.

End Part000Send.

(** ** The sweep of the second source *)

Section Part001Facts.
Variable env : Env.
Variable self : Part001.Protocol.

Lemma send_row_outcome' (r : Row) (w : World) :
  exists o w',
    Part001.send_row env self r w = Some (o, w') /\
    same_frame w w' /\
    match o with
    | Returns _ =>
        queue w' = filter (fun x => negb (row_id x =? row_id r)%Z) (queue w)
    | Throws _ => queue w' = queue w
    end.
Proof.
  unfold Part001.send_row, exec_delete. monad_unfold. cbn.
  repeat (break_match; cbn);
    do 2 eexists; (split; [reflexivity|]); split;
    try (repeat split; reflexivity); reflexivity.
Qed.

Lemma send_iteration_shrinking' : shrinking (Part001.send_iteration env self).
Proof.
  intros w. unfold Part001.send_iteration, step_select. monad_unfold.
  cbn -[Part001.send_row].
  destruct (step_fault env (Part001.select self) (queue w));
    cbn -[Part001.send_row].
  { do 2 eexists. split; [reflexivity|]. split; [repeat split|]. cbn. lia. }
  destruct (queue w) as [|r rest] eqn:Hq; cbn -[Part001.send_row].
  { do 2 eexists. split; [reflexivity|]. split; [repeat split|].
    cbn. rewrite Hq. cbn. lia. }
  destruct (mainloop w); cbn -[Part001.send_row].
  2:{ do 2 eexists. split; [reflexivity|]. split; [repeat split|].
      cbn. rewrite Hq. cbn. lia. }
  destruct (send_row_outcome' r (add_sql (Part001.select self) w))
    as (o & w' & E & F & Q).
  rewrite E. cbn in Q. rewrite Hq in Q.
  destruct o as [[]|e]; cbn.
  - do 2 eexists. split; [reflexivity|]. split; [exact F|].
    split; [reflexivity|]. rewrite Q. apply filter_head_shorter.
  - do 2 eexists. split; [reflexivity|]. split; [exact F|].
    rewrite Q. cbn. lia.
Qed.

Lemma send_outcome' (w : World) :
  exists o w', Part001.send env self w = Some (o, w') /\ same_frame w w'.
Proof.
  unfold Part001.send, Part001.send_fuel, Statement. monad_unfold.
  destruct (prepare_fault env (Part001.del self)).
  { do 2 eexists. split; [reflexivity|apply same_frame_refl]. }
  destruct (prepare_fault env (Part001.select self)).
  { do 2 eexists. split; [reflexivity|apply same_frame_refl]. }
  destruct (while_rows_ends _ send_iteration_shrinking' (S (length (queue w))) w)
    as (o & w1 & E & F & _); [lia|].
  exists o, w1. split; [exact E|exact F].
Qed.

End Part001Facts.

(** ** A pass that goes through

    The passes of the two sources differ in what they log and in the
    [verify] test; the same scripts go through both. *)

Ltac pass_completes unfolding :=
  let Hq := fresh "Hq" in let Hml := fresh "Hml" in let Hvf := fresh "Hvf" in
  let Hstep := fresh "Hstep" in let Hexec := fresh "Hexec" in
  let Hm := fresh "Hm" in let Hcall := fresh "Hcall" in
  intros Hq Hml Hvf Hstep Hexec Hm Hcall;
  unfolding; unfold step_select, exec_delete; monad_unfold;
  cbn; rewrite Hq, Hstep; cbn; rewrite Hml; cbn; rewrite ?Hvf; cbn;
  rewrite Hm; cbn;
  match goal with
  | m : Method |- _ =>
      destruct m;
      [ destruct Hcall as [? Hcall]; rewrite Hcall; cbn; rewrite Hq, Hexec; cbn;
        eexists; split; [reflexivity|]; cbn; rewrite ?Hq;
        split; [repeat split|]; auto
      | destruct Hcall as [? Hcall]; rewrite Hcall; cbn; rewrite Hq, Hexec; cbn;
        eexists; split; [reflexivity|]; cbn; rewrite ?Hq;
        split; [repeat split|]; auto
      | cbn; rewrite Hq, Hexec; cbn;
        eexists; split; [reflexivity|]; cbn; rewrite ?Hq;
        split; [repeat split|]; split; [reflexivity|];
        split; [symmetry; apply app_nil_r|];
        apply in_or_app; left; apply in_or_app; right; left; reflexivity ]
  end.

Ltac pass_empty unfolding :=
  let Hq := fresh "Hq" in let Hstep := fresh "Hstep" in
  intros Hq (_ & _ & Hstep & _);
  unfolding; unfold step_select; monad_unfold;
  cbn; rewrite Hq, Hstep; cbn;
  do 2 eexists; split; [reflexivity|]; cbn; rewrite Hq;
  split; [repeat split|]; auto.

Ltac pass_raises unfolding :=
  let Hq := fresh "Hq" in let Hml := fresh "Hml" in let Hvf := fresh "Hvf" in
  let Hstep := fresh "Hstep" in let Hk := fresh "Hk" in
  intros Hq Hml Hvf (_ & _ & Hstep & _) Hk;
  unfolding; unfold step_select; monad_unfold;
  cbn; rewrite Hq, Hstep; cbn; rewrite Hml; cbn; rewrite ?Hvf; cbn;
  unfold transport_raises in Hk;
  match goal with
  | |- context [MethodFactory ?e ?a] =>
      destruct (MethodFactory e a) as [[]|]; try discriminate; cbn
  end;
  [ match goal with
    | |- context [client_get ?e ?u] =>
        destruct (client_get e u); try discriminate
    end
  | match goal with
    | |- context [client_post ?e ?u ?p] =>
        destruct (client_post e u p); try discriminate
    end ];
  cbn; do 2 eexists; (split; [reflexivity|]); cbn;
  (split; [repeat split|]); (split; [exact Hq|]); rewrite map_app; reflexivity.

Lemma delivers_inv (env : Env) (r : Row) :
  delivers env r = true ->
  exists m,
    MethodFactory env (row_action r) = Returns m /\
    m <> OtherMethod /\
    match m with
    | Get => exists resp, client_get env (row_url r) = Returns resp
    | Post => exists resp, client_post env (row_url r) (row_payload r) = Returns resp
    | OtherMethod => True
    end.
Proof.
  unfold delivers.
  destruct (MethodFactory env (row_action r)) as [[]|]; try discriminate.
  - destruct (client_get env (row_url r)) eqn:E; try discriminate.
    exists Get. repeat split; [discriminate|eauto].
  - destruct (client_post env (row_url r) (row_payload r)) eqn:E; try discriminate.
    exists Post. repeat split; [discriminate|eauto].
Qed.

Section Part000Pass.
Variable env : Env.
Variable self : Part000.Protocol.

(** The pass on a readable row whose verb resolves and whose transport
    call, if there is one, hands back a response: the row is deleted and
    the loop goes on with the statement reset. *)
Lemma send_iteration_completes (w : World) (r : Row) (rest : list Row) (m : Method) :
  queue w = r :: rest ->
  mainloop w = true ->
  verify w = true ->
  step_fault env (Part000.select self) (r :: rest) = None ->
  exec_fault env (Part000.del self) (r :: rest) = None ->
  MethodFactory env (row_action r) = Returns m ->
  match m with
  | Get => exists resp, client_get env (row_url r) = Returns resp
  | Post => exists resp, client_post env (row_url r) (row_payload r) = Returns resp
  | OtherMethod => True
  end ->
  exists w',
    Part000.send_iteration env self None w = Some (Returns (Continue, None), w') /\
    same_frame w w' /\
    queue w' = filter (fun x => negb (row_id x =? row_id r)%Z) (r :: rest) /\
    http w' = http w ++ match m with OtherMethod => [] | _ => [(m, r)] end /\
    match m with
    | OtherMethod =>
        In (Error, "Unexpected verb '" +++ row_action r
                   +++ "' sending queued request, ignoring") (log w')
    | _ => True
    end.
Proof.
  pass_completes ltac:(unfold Part000.send_iteration, Part000.send_row).
Qed.

(** The same for a row that [delivers], in an ascending queue: what is
    left is the rest of the queue, and the row joins the transport
    trace. *)
Lemma send_iteration_delivers (w : World) (r : Row) (rest : list Row) :
  store_sound env (Part000.del self) (Part000.select self) ->
  queue w = r :: rest ->
  ascending (r :: rest) = true ->
  mainloop w = true ->
  verify w = true ->
  delivers env r = true ->
  exists w',
    Part000.send_iteration env self None w = Some (Returns (Continue, None), w') /\
    same_frame w w' /\
    queue w' = rest /\
    map snd (http w') = map snd (http w) ++ [r].
Proof.
  intros (_ & _ & Hstep & Hexec) Hq Hasc Hml Hvf Hd.
  destruct (delivers_inv env r Hd) as (m & Hm & Hne & Hcall).
  destruct (send_iteration_completes w r rest m Hq Hml Hvf
              (Hstep _) (Hexec _) Hm Hcall) as (w' & E & F & Q & T & _).
  exists w'. split; [exact E|]. split; [exact F|].
  split; [rewrite Q; apply filter_head_ascending; exact Hasc|].
  rewrite T, map_app. destruct m; try contradiction; reflexivity.
Qed.

(** The pass that finds the queue empty leaves the loop. *)
Lemma send_iteration_empty (w : World) :
  queue w = [] ->
  store_sound env (Part000.del self) (Part000.select self) ->
  exists c w',
    Part000.send_iteration env self None w = Some (Returns (Break, c), w') /\
    same_frame w w' /\ queue w' = [] /\ http w' = http w.
Proof. pass_empty ltac:(unfold Part000.send_iteration). Qed.

(** The pass on a row the transport throws on: the exception leaves the
    pass before the delete. *)
Lemma send_iteration_raises (w : World) (r : Row) (rest : list Row) :
  queue w = r :: rest ->
  mainloop w = true ->
  verify w = true ->
  store_sound env (Part000.del self) (Part000.select self) ->
  transport_raises env r = true ->
  exists e w',
    Part000.send_iteration env self None w = Some (Throws e, w') /\
    same_frame w w' /\ queue w' = r :: rest /\
    map snd (http w') = map snd (http w) ++ [r].
Proof.
  pass_raises ltac:(unfold Part000.send_iteration, Part000.send_row).
Qed.

End Part000Pass.

Section Part001Pass.
Variable env : Env.
Variable self : Part001.Protocol.

Lemma send_iteration_completes' (w : World) (r : Row) (rest : list Row) (m : Method) :
  queue w = r :: rest ->
  mainloop w = true ->
  verify w = true ->
  step_fault env (Part001.select self) (r :: rest) = None ->
  exec_fault env (Part001.del self) (r :: rest) = None ->
  MethodFactory env (row_action r) = Returns m ->
  match m with
  | Get => exists resp, client_get env (row_url r) = Returns resp
  | Post => exists resp, client_post env (row_url r) (row_payload r) = Returns resp
  | OtherMethod => True
  end ->
  exists w',
    Part001.send_iteration env self None w = Some (Returns (Continue, None), w') /\
    same_frame w w' /\
    queue w' = filter (fun x => negb (row_id x =? row_id r)%Z) (r :: rest) /\
    http w' = http w ++ match m with OtherMethod => [] | _ => [(m, r)] end /\
    match m with
    | OtherMethod =>
        In (Error, "Unexpected verb '" +++ row_action r
                   +++ "' sending queued request, ignoring") (log w')
    | _ => True
    end.
Proof.
  pass_completes ltac:(unfold Part001.send_iteration, Part001.send_row).
Qed.

Lemma send_iteration_delivers' (w : World) (r : Row) (rest : list Row) :
  store_sound env (Part001.del self) (Part001.select self) ->
  queue w = r :: rest ->
  ascending (r :: rest) = true ->
  mainloop w = true ->
  verify w = true ->
  delivers env r = true ->
  exists w',
    Part001.send_iteration env self None w = Some (Returns (Continue, None), w') /\
    same_frame w w' /\
    queue w' = rest /\
    map snd (http w') = map snd (http w) ++ [r].
Proof.
  intros (_ & _ & Hstep & Hexec) Hq Hasc Hml Hvf Hd.
  destruct (delivers_inv env r Hd) as (m & Hm & Hne & Hcall).
  destruct (send_iteration_completes' w r rest m Hq Hml Hvf
              (Hstep _) (Hexec _) Hm Hcall) as (w' & E & F & Q & T & _).
  exists w'. split; [exact E|]. split; [exact F|].
  split; [rewrite Q; apply filter_head_ascending; exact Hasc|].
  rewrite T, map_app. destruct m; try contradiction; reflexivity.
Qed.

Lemma send_iteration_empty' (w : World) :
  queue w = [] ->
  store_sound env (Part001.del self) (Part001.select self) ->
  exists c w',
    Part001.send_iteration env self None w = Some (Returns (Break, c), w') /\
    same_frame w w' /\ queue w' = [] /\ http w' = http w.
Proof. pass_empty ltac:(unfold Part001.send_iteration). Qed.

Lemma send_iteration_raises' (w : World) (r : Row) (rest : list Row) :
  queue w = r :: rest ->
  mainloop w = true ->
  verify w = true ->
  store_sound env (Part001.del self) (Part001.select self) ->
  transport_raises env r = true ->
  exists e w',
    Part001.send_iteration env self None w = Some (Throws e, w') /\
    same_frame w w' /\ queue w' = r :: rest /\
    map snd (http w') = map snd (http w) ++ [r].
Proof.
  pass_raises ltac:(unfold Part001.send_iteration, Part001.send_row).
Qed.

End Part001Pass.

(** ** The loop over a queue that delivers

    What follows needs of a loop pass only the three facts above, which
    the passes of both sources have. *)

Section DeliveringLoop.
Variable env : Env.
Variable iteration : Cursor -> M (Flow * Cursor).

Hypothesis pass_delivers : forall w r rest,
  queue w = r :: rest -> ascending (r :: rest) = true ->
  mainloop w = true -> verify w = true -> delivers env r = true ->
  exists w',
    iteration None w = Some (Returns (Continue, None), w') /\
    same_frame w w' /\ queue w' = rest /\
    map snd (http w') = map snd (http w) ++ [r].

Hypothesis pass_empty : forall w,
  queue w = [] ->
  exists c w',
    iteration None w = Some (Returns (Break, c), w') /\
    same_frame w w' /\ queue w' = [] /\ http w' = http w.

Hypothesis pass_raises : forall w r rest,
  queue w = r :: rest -> mainloop w = true -> verify w = true ->
  transport_raises env r = true ->
  exists e w',
    iteration None w = Some (Throws e, w') /\
    same_frame w w' /\ queue w' = r :: rest /\
    map snd (http w') = map snd (http w) ++ [r].

Lemma ascending_tail (r : Row) (rest : list Row) :
  ascending (r :: rest) = true -> ascending rest = true.
Proof. cbn. intros H. apply andb_true_iff in H. tauto. Qed.

(** Every row delivers: all delivered in queue order, nothing left. *)
Lemma while_rows_delivers (q : list Row) :
  forall (fuel : nat) (w : World),
    queue w = q ->
    ascending q = true ->
    mainloop w = true ->
    verify w = true ->
    forallb (delivers env) q = true ->
    length q < fuel ->
    exists w',
      while_rows iteration fuel None w = Some (Returns tt, w') /\
      same_frame w w' /\
      queue w' = [] /\
      map snd (http w') = map snd (http w) ++ q.
Proof.
  induction q as [|r rest IH]; intros fuel w Hq Hasc Hml Hvf Hd Hlen.
  - destruct fuel as [|fuel]; [cbn in Hlen; lia|].
    destruct (pass_empty w Hq) as (c & w' & E & F & Q & T).
    exists w'. cbn [while_rows]. unfold bind. rewrite E. cbn.
    split; [reflexivity|]. split; [exact F|]. split; [exact Q|].
    rewrite T. symmetry. apply app_nil_r.
  - destruct fuel as [|fuel]; [cbn in Hlen; lia|].
    cbn [forallb] in Hd. apply andb_true_iff in Hd as [Hr Hd].
    destruct (pass_delivers w r rest Hq Hasc Hml Hvf Hr) as (w1 & E & F & Q & T).
    pose proof F as (_ & Fm & Fv & _).
    destruct (IH fuel w1 Q (ascending_tail _ _ Hasc) (eq_trans Fm Hml)
                (eq_trans Fv Hvf) Hd ltac:(cbn in Hlen; lia))
      as (w' & E' & F' & Q' & T').
    exists w'. cbn [while_rows]. unfold bind at 1. rewrite E. cbn [fst snd].
    split; [exact E'|]. split; [eapply same_frame_trans; eassumption|].
    split; [exact Q'|]. rewrite T', T, <- app_assoc. reflexivity.
Qed.

(** The rows deliver up to one on which the transport throws: the rows
    before it delivered and deleted, the exception out of the loop, that
    row and the later ones queued. *)
Lemma while_rows_aborts (before : list Row) :
  forall (fuel : nat) (w : World) (rk : Row) (after : list Row),
    queue w = before ++ rk :: after ->
    ascending (before ++ rk :: after) = true ->
    mainloop w = true ->
    verify w = true ->
    forallb (delivers env) before = true ->
    transport_raises env rk = true ->
    length before < fuel ->
    exists e w',
      while_rows iteration fuel None w = Some (Throws e, w') /\
      same_frame w w' /\
      queue w' = rk :: after /\
      map snd (http w') = map snd (http w) ++ before ++ [rk].
Proof.
  induction before as [|r rest IH];
    intros fuel w rk after Hq Hasc Hml Hvf Hd Hk Hlen.
  - destruct fuel as [|fuel]; [cbn in Hlen; lia|].
    cbn [app] in *.
    destruct (pass_raises w rk after Hq Hml Hvf Hk) as (e & w' & E & F & Q & T).
    exists e, w'. cbn [while_rows]. unfold bind. rewrite E.
    split; [reflexivity|]. split; [exact F|]. split; [exact Q|exact T].
  - destruct fuel as [|fuel]; [cbn in Hlen; lia|].
    cbn [forallb] in Hd. apply andb_true_iff in Hd as [Hr Hd].
    cbn [app] in Hq, Hasc.
    destruct (pass_delivers w r _ Hq Hasc Hml Hvf Hr) as (w1 & E & F & Q & T).
    pose proof F as (_ & Fm & Fv & _).
    destruct (IH fuel w1 rk after Q (ascending_tail _ _ Hasc) (eq_trans Fm Hml)
                (eq_trans Fv Hvf) Hd Hk ltac:(cbn in Hlen; lia))
      as (e & w' & E' & F' & Q' & T').
    exists e, w'. cbn [while_rows]. unfold bind at 1. rewrite E. cbn [fst snd].
    split; [exact E'|]. split; [eapply same_frame_trans; eassumption|].
    split; [exact Q'|]. rewrite T', T, <- app_assoc. reflexivity.
Qed.

End DeliveringLoop.

(** ** Whole sweeps *)

Section Sweeps.
Variable env : Env.

Lemma send_body_sound (self : Part000.Protocol) (fuel : nat) (w : World) :
  store_sound env (Part000.del self) (Part000.select self) ->
  Part000.send_body env self fuel w
  = while_rows (Part000.send_iteration env self) fuel None w.
Proof.
  intros (Hp1 & Hp2 & _). unfold Part000.send_body, Statement.
  rewrite Hp1, Hp2. reflexivity.
Qed.

Lemma send_fuel_sound (self : Part001.Protocol) (w : World) :
  store_sound env (Part001.del self) (Part001.select self) ->
  Part001.send env self w
  = while_rows (Part001.send_iteration env self) (S (length (queue w))) None w.
Proof.
  intros (Hp1 & Hp2 & _). unfold Part001.send, Part001.send_fuel, Statement.
  rewrite Hp1, Hp2. reflexivity.
Qed.

Lemma send_aborts (self : Part000.Protocol) (w : World)
  (before : list Row) (rk : Row) (after : list Row) :
  store_sound env (Part000.del self) (Part000.select self) ->
  queue w = before ++ rk :: after ->
  ascending (before ++ rk :: after) = true ->
  busy w = false -> mainloop w = true -> verify w = true ->
  forallb (delivers env) before = true ->
  transport_raises env rk = true ->
  exists w1,
    Part000.send env self w = Some (Returns tt, w1) /\
    same_frame w w1 /\
    queue w1 = rk :: after /\
    map snd (http w1) = map snd (http w) ++ before ++ [rk].
Proof.
  intros Hs Hq Hasc Hb Hml Hvf Hd Hk.
  destruct (send_characterised env self w) as (w1 & E & C).
  rewrite Hb in C. exists w1. split; [exact E|].
  destruct (while_rows_aborts env (Part000.send_iteration env self)
              (fun w r rest => send_iteration_delivers env self w r rest Hs)
              (fun w r rest Hq Hml Hvf => send_iteration_raises env self w r rest Hq Hml Hvf Hs)
              before (S (length (queue w))) (set_busy true w) rk after)
    as (e & w' & E' & F & Q & T); auto.
  { rewrite Hq, length_app. lia. }
  rewrite (send_body_sound self _ _ Hs), E' in C. subst w1. cbn.
  destruct F as (_ & F2 & F3 & F4 & F5 & F6). cbn in *.
  split; [unfold same_frame; cbn; intuition congruence|]. split; assumption.
Qed.

Lemma send_delivers (self : Part000.Protocol) (w : World) :
  store_sound env (Part000.del self) (Part000.select self) ->
  ascending (queue w) = true ->
  busy w = false -> mainloop w = true -> verify w = true ->
  forallb (delivers env) (queue w) = true ->
  exists w1,
    Part000.send env self w = Some (Returns tt, w1) /\
    same_frame w w1 /\
    queue w1 = [] /\
    map snd (http w1) = map snd (http w) ++ queue w.
Proof.
  intros Hs Hasc Hb Hml Hvf Hd.
  destruct (send_characterised env self w) as (w1 & E & C).
  rewrite Hb in C. exists w1. split; [exact E|].
  destruct (while_rows_delivers env (Part000.send_iteration env self)
              (fun w r rest => send_iteration_delivers env self w r rest Hs)
              (fun w Hq => send_iteration_empty env self w Hq Hs)
              (queue w) (S (length (queue w))) (set_busy true w))
    as (w' & E' & F & Q & T); auto.
  rewrite (send_body_sound self _ _ Hs), E' in C. subst w1. cbn.
  destruct F as (_ & F2 & F3 & F4 & F5 & F6). cbn in *.
  split; [unfold same_frame; cbn; intuition congruence|]. split; assumption.
Qed.

Lemma worker_sweep_aborts (self : Part001.Protocol) (w : World)
  (before : list Row) (rk : Row) (after : list Row) :
  store_sound env (Part001.del self) (Part001.select self) ->
  queue w = before ++ rk :: after ->
  ascending (before ++ rk :: after) = true ->
  mainloop w = true -> verify w = true ->
  forallb (delivers env) before = true ->
  transport_raises env rk = true ->
  exists w1,
    Part001.worker_sweep env self w = Some (Returns tt, w1) /\
    same_frame w w1 /\
    queue w1 = rk :: after /\
    map snd (http w1) = map snd (http w) ++ before ++ [rk].
Proof.
  intros Hs Hq Hasc Hml Hvf Hd Hk.
  destruct (while_rows_aborts env (Part001.send_iteration env self)
              (fun w r rest => send_iteration_delivers' env self w r rest Hs)
              (fun w r rest Hq Hml Hvf => send_iteration_raises' env self w r rest Hq Hml Hvf Hs)
              before (S (length (queue w))) w rk after)
    as (e & w' & E' & F & Q & T); auto.
  { rewrite Hq, length_app. lia. }
  unfold Part001.worker_sweep, try_catch.
  rewrite (send_fuel_sound self _ Hs), E'. unfold write, modify.
  destruct e; eexists; (split; [reflexivity|]); cbn;
    destruct F as (F1 & F2 & F3 & F4 & F5 & F6);
    (split; [repeat split; assumption|]); split; assumption.
Qed.

Lemma worker_sweep_delivers (self : Part001.Protocol) (w : World) :
  store_sound env (Part001.del self) (Part001.select self) ->
  ascending (queue w) = true ->
  mainloop w = true -> verify w = true ->
  forallb (delivers env) (queue w) = true ->
  exists w1,
    Part001.worker_sweep env self w = Some (Returns tt, w1) /\
    same_frame w w1 /\
    queue w1 = [] /\
    map snd (http w1) = map snd (http w) ++ queue w.
Proof.
  intros Hs Hasc Hml Hvf Hd.
  destruct (while_rows_delivers env (Part001.send_iteration env self)
              (fun w r rest => send_iteration_delivers' env self w r rest Hs)
              (fun w Hq => send_iteration_empty' env self w Hq Hs)
              (queue w) (S (length (queue w))) w)
    as (w' & E' & F & Q & T); auto.
  unfold Part001.worker_sweep, try_catch.
  rewrite (send_fuel_sound self _ Hs), E'. unfold write, modify.
  exists w'. split; [reflexivity|]. split; [exact F|]. split; assumption.
Qed.

End Sweeps.

(** * The claims *)

(** ** C1: a queued request with an unexpected verb *)

(** C1, as stated, does not hold. The sample queue holds a PUT request,
    which [MethodFactory] resolves to a method that is neither GET nor
    POST, followed by a GET request; were such a request left queued by
    the sweep, it would still be in the queue when [send] returns. It is
    not: the [default] label only writes the error, and the delete below
    the [switch] runs for it as for a delivered request. *)
Lemma C1_unexpected_verb_counterexample :
  MethodFactory (sample_env "") (row_action row_put) = Returns OtherMethod /\
  ~ (forall w',
       Part000.send (sample_env "") sample_protocol (sample_world [row_put; row_a])
       = Some (Returns tt, w') ->
       In row_put (queue w')).
Proof.
  split; [reflexivity|].
  intros H.
  destruct (Part000.send (sample_env "") sample_protocol
              (sample_world [row_put; row_a])) as [[o w']|] eqn:E;
    vm_compute in E; [|discriminate].
  injection E as <- <-.
  specialize (H _ eq_refl). exact H.
Qed.

(** C1, amended: in both sources, the pass of the sweep that reads a
    request whose verb resolves to a method other than GET and POST writes
    the error "Unexpected verb ... ignoring", calls no transport, deletes
    the request from the queue as it does a delivered one, and goes on to
    the next [select.step()]. *)
Theorem C1_unexpected_verb_deleted (env : Env) (w : World) (r : Row) (rest : list Row) :
  queue w = r :: rest ->
  mainloop w = true ->
  verify w = true ->
  MethodFactory env (row_action r) = Returns OtherMethod ->
  (forall self,
      step_fault env (Part000.select self) (r :: rest) = None ->
      exec_fault env (Part000.del self) (r :: rest) = None ->
      exists w',
        Part000.send_iteration env self None w = Some (Returns (Continue, None), w') /\
        In (Error, "Unexpected verb '" +++ row_action r
                   +++ "' sending queued request, ignoring") (log w') /\
        http w' = http w /\
        queue w' = filter (fun x => negb (row_id x =? row_id r)%Z) (r :: rest) /\
        ~ In r (queue w')) /\
  (forall self,
      step_fault env (Part001.select self) (r :: rest) = None ->
      exec_fault env (Part001.del self) (r :: rest) = None ->
      exists w',
        Part001.send_iteration env self None w = Some (Returns (Continue, None), w') /\
        In (Error, "Unexpected verb '" +++ row_action r
                   +++ "' sending queued request, ignoring") (log w') /\
        http w' = http w /\
        queue w' = filter (fun x => negb (row_id x =? row_id r)%Z) (r :: rest) /\
        ~ In r (queue w')).
Proof.
  intros Hq Hml Hvf Hm. split; intros self Hstep Hexec.
  - destruct (send_iteration_completes env self w r rest OtherMethod
                Hq Hml Hvf Hstep Hexec Hm I) as (w' & E & _ & Q & T & L).
    exists w'. rewrite app_nil_r in T. repeat split; try assumption.
    rewrite Q. apply filter_head_gone.
  - destruct (send_iteration_completes' env self w r rest OtherMethod
                Hq Hml Hvf Hstep Hexec Hm I) as (w' & E & _ & Q & T & L).
    exists w'. rewrite app_nil_r in T. repeat split; try assumption.
    rewrite Q. apply filter_head_gone.
Qed.

Lemma C1_unexpected_verb_deleted_witness :
  exists w',
    Part000.send_iteration (sample_env "") sample_protocol None
      (sample_world [row_put; row_a])
    = Some (Returns (Continue, None), w') /\
    queue w' = [row_a].
Proof.
  destruct (C1_unexpected_verb_deleted (sample_env "")
              (sample_world [row_put; row_a]) row_put [row_a]
              eq_refl eq_refl eq_refl eq_refl) as [H _].
  destruct (H sample_protocol eq_refl eq_refl) as (w' & E & _ & _ & Q & _).
  exists w'. split; [exact E|exact Q].
Defined.

(** ** C2: at least once *)

(** C2: a queue in ascending ids whose rows deliver up to [rk], on which
    the transport throws. The sweep deletes the rows before [rk] and no
    other, ends on the exception of [rk] with [rk] and the later rows
    queued; a second sweep, with a transport that answers, calls it on
    [rk] and the later rows in queue order and empties the queue. For
    [send] of the first source and for the guarded [send] of the worker
    task of the second. *)
Theorem C2_at_least_once (env1 env2 : Env) (w : World)
  (before : list Row) (rk : Row) (after : list Row) :
  queue w = before ++ rk :: after ->
  ascending (before ++ rk :: after) = true ->
  busy w = false -> mainloop w = true -> verify w = true ->
  forallb (delivers env1) before = true ->
  transport_raises env1 rk = true ->
  forallb (delivers env2) (rk :: after) = true ->
  (forall self,
      store_sound env1 (Part000.del self) (Part000.select self) ->
      store_sound env2 (Part000.del self) (Part000.select self) ->
      at_least_once (Part000.send env1 self) (Part000.send env2 self)
        w before rk after) /\
  (forall self,
      store_sound env1 (Part001.del self) (Part001.select self) ->
      store_sound env2 (Part001.del self) (Part001.select self) ->
      at_least_once (Part001.worker_sweep env1 self) (Part001.worker_sweep env2 self)
        w before rk after).
Proof.
  intros Hq Hasc Hb Hml Hvf Hd Hk Hd2.
  assert (Hasc2 : ascending (rk :: after) = true).
  { clear -Hasc. induction before as [|x xs IH]; [exact Hasc|].
    apply IH. cbn [app] in Hasc. eapply ascending_tail; eassumption. }
  split; intros self Hs1 Hs2.
  - destruct (send_aborts env1 self w before rk after Hs1 Hq Hasc Hb Hml Hvf Hd Hk)
      as (w1 & E1 & F1 & Q1 & T1).
    destruct F1 as (Fb & Fm & Fv & _).
    destruct (send_delivers env2 self w1 Hs2) as (w2 & E2 & _ & Q2 & T2);
      try congruence.
    exists w1, w2. rewrite Q1 in T2. repeat split; assumption.
  - destruct (worker_sweep_aborts env1 self w before rk after Hs1 Hq Hasc Hml Hvf Hd Hk)
      as (w1 & E1 & F1 & Q1 & T1).
    destruct F1 as (Fb & Fm & Fv & _).
    destruct (worker_sweep_delivers env2 self w1 Hs2) as (w2 & E2 & _ & Q2 & T2);
      try congruence.
    exists w1, w2. rewrite Q1 in T2. repeat split; assumption.
Qed.

Lemma sample_store_sound (down del select : string) :
  store_sound (sample_env down) del select.
Proof. repeat split. Qed.

Lemma C2_at_least_once_witness :
  at_least_once
    (Part000.send (sample_env "http://b.example/") sample_protocol)
    (Part000.send (sample_env "") sample_protocol)
    (sample_world [row_a; row_b; row_c]) [row_a] row_b [row_c].
Proof.
  refine (proj1 (C2_at_least_once (sample_env "http://b.example/") (sample_env "")
                   (sample_world [row_a; row_b; row_c]) [row_a] row_b [row_c]
                   eq_refl eq_refl eq_refl eq_refl eq_refl eq_refl eq_refl eq_refl)
            sample_protocol _ _);
    apply sample_store_sound.
Defined.

(** ** C4: errors stay inside the sweep *)

(** C4: whatever the store, the transport or [MethodFactory] throw, on any
    queue, [send] of the first source returns normally: a call that finds
    the flag set changes nothing, any other runs the [try] block and, if
    the block threw, writes the warning of the [catch] clause. [retry]
    returns [false]. In the second source the exception of [send] ends in
    the [catch] clauses of the worker task, as a warning. *)
Theorem C4_errors_stay_inside_sweep (env : Env) (w : World) :
  (forall self, exists w',
      Part000.send env self w = Some (Returns tt, w') /\
      if busy w
      then w' = w
      else
        match Part000.send_body env self (S (length (queue w))) (set_busy true w) with
        | Some (Returns _, w1) => w' = set_busy false w1
        | Some (Throws e, w1) => w' = set_busy false (add_log (send_warning e) w1)
        | None => False
        end) /\
  (forall self, exists w', Part000.retry env self w = Some (Returns false, w')) /\
  (forall self, exists w',
      Part001.worker_sweep env self w = Some (Returns tt, w') /\
      match Part001.send env self w with
      | Some (Returns _, w1) => w' = w1
      | Some (Throws (std_exception what), w1) =>
          w' = add_log (Warning, "Error '" +++ what
                                 +++ "' while sending queued requests") w1
      | Some (Throws foreign_exception, w1) =>
          w' = add_log (Warning, "Unexpected error while sending queued requests") w1
      | None => False
      end).
Proof.
  split; [|split]; intros self.
  - apply send_characterised.
  - destruct (send_returns env self w) as (w' & E & _).
    exists w'. unfold Part000.retry, bind, try_catch. rewrite E. reflexivity.
  - destruct (send_outcome' env self w) as (o & w1 & E & _).
    unfold Part001.worker_sweep, try_catch. rewrite E.
    destruct o as [[]|[what|]]; eexists; split; reflexivity.
Qed.

(** ** C7: a response means a delete *)

(** C7: in both sources, the pass that reads a GET or POST request whose
    transport call hands back a response, of whatever status code,
    deletes that request before it ends, the delete statement running
    without store error. *)
Theorem C7_response_then_delete (env : Env) (w : World) (r : Row)
  (rest : list Row) (m : Method) (resp : Response) :
  queue w = r :: rest ->
  mainloop w = true ->
  verify w = true ->
  MethodFactory env (row_action r) = Returns m ->
  match m with
  | Get => client_get env (row_url r) = Returns resp
  | Post => client_post env (row_url r) (row_payload r) = Returns resp
  | OtherMethod => False
  end ->
  (forall self,
      step_fault env (Part000.select self) (r :: rest) = None ->
      exec_fault env (Part000.del self) (r :: rest) = None ->
      exists w',
        Part000.send_iteration env self None w = Some (Returns (Continue, None), w') /\
        http w' = http w ++ [(m, r)] /\
        queue w' = filter (fun x => negb (row_id x =? row_id r)%Z) (r :: rest) /\
        ~ In r (queue w')) /\
  (forall self,
      step_fault env (Part001.select self) (r :: rest) = None ->
      exec_fault env (Part001.del self) (r :: rest) = None ->
      exists w',
        Part001.send_iteration env self None w = Some (Returns (Continue, None), w') /\
        http w' = http w ++ [(m, r)] /\
        queue w' = filter (fun x => negb (row_id x =? row_id r)%Z) (r :: rest) /\
        ~ In r (queue w')).
Proof.
  intros Hq Hml Hvf Hm Hcall.
  assert (Hcall' : match m with
                   | Get => exists resp, client_get env (row_url r) = Returns resp
                   | Post => exists resp,
                       client_post env (row_url r) (row_payload r) = Returns resp
                   | OtherMethod => True
                   end) by (destruct m; eauto).
  split; intros self Hstep Hexec.
  - destruct (send_iteration_completes env self w r rest m
                Hq Hml Hvf Hstep Hexec Hm Hcall') as (w' & E & _ & Q & T & _).
    exists w'. split; [exact E|].
    split; [destruct m; try contradiction; exact T|].
    split; [exact Q|]. rewrite Q. apply filter_head_gone.
  - destruct (send_iteration_completes' env self w r rest m
                Hq Hml Hvf Hstep Hexec Hm Hcall') as (w' & E & _ & Q & T & _).
    exists w'. split; [exact E|].
    split; [destruct m; try contradiction; exact T|].
    split; [exact Q|]. rewrite Q. apply filter_head_gone.
Qed.

Lemma C7_response_then_delete_witness :
  status_code (mkResponse 500 "Internal Server Error") = 500%Z /\
  exists w',
    Part000.send_iteration (sample_env "") sample_protocol None
      (sample_world [row_b; row_c])
    = Some (Returns (Continue, None), w') /\
    queue w' = [row_c].
Proof.
  split; [reflexivity|].
  destruct (C7_response_then_delete (sample_env "")
              (sample_world [row_b; row_c]) row_b [row_c] Post
              (mkResponse 500 "Internal Server Error")
              eq_refl eq_refl eq_refl eq_refl eq_refl) as [H _].
  destruct (H sample_protocol eq_refl eq_refl) as (w' & E & _ & Q & _).
  exists w'. split; [exact E|exact Q].
Defined.

(** ** C9: the count without a pending query *)

(** C9: with [pending] null or empty, [count] of either source returns 0
    and leaves the world as it found it, the trace of SQL run included,
    whatever the store holds. *)
Theorem C9_count_unconfigured (env : Env) (w : World) :
  (forall self : Part000.Protocol,
      Part000.pending self = None \/ Part000.pending self = Some "" ->
      Part000.count env self w = Some (Returns 0%Z, w)) /\
  (forall self : Part001.Protocol,
      Part001.pending self = None \/ Part001.pending self = Some "" ->
      Part001.count env self w = Some (Returns 0%Z, w)).
Proof.
  split; intros self [H|H].
  - unfold Part000.count. rewrite H. reflexivity.
  - unfold Part000.count. rewrite H. reflexivity.
  - unfold Part001.count. rewrite H. reflexivity.
  - unfold Part001.count. rewrite H. reflexivity.
Qed.

(** ** C10: the flag comes back, in one source

    A call of [send] of the first source that takes the busy flag returns
    normally with the flag cleared, whatever was thrown inside the [try]
    block; the guard of the next call then lets it in. *)
Lemma send_releases_flag (env : Env) (self : Part000.Protocol) (w : World) :
  busy w = false ->
  exists w',
    Part000.send env self w = Some (Returns tt, w') /\
    busy w' = false /\
    Part000.send_guard w' = Some (Returns true, set_busy true w').
Proof.
  intros Hb. destruct (send_returns env self w) as (w' & E & Hb' & _).
  exists w'. split; [exact E|]. split; [auto|].
  unfold Part000.send_guard. monad_unfold. rewrite (Hb' Hb). reflexivity.
Qed.

(** C10 holds of the first source and fails in the second. In the first,
    [send] releases the flag on every path. In the second the flag is set
    by the timer callback and cleared by the last statement of the worker
    task, and the count of the status publication stands between the
    [catch] clauses and that statement, outside any [try] (the constructor
    guards the same count with one). On the sample protocol, with a
    database on which no statement can be prepared: the sweep fails, its
    exception is caught and logged, the count then throws, the task ends
    with the flag set, and the next tick of the timer starts no sweep. *)
Theorem C10_worker_task_leaves_flag_set :
  (forall env self w,
      busy w = false ->
      exists w',
        Part000.send env self w = Some (Returns tt, w') /\
        busy w' = false /\
        Part000.send_guard w' = Some (Returns true, set_busy true w')) /\
  exists w1 w2 w3,
    Part001.timer_callback sample_protocol' (sample_world [row_a])
    = Some (Returns (true, true), w1) /\
    Part001.worker_task sample_env_no_prepare sample_protocol' w1
    = Some (Throws (std_exception "database disk image is malformed"), w2) /\
    In (Warning,
        "Error 'database disk image is malformed' while sending queued requests")
       (log w2) /\
    queue w2 = [row_a] /\
    busy w2 = true /\
    Part001.timer_callback sample_protocol' w2 = Some (Returns (true, false), w3) /\
    busy w3 = true.
Proof.
  split; [exact send_releases_flag|].
  do 3 eexists.
  split; [vm_compute; reflexivity|].
  split; [vm_compute; reflexivity|].
  split; [cbn; auto|].
  split; [reflexivity|]. split; [reflexivity|].
  split; [vm_compute; reflexivity|reflexivity].
Qed.

(** ** C6: the status projection *)

(** C6: for a pending count [c] in the range of [int64_t] and not
    negative, [state()] of the first source, with a pending query
    configured, gives the state "empty" for 0, the singular "One pending
    request ..." for 1 and otherwise a summary that begins with the
    decimal digits of [c] and goes on in the plural; without a pending
    query, where the count is always 0, it gives "No pending requests".
    [SQLState] of the second source maps 0, 1 and more in the same three
    ways. *)
Theorem C6_status_projection (c : Z) :
  (0 <= c < 2 ^ 63)%Z ->
  (forall self w,
      Part000.value self = c ->
      exists st,
        Part000.state self w
        = Some (Returns st,
                if configured (Part000.pending self)
                then add_log (Info, state_summary st) w else w) /\
        (configured (Part000.pending self) = false ->
         state_name st = "none" /\ state_summary st = "No pending requests") /\
        (configured (Part000.pending self) = true ->
         state_name st = (if (c =? 0)%Z then "empty" else "pending") /\
         state_summary st
         = (if (c =? 0)%Z then "Output queue is empty"
            else if (c =? 1)%Z then "One pending request in the output queue"
            else to_string c +++ " pending requests in the output queue") /\
         ((1 < c)%Z -> contains (state_summary st) (to_string c)))) /\
  state_summary (Part001.SQLState c)
  = (if (c =? 0)%Z then "No pending messages"
     else if (c =? 1)%Z then "1 pending message"
     else to_string c +++ " pending messages") /\
  ((1 < c)%Z -> contains (state_summary (Part001.SQLState c)) (to_string c)).
Proof.
  intros Hc. split; [|split].
  - intros self w Hv. unfold Part000.state. rewrite Hv.
    destruct (configured (Part000.pending self)).
    + unfold bind, write, modify, ret.
      rewrite (Z.mod_small c (2 ^ 64)) by lia.
      destruct (Z.eqb_spec c 0) as [->|H0].
      { eexists. split; [reflexivity|]. split; [discriminate|].
        intros _. repeat split. cbn. lia. }
      destruct (Z.eqb_spec c 1) as [->|H1].
      { eexists. split; [reflexivity|]. split; [discriminate|].
        intros _. repeat split. cbn. lia. }
      eexists. split; [reflexivity|]. split; [discriminate|].
      intros _. split; [reflexivity|]. split; [reflexivity|].
      intros _. exists "", " pending requests in the output queue". reflexivity.
    + eexists. split; [reflexivity|]. split; [auto|discriminate].
  - reflexivity.
  - intros H1. unfold Part001.SQLState. cbn [state_summary].
    destruct (Z.eqb_spec c 0); [lia|]. destruct (Z.eqb_spec c 1); [lia|].
    exists "", " pending messages". reflexivity.
Qed.

Lemma C6_status_projection_witness :
  exists st,
    Part000.state (Part000.mkProtocol "" "" "" (Some "select count(*) from queue") 0 1205)
      (sample_world [])
    = Some (Returns st, add_log (Info, state_summary st) (sample_world [])) /\
    state_summary st = "1205 pending requests in the output queue" /\
    state_summary (Part001.SQLState 1205) = "1205 pending messages".
Proof.
  destruct (C6_status_projection 1205 ltac:(lia)) as (H & H' & _).
  destruct (H (Part000.mkProtocol "" "" "" (Some "select count(*) from queue") 0 1205)
              (sample_world []) eq_refl) as (st & E & _ & Hst).
  destruct (Hst eq_refl) as (_ & Hs & _).
  exists st. split; [exact E|]. split; [exact Hs|exact H'].
Defined.

(** ** C8: construction *)

Section Construction.
Variable env : Env.

Lemma run_init_frame (cs : list xml_node) :
  forall w o w', run_init env cs w = Some (o, w') -> queue w' = queue w.
Proof.
  induction cs as [|c cs IH]; intros w o w' H.
  - injection H as <- <-. reflexivity.
  - cbn [run_init] in H. unfold Database_exec in H. monad_unfold. cbn in H.
    destruct (exec_fault env (expand env c (strip env (node_text c))) (queue w)).
    + injection H as <- <-. reflexivity.
    + apply IH in H. exact H.
Qed.

(** An init statement that fails makes the loop throw, at that statement
    or at an earlier one. *)
Lemma run_init_fails (cs : list xml_node) (c : xml_node) (e : exn) :
  In c cs ->
  (forall q, exec_fault env (expand env c (strip env (node_text c))) q = Some e) ->
  forall w, exists e' w', run_init env cs w = Some (Throws e', w').
Proof.
  intros Hin Hf. induction cs as [|x cs IH]; intros w; [contradiction|].
  cbn [run_init]. unfold Database_exec. monad_unfold. cbn.
  destruct (exec_fault env (expand env x (strip env (node_text x))) (queue w))
    as [e'|] eqn:E.
  - do 2 eexists. reflexivity.
  - destruct Hin as [->|Hin]; [rewrite Hf in E; discriminate|].
    apply IH. exact Hin.
Qed.

Lemma run_init_passes (cs : list xml_node) :
  (forall c q, In c cs ->
               exec_fault env (expand env c (strip env (node_text c))) q = None) ->
  forall w, exists w', run_init env cs w = Some (Returns tt, w').
Proof.
  intros Hok. induction cs as [|x cs IH]; intros w.
  - eexists. reflexivity.
  - cbn [run_init]. unfold Database_exec. monad_unfold. cbn.
    rewrite (Hok x) by (left; reflexivity).
    apply IH. intros c q Hc. apply Hok. right. exact Hc.
Qed.

End Construction.

(** C8: the constructor throws, and so hands no object to its caller,
    when the node has no [insert], no [delete] or no [select] child (then
    before any SQL is run), and when one of its [init] statements fails;
    with those three children and every init statement going through, a
    missing [pending] child is no error: the object is built with an empty
    pending query. *)
Theorem C8_construction_errors (env : Env) (dd dv : Z) (node : xml_node) (w : World) :
  (child node "insert" = None \/ child node "delete" = None \/
   child node "select" = None ->
   exists what,
     Part000.Protocol_ctor env dd dv node w = Some (Throws (std_exception what), w)) /\
  (forall c e,
      In c (init_children node) ->
      (forall q, exec_fault env (expand env c (strip env (node_text c))) q = Some e) ->
      exists e' w', Part000.Protocol_ctor env dd dv node w = Some (Throws e', w')) /\
  (child node "insert" <> None -> child node "delete" <> None ->
   child node "select" <> None -> child node "pending" = None ->
   (forall c q, In c (init_children node) ->
                exec_fault env (expand env c (strip env (node_text c))) q = None) ->
   exists self w',
     Part000.Protocol_ctor env dd dv node w = Some (Returns self, w') /\
     Part000.pending self = Some "" /\
     configured (Part000.pending self) = false).
Proof.
  unfold Part000.Protocol_ctor, child_value. split; [|split].
  - intros H. monad_unfold.
    destruct (child node "insert"); [|eexists; reflexivity].
    destruct (child node "delete"); [|eexists; reflexivity].
    destruct (child node "select"); [|eexists; reflexivity].
    destruct H as [H|[H|H]]; discriminate.
  - intros c e Hin Hf. monad_unfold.
    destruct (child node "insert"); [|do 2 eexists; reflexivity].
    destruct (child node "delete"); [|do 2 eexists; reflexivity].
    destruct (child node "select"); [|do 2 eexists; reflexivity].
    destruct (child node "pending"); cbn;
      destruct (run_init_fails env _ c e Hin Hf w) as (e' & w' & E);
      rewrite E; do 2 eexists; reflexivity.
  - intros Hi Hd Hs Hp Hok. monad_unfold. rewrite Hp.
    destruct (child node "insert"); [|contradiction].
    destruct (child node "delete"); [|contradiction].
    destruct (child node "select"); [|contradiction].
    cbn. destruct (run_init_passes env _ Hok w) as (w' & E). rewrite E.
    do 2 eexists. split; [reflexivity|]. split; reflexivity.
Qed.

Lemma C8_construction_errors_witness :
  (exists what,
      Part000.Protocol_ctor (sample_env "") 1 0
        (Element "sql" "" [Element "insert" "insert into queue values (?,?,?)" []])
        (sample_world [])
      = Some (Throws (std_exception what), sample_world [])) /\
  (exists self w',
      Part000.Protocol_ctor (sample_env "") 1 0 sample_node (sample_world [])
      = Some (Returns self, w') /\
      Part000.pending self = Some "").
Proof.
  split.
  - apply (C8_construction_errors (sample_env "") 1 0
             (Element "sql" "" [Element "insert" "insert into queue values (?,?,?)" []])
             (sample_world [])).
    right. left. reflexivity.
  - destruct (C8_construction_errors (sample_env "") 1 0 sample_node (sample_world []))
      as (_ & _ & H).
    destruct H as (self & w' & E & P & _);
      try discriminate; try reflexivity.
    exists self, w'. split; [exact E|exact P].
Defined.

(** ** C3: single flight *)

Section SingleFlight.
Variable env : Env.
Variable self : Part000.Protocol.

(** A pass of the loop, on any cursor, ends and leaves the flag alone. *)
Lemma send_iteration_frame (sel : Cursor) (w : World) :
  exists o w',
    Part000.send_iteration env self sel w = Some (o, w') /\ same_frame w w'.
Proof.
  unfold Part000.send_iteration, step_select. monad_unfold.
  cbn -[Part000.send_row].
  destruct (step_fault env (Part000.select self) (queue w));
    cbn -[Part000.send_row].
  { do 2 eexists. split; [reflexivity|repeat split]. }
  destruct (match sel with None => queue w | Some rows => rows end)
    as [|r rest]; cbn -[Part000.send_row].
  { do 2 eexists. split; [reflexivity|repeat split]. }
  destruct (mainloop w); cbn -[Part000.send_row];
    [destruct (verify w); cbn -[Part000.send_row]|];
    try (do 2 eexists; split; [reflexivity|repeat split]).
  destruct (send_row_outcome env self r (add_sql (Part000.select self) w))
    as (o & w' & E & F & _).
  rewrite E. destruct o as [[]|e]; do 2 eexists; (split; [reflexivity|exact F]).
Qed.

(** What one step of a thread does to the flag. *)
Lemma thread_step_flag (pc pc' : Pc) (w w' : World) :
  thread_step env self pc w = Some (pc', w') ->
  match pc with
  | AtGuard =>
      if busy w
      then pc' = Finished /\ w' = w
      else pc' = InTry /\ w' = set_busy true w
  | InTry | InLoop _ => sweeping pc' = true /\ busy w' = busy w
  | AtRelease => pc' = Finished /\ w' = set_busy false w
  | Finished => False
  end.
Proof.
  destruct pc; cbn [thread_step].
  - unfold Part000.send_guard. monad_unfold.
    destruct (busy w); intros H; injection H as <- <-; auto.
  - unfold Statement, caught. monad_unfold.
    destruct (prepare_fault env (Part000.del self)) as [e|]; monad_unfold.
    { rewrite send_catch_returns. intros H. injection H as <- <-. auto. }
    destruct (prepare_fault env (Part000.select self)) as [e|]; monad_unfold.
    { rewrite send_catch_returns. intros H. injection H as <- <-. auto. }
    intros H. injection H as <- <-. auto.
  - destruct (send_iteration_frame sel w) as (o & w1 & E & F & _).
    rewrite E. destruct o as [[[] c]|e].
    + intros H. injection H as <- <-. auto.
    + intros H. injection H as <- <-. auto.
    + unfold caught. rewrite send_catch_returns.
      intros H. injection H as <- <-. auto.
  - intros H. injection H as <- <-. auto.
  - discriminate.
Qed.

Lemma sweepers_app (a b : list Pc) : sweepers (a ++ b) = sweepers a + sweepers b.
Proof. unfold sweepers. rewrite filter_app, length_app. reflexivity. Qed.

Lemma sweepers_cons (pc : Pc) (ts : list Pc) :
  sweepers (pc :: ts) = (if sweeping pc then 1 else 0) + sweepers ts.
Proof. unfold sweepers. cbn [filter]. destruct (sweeping pc); reflexivity. Qed.

Lemma Worker_get_frame (url method payload : string) (w : World) :
  exists o w',
    Part000.Worker_get env self url method payload w = Some (o, w') /\
    busy w' = busy w /\ mainloop w' = mainloop w /\ verify w' = verify w.
Proof.
  unfold Part000.Worker_get, Statement, exec_insert. monad_unfold. cbn.
  repeat (break_match; cbn); do 2 eexists; (split; [reflexivity|]); auto.
Qed.

(** The number of threads inside the sweep is what the flag says. *)
Lemma flag_counts_sweepers (w0 w : World) (ts : list Pc) :
  busy w0 = false ->
  reachable env self (w0, []) (w, ts) ->
  sweepers ts = if busy w then 1 else 0.
Proof.
  intros Hb0 Hr. remember (w0, @nil Pc) as s0 eqn:Hs0.
  remember (w, ts) as s eqn:Hs. revert w ts Hs.
  induction Hr as [|s s' Hr IH Hstep]; intros w ts Hs.
  - subst s0. injection Hs as <- <-. rewrite Hb0. reflexivity.
  - destruct Hstep as [w1 w1' pc pc' before after Hts|w1 ts1
                      |w1 w1' ts1 url method payload r Hw];
      injection Hs as <- <-.
    + specialize (IH _ _ eq_refl).
      rewrite sweepers_app, sweepers_cons in IH |- *.
      apply thread_step_flag in Hts. destruct pc.
      * destruct (busy w1) eqn:Hb; destruct Hts as [-> ->];
          cbn in *; rewrite ?Hb; lia.
      * destruct Hts as [-> ->]. cbn in *. exact IH.
      * destruct Hts as [-> ->]. cbn in *. exact IH.
      * destruct Hts as [-> ->]. cbn in *. destruct (busy w1); lia.
      * contradiction.
    + specialize (IH _ _ eq_refl).
      rewrite sweepers_app, IH. cbn. lia.
    + specialize (IH _ _ eq_refl).
      destruct (Worker_get_frame url method payload w1) as (o & w2 & E & Fb & _).
      rewrite E in Hw. injection Hw as _ <-. rewrite Fb. exact IH.
Qed.

End SingleFlight.

Section PoolSingleFlight.
Variable env : Env.
Variable self : Part001.Protocol.

(** The callback starts a task only when it finds the flag clear, and
    then sets it. *)
Lemma timer_callback_guard (w : World) :
  Part001.timer_callback self w
  = Some (Returns (true, negb (busy w)),
          if busy w
          then set_timer (Some (Part001.retry_when_busy self)) w
          else set_busy true (set_timer (Some (Part001.retry_when_busy self)) w)).
Proof.
  unfold Part001.timer_callback. monad_unfold. cbn.
  destruct (busy w); reflexivity.
Qed.

Lemma worker_catch_returns (e : exn) (w : World) :
  exists msg, worker_catch e w = Some (Returns tt, add_log (Warning, msg) w).
Proof. destruct e; eexists; reflexivity. Qed.

(** A pass of the loop, on any cursor, ends and leaves the flag alone. *)
Lemma send_iteration_frame' (sel : Cursor) (w : World) :
  exists o w',
    Part001.send_iteration env self sel w = Some (o, w') /\ same_frame w w'.
Proof.
  unfold Part001.send_iteration, step_select. monad_unfold.
  cbn -[Part001.send_row].
  destruct (step_fault env (Part001.select self) (queue w));
    cbn -[Part001.send_row].
  { do 2 eexists. split; [reflexivity|repeat split]. }
  destruct (match sel with None => queue w | Some rows => rows end)
    as [|r rest]; cbn -[Part001.send_row].
  { do 2 eexists. split; [reflexivity|repeat split]. }
  destruct (mainloop w); cbn -[Part001.send_row];
    try (do 2 eexists; split; [reflexivity|repeat split]).
  destruct (send_row_outcome' env self r (add_sql (Part001.select self) w))
    as (o & w' & E & F & _).
  rewrite E. destruct o as [[]|e]; do 2 eexists; (split; [reflexivity|exact F]).
Qed.

(** What one step of a task does to the flag. *)
Lemma task_step_flag (pc pc' : TaskPc) (w w' : World) :
  task_step env self pc w = Some (pc', w') ->
  match pc with
  | TaskStart | TaskInLoop _ => running pc' = true /\ busy w' = busy w
  | TaskTail => pc' = TaskDone
  | TaskDone => False
  end.
Proof.
  destruct pc; cbn [task_step].
  - unfold Statement, task_caught. monad_unfold.
    destruct (prepare_fault env (Part001.del self)) as [e|]; monad_unfold.
    { destruct (worker_catch_returns e w) as (msg & ->).
      intros H. injection H as <- <-. auto. }
    destruct (prepare_fault env (Part001.select self)) as [e|]; monad_unfold.
    { destruct (worker_catch_returns e w) as (msg & ->).
      intros H. injection H as <- <-. auto. }
    intros H. injection H as <- <-. auto.
  - destruct (send_iteration_frame' sel w) as (o & w1 & E & F & _).
    rewrite E. destruct o as [[[] c]|e].
    + intros H. injection H as <- <-. auto.
    + intros H. injection H as <- <-. auto.
    + unfold task_caught. destruct (worker_catch_returns e w1) as (msg & ->).
      intros H. injection H as <- <-. auto.
  - destruct (worker_tail env self w) as [[o w1]|]; [|discriminate].
    intros H. injection H as <- _. reflexivity.
  - discriminate.
Qed.

Lemma runners_app (a b : list TaskPc) : runners (a ++ b) = runners a + runners b.
Proof. unfold runners. rewrite filter_app, length_app. reflexivity. Qed.

Lemma runners_cons (pc : TaskPc) (ts : list TaskPc) :
  runners (pc :: ts) = (if running pc then 1 else 0) + runners ts.
Proof. unfold runners. cbn [filter]. destruct (running pc); reflexivity. Qed.

Lemma Worker_get_frame' (url method payload : string) (w : World) :
  exists o w',
    Part001.Worker_get env self url method payload w = Some (o, w') /\
    busy w' = busy w.
Proof.
  unfold Part001.Worker_get, Statement, exec_insert. monad_unfold. cbn.
  repeat (break_match; cbn); do 2 eexists; (split; [reflexivity|]); auto.
Qed.

(** No more tasks are under way than the flag allows. *)
Lemma flag_bounds_runners (w0 w : World) (ts : list TaskPc) :
  busy w0 = false ->
  pool_reachable env self (w0, []) (w, ts) ->
  runners ts <= if busy w then 1 else 0.
Proof.
  intros Hb0 Hr. remember (w0, @nil TaskPc) as s0 eqn:Hs0.
  remember (w, ts) as s eqn:Hs. revert w ts Hs.
  induction Hr as [|s s' Hr IH Hstep]; intros w ts Hs.
  - subst s0. injection Hs as <- <-. cbn. lia.
  - destruct Hstep as [w1 w1' pc pc' before after Hts
                      |w1 w1' ts1 again pushed Htick
                      |w1 w1' ts1 url method payload r Hw];
      injection Hs as <- <-.
    + specialize (IH _ _ eq_refl).
      rewrite runners_app, runners_cons in IH |- *.
      apply task_step_flag in Hts. destruct pc.
      * destruct Hts as [-> ->]. cbn in *. exact IH.
      * destruct Hts as [-> ->]. cbn in *. exact IH.
      * subst pc'. cbn in *. destruct (busy w1), (busy w1'); lia.
      * contradiction.
    + specialize (IH _ _ eq_refl).
      rewrite timer_callback_guard in Htick. injection Htick as _ <- <-.
      destruct (busy w1) eqn:Hb; cbn [negb]; cbn; rewrite ?Hb.
      * exact IH.
      * rewrite runners_app. cbn. lia.
    + specialize (IH _ _ eq_refl).
      destruct (Worker_get_frame' url method payload w1) as (o & w2 & E & Fb).
      rewrite E in Hw. injection Hw as _ <-. rewrite Fb. exact IH.
Qed.

End PoolSingleFlight.

(** C3: single flight, in both sources, from a world with the flag clear.
    First source: in every interleaving of threads calling [send] on one
    protocol object, of attempts arriving and of requests being enqueued,
    the threads inside the sweep are as many as the flag says, so never
    two; a thread that reaches the guard with the flag set leaves [send]
    with the world untouched, the queue unread; the one that finds it
    clear sets it and enters the [try] block. Second source: in every
    interleaving of timer ticks, worker tasks and requests being enqueued,
    at most one task is under way, and only with the flag set; a tick that
    finds the flag set pushes no task and changes nothing but the timer,
    the queue unread; the tick that finds it clear sets it and pushes
    one. *)
Theorem C3_single_flight (env : Env) (w0 : World) :
  busy w0 = false ->
  (forall (self : Part000.Protocol) (w : World) (ts : list Pc),
      reachable env self (w0, []) (w, ts) ->
      sweepers ts <= 1 /\
      sweepers ts = (if busy w then 1 else 0) /\
      thread_step env self AtGuard w
      = Some (if busy w then (Finished, w) else (InTry, set_busy true w))) /\
  (forall (self : Part001.Protocol) (w : World) (ts : list TaskPc),
      pool_reachable env self (w0, []) (w, ts) ->
      runners ts <= 1 /\
      (runners ts = 1 -> busy w = true) /\
      Part001.timer_callback self w
      = Some (Returns (true, negb (busy w)),
              if busy w
              then set_timer (Some (Part001.retry_when_busy self)) w
              else set_busy true
                     (set_timer (Some (Part001.retry_when_busy self)) w))).
Proof.
  intros Hb0. split.
  - intros self w ts Hr.
    pose proof (flag_counts_sweepers env self w0 w ts Hb0 Hr) as H.
    split; [destruct (busy w); lia|]. split; [exact H|].
    cbn [thread_step]. unfold Part000.send_guard. monad_unfold.
    destruct (busy w); reflexivity.
  - intros self w ts Hr.
    pose proof (flag_bounds_runners env self w0 w ts Hb0 Hr) as H.
    split; [destruct (busy w); lia|].
    split; [destruct (busy w); [reflexivity|lia]|].
    apply timer_callback_guard.
Qed.

Lemma C3_single_flight_witness :
  (sweepers [InTry; AtGuard] <= 1 /\
   thread_step (sample_env "") sample_protocol AtGuard
     (set_busy true (sample_world [row_a]))
   = Some (Finished, set_busy true (sample_world [row_a]))) /\
  (runners [TaskInLoop None] <= 1 /\
   Part001.timer_callback sample_protocol'
     (set_busy true (set_timer (Some 5000%Z) (sample_world [row_a])))
   = Some (Returns (true, false),
           set_busy true (set_timer (Some 5000%Z) (sample_world [row_a])))).
Proof.
  destruct (C3_single_flight (sample_env "") (sample_world [row_a]) eq_refl)
    as [H0 H1].
  split.
  - destruct (H0 sample_protocol (set_busy true (sample_world [row_a]))
                [InTry; AtGuard]) as (S1 & _ & S2).
    + eapply reach_step.
      * eapply reach_step.
        -- eapply reach_step; [apply reach_here|].
           apply (step_attempt _ _ (sample_world [row_a]) []).
        -- apply (step_attempt _ _ (sample_world [row_a]) [AtGuard]).
      * apply (step_thread (sample_env "") sample_protocol (sample_world [row_a])
                 (set_busy true (sample_world [row_a])) AtGuard InTry [] [AtGuard]).
        reflexivity.
    + split; [exact S1|exact S2].
  - destruct (H1 sample_protocol'
                (set_busy true (set_timer (Some 5000%Z) (sample_world [row_a])))
                [TaskInLoop None]) as (S1 & _ & S2).
    + eapply pool_next.
      * eapply pool_next; [apply pool_here|].
        apply (pool_tick (sample_env "") sample_protocol' (sample_world [row_a])
                 (set_busy true (set_timer (Some 5000%Z) (sample_world [row_a])))
                 [] true true).
        reflexivity.
      * apply (pool_task (sample_env "") sample_protocol'
                 (set_busy true (set_timer (Some 5000%Z) (sample_world [row_a])))
                 (set_busy true (set_timer (Some 5000%Z) (sample_world [row_a])))
                 TaskStart (TaskInLoop None) [] []).
        reflexivity.
    + split; [exact S1|exact S2].
Defined.

(** ** C5: a request enqueued during a sweep *)

(** C5, as stated, does not hold. The sample sweep starts on a queue of
    two requests; after its first pass another thread enqueues a third.
    Were the sweep to process only what was queued when its select
    statement was first stepped, every transport call it made would be for
    one of those two. It is not so: [select.reset()] ends every pass, the
    next [select.step()] runs the query anew, and the same call of [send]
    goes on to deliver the request just enqueued. *)
Lemma C5_mid_sweep_insert_counterexample :
  ~ (forall w',
       send_with_insert (sample_env "") sample_protocol 1 3
         "http://c.example/" "GET" "" (sample_world [row_a; row_b])
       = Some (Returns tt, w') ->
       forall call, In call (http w') ->
                    In (snd call) (queue (sample_world [row_a; row_b]))).
Proof.
  intros H.
  destruct (send_with_insert (sample_env "") sample_protocol 1 3
              "http://c.example/" "GET" "" (sample_world [row_a; row_b]))
    as [[o w']|] eqn:E; vm_compute in E; [|discriminate].
  injection E as <- <-.
  specialize (H _ eq_refl (Get, mkRow 11 "http://c.example/" "GET" "")).
  cbn in H. destruct H as [H|[H|[]]]; [tauto|discriminate|discriminate].
Qed.

Section MidSweepInsert.
Variable env : Env.
Variable self : Part000.Protocol.
Hypothesis sound : store_sound env (Part000.del self) (Part000.select self).

Lemma ascending_snoc (q : list Row) (r : Row) :
  ascending q = true ->
  forallb (fun x => (row_id x <? row_id r)%Z) q = true ->
  ascending (q ++ [r]) = true.
Proof.
  induction q as [|x q IH]; intros Hasc Hlt; [reflexivity|].
  cbn [app ascending forallb] in *.
  apply andb_true_iff in Hasc as [Hx Hasc].
  apply andb_true_iff in Hlt as [Hxr Hlt].
  rewrite forallb_app, Hx, (IH Hasc Hlt). cbn. rewrite Hxr. reflexivity.
Qed.

Lemma ascending_skipn (k : nat) :
  forall q, ascending q = true -> ascending (skipn k q) = true.
Proof.
  induction k as [|k IH]; intros q H; [exact H|].
  destruct q as [|x q]; [exact H|]. cbn [skipn].
  apply IH. eapply ascending_tail. exact H.
Qed.

Lemma forallb_skipn (f : Row -> bool) (k : nat) :
  forall q, forallb f q = true -> forallb f (skipn k q) = true.
Proof.
  induction k as [|k IH]; intros q H; [exact H|].
  destruct q as [|x q]; [exact H|]. cbn [skipn].
  apply IH. cbn in H. apply andb_true_iff in H. tauto.
Qed.

Lemma Worker_get_inserts (url method payload : string) (w : World) :
  prepare_fault env (expand_env env (Part000.ins self)) = None ->
  (forall q, exec_fault env (expand_env env (Part000.ins self)) q = None) ->
  exists w',
    elsewhere (Part000.Worker_get env self url method payload) w
    = Some (Returns tt, w') /\
    busy w' = busy w /\ mainloop w' = mainloop w /\ verify w' = verify w /\
    http w' = http w /\
    queue w' = queue w ++ [mkRow (last_id w + 1) url method payload].
Proof.
  intros Hp He.
  unfold elsewhere, Part000.Worker_get, Statement, exec_insert. monad_unfold.
  rewrite Hp. cbn. rewrite He. cbn.
  eexists. split; [reflexivity|]. cbn. auto.
Qed.

End MidSweepInsert.

Lemma bind_returns {A B : Type} (m : M A) (k : A -> M B) (w w1 : World) (a : A) :
  m w = Some (Returns a, w1) -> bind m k w = k a w1.
Proof. intros H. unfold bind. rewrite H. reflexivity. Qed.

Lemma passes_is_passes_of (env : Env) (self : Part000.Protocol) (k : nat) :
  forall sel w,
    passes env self k sel w = passes_of (Part000.send_iteration env self) k sel w.
Proof.
  induction k as [|k IH]; intros sel w; [reflexivity|].
  cbn [passes passes_of]. unfold bind.
  destruct (Part000.send_iteration env self sel w) as [[[[[] c]|e] w1]|];
    try reflexivity.
  apply IH.
Qed.

Section MidSweepInsertInGeneral.
Variable env : Env.
Variable iteration : Cursor -> M (Flow * Cursor).

Hypothesis pass_delivers : forall w r rest,
  queue w = r :: rest -> ascending (r :: rest) = true ->
  mainloop w = true -> verify w = true -> delivers env r = true ->
  exists w',
    iteration None w = Some (Returns (Continue, None), w') /\
    same_frame w w' /\ queue w' = rest /\
    map snd (http w') = map snd (http w) ++ [r].

Hypothesis pass_empty : forall w,
  queue w = [] ->
  exists c w',
    iteration None w = Some (Returns (Break, c), w') /\
    same_frame w w' /\ queue w' = [] /\ http w' = http w.

Lemma passes_of_delivers (k : nat) :
  forall (q : list Row) (w : World),
    queue w = q -> ascending q = true ->
    mainloop w = true -> verify w = true ->
    forallb (delivers env) q = true ->
    k <= length q ->
    exists w1,
      passes_of iteration k None w = Some (Returns (Continue, None), w1) /\
      same_frame w w1 /\
      queue w1 = skipn k q /\
      map snd (http w1) = map snd (http w) ++ firstn k q.
Proof.
  induction k as [|k IH]; intros q w Hq Hasc Hml Hvf Hd Hk.
  - exists w. cbn. rewrite app_nil_r.
    split; [reflexivity|]. split; [apply same_frame_refl|]. auto.
  - destruct q as [|r rest]; [cbn in Hk; lia|].
    cbn [forallb] in Hd. apply andb_true_iff in Hd as [Hr Hd].
    destruct (pass_delivers w r rest Hq Hasc Hml Hvf Hr) as (w1 & E & F & Q & T).
    pose proof F as (_ & Fm & Fv & _).
    destruct (IH rest w1 Q (ascending_tail _ _ Hasc) (eq_trans Fm Hml)
                (eq_trans Fv Hvf) Hd ltac:(cbn in Hk; lia))
      as (w2 & E2 & F2 & Q2 & T2).
    exists w2. cbn [passes_of]. unfold bind at 1. rewrite E. cbn [fst snd].
    split; [exact E2|]. split; [eapply same_frame_trans; eassumption|].
    split; [exact Q2|]. rewrite T2, T, <- app_assoc. reflexivity.
Qed.

Lemma passes_of_breaks (k : nat) :
  forall (q : list Row) (w : World),
    queue w = q -> ascending q = true ->
    mainloop w = true -> verify w = true ->
    forallb (delivers env) q = true ->
    length q < k ->
    exists c w1,
      passes_of iteration k None w = Some (Returns (Break, c), w1) /\
      same_frame w w1 /\
      queue w1 = [] /\
      map snd (http w1) = map snd (http w) ++ q.
Proof.
  induction k as [|k IH]; intros q w Hq Hasc Hml Hvf Hd Hk; [lia|].
  destruct q as [|r rest].
  - destruct (pass_empty w Hq) as (c & w1 & E & F & Q & T).
    exists c, w1. cbn [passes_of]. unfold bind. rewrite E. cbn.
    split; [reflexivity|]. split; [exact F|]. split; [exact Q|].
    rewrite T, app_nil_r. reflexivity.
  - cbn [forallb] in Hd. apply andb_true_iff in Hd as [Hr Hd].
    destruct (pass_delivers w r rest Hq Hasc Hml Hvf Hr) as (w1 & E & F & Q & T).
    pose proof F as (_ & Fm & Fv & _).
    destruct (IH rest w1 Q (ascending_tail _ _ Hasc) (eq_trans Fm Hml)
                (eq_trans Fv Hvf) Hd ltac:(cbn in Hk; lia))
      as (c & w2 & E2 & F2 & Q2 & T2).
    exists c, w2. cbn [passes_of]. unfold bind at 1. rewrite E. cbn [fst snd].
    split; [exact E2|]. split; [eapply same_frame_trans; eassumption|].
    split; [exact Q2|]. rewrite T2, T, <- app_assoc. reflexivity.
Qed.

(** The insert of the other thread, as far as the loop is concerned. *)
Variable insert : M unit.
Variable new : Row.
Variable last : Z.

Hypothesis insert_appends : forall w1,
  last_id w1 = last ->
  exists w2,
    insert w1 = Some (Returns tt, w2) /\
    busy w2 = busy w1 /\ mainloop w2 = mainloop w1 /\ verify w2 = verify w1 /\
    http w2 = http w1 /\ queue w2 = queue w1 ++ [new].

Lemma loop_with_insert_sees (k fuel : nat) (w : World) :
  last_id w = last ->
  ascending (queue w) = true ->
  mainloop w = true -> verify w = true ->
  forallb (fun r => (row_id r <? row_id new)%Z) (queue w) = true ->
  forallb (delivers env) (queue w) = true ->
  delivers env new = true ->
  k <= length (queue w) ->
  length (queue w) + 1 - k < fuel ->
  exists w',
    loop_with_insert iteration insert k fuel w = Some (Returns tt, w') /\
    busy w' = busy w /\ mainloop w' = true /\ verify w' = true /\
    queue w' = [] /\
    map snd (http w') = map snd (http w) ++ queue w ++ [new].
Proof.
  intros Hl Hasc Hml Hvf Hids Hd Hnew Hk Hfuel.
  destruct (passes_of_delivers k (queue w) w eq_refl Hasc Hml Hvf Hd Hk)
    as (w1 & E1 & F1 & Q1 & T1).
  destruct F1 as (Fb & Fm & Fv & Fl & _).
  destruct (insert_appends w1 (eq_trans Fl Hl)) as (w2 & E2 & Gb & Gm & Gv & Gh & Q2).
  rewrite Q1 in Q2.
  destruct (while_rows_delivers env iteration pass_delivers pass_empty
              (skipn k (queue w) ++ [new]) fuel w2 Q2)
    as (w3 & E3 & F3 & Q3 & T3); try congruence.
  - apply ascending_snoc; [apply ascending_skipn; exact Hasc|].
    apply forallb_skipn. exact Hids.
  - rewrite forallb_app, (forallb_skipn _ _ _ Hd). cbn. rewrite Hnew. reflexivity.
  - rewrite length_app, length_skipn. cbn. lia.
  - exists w3. unfold loop_with_insert. unfold bind at 1. rewrite E1.
    unfold bind at 1. rewrite E2. cbn [fst snd].
    destruct F3 as (Hb3 & Hm3 & Hv3 & _).
    split; [exact E3|]. split; [congruence|]. split; [congruence|].
    split; [congruence|]. split; [exact Q3|].
    rewrite T3, Gh, T1, <- app_assoc, (app_assoc (firstn k (queue w))),
      firstn_skipn. reflexivity.
Qed.

Lemma loop_with_insert_misses (k fuel : nat) (w : World) :
  last_id w = last ->
  ascending (queue w) = true ->
  mainloop w = true -> verify w = true ->
  forallb (delivers env) (queue w) = true ->
  length (queue w) < k ->
  exists w',
    loop_with_insert iteration insert k fuel w = Some (Returns tt, w') /\
    busy w' = busy w /\ mainloop w' = true /\ verify w' = true /\
    queue w' = [new] /\
    map snd (http w') = map snd (http w) ++ queue w.
Proof.
  intros Hl Hasc Hml Hvf Hd Hk.
  destruct (passes_of_breaks k (queue w) w eq_refl Hasc Hml Hvf Hd Hk)
    as (c & w1 & E1 & F1 & Q1 & T1).
  destruct F1 as (Fb & Fm & Fv & Fl & _).
  destruct (insert_appends w1 (eq_trans Fl Hl)) as (w2 & E2 & Gb & Gm & Gv & Gh & Q2).
  rewrite Q1 in Q2.
  exists w2. unfold loop_with_insert. unfold bind at 1. rewrite E1.
  unfold bind at 1. rewrite E2. cbn [fst snd].
  split; [reflexivity|]. split; [congruence|]. split; [congruence|].
  split; [congruence|]. split; [exact Q2|]. rewrite Gh. exact T1.
Qed.

End MidSweepInsertInGeneral.

Lemma Worker_get_inserts' (env : Env) (self : Part001.Protocol)
  (url method payload : string) (w : World) :
  prepare_fault env (expand_env env (Part001.ins self)) = None ->
  (forall q, exec_fault env (expand_env env (Part001.ins self)) q = None) ->
  exists w',
    elsewhere (Part001.Worker_get env self url method payload) w
    = Some (Returns tt, w') /\
    busy w' = busy w /\ mainloop w' = mainloop w /\ verify w' = verify w /\
    http w' = http w /\
    queue w' = queue w ++ [mkRow (last_id w + 1) url method payload].
Proof.
  intros Hp He.
  unfold elsewhere, Part001.Worker_get, Statement, exec_insert. monad_unfold.
  rewrite Hp. cbn. rewrite He. cbn.
  eexists. split; [reflexivity|]. cbn. auto.
Qed.

(** C5, amended: a sweep resets and re-runs its select statement after
    every request, so what it processes is what each [select.step()]
    finds, not what was queued at the first one. On an ascending queue
    whose requests all deliver, in both sources: a deliverable request
    inserted by another thread after any pass of the loop, before the
    [select.step()] that finds the queue empty, is delivered by the sweep
    in progress, after the requests that were queued; a request inserted
    after that last step is not seen by the sweep, stays queued, and is
    delivered by the next sweep. *)
Theorem C5_mid_sweep_insert (env : Env) (w : World) (url method payload : string) :
  busy w = false -> mainloop w = true -> verify w = true ->
  ascending (queue w) = true ->
  forallb (fun r => (row_id r <=? last_id w)%Z) (queue w) = true ->
  forallb (delivers env) (queue w) = true ->
  delivers env (mkRow (last_id w + 1) url method payload) = true ->
  (forall self,
      store_sound env (Part000.del self) (Part000.select self) ->
      prepare_fault env (expand_env env (Part000.ins self)) = None ->
      (forall q, exec_fault env (expand_env env (Part000.ins self)) q = None) ->
      insert_mid_sweep
        (fun k fuel => send_with_insert env self k fuel url method payload)
        (Part000.send env self) w (mkRow (last_id w + 1) url method payload)) /\
  (forall self,
      store_sound env (Part001.del self) (Part001.select self) ->
      prepare_fault env (expand_env env (Part001.ins self)) = None ->
      (forall q, exec_fault env (expand_env env (Part001.ins self)) q = None) ->
      insert_mid_sweep
        (fun k fuel => worker_sweep_with_insert env self k fuel url method payload)
        (Part001.worker_sweep env self) w (mkRow (last_id w + 1) url method payload)).
Proof.
  intros Hb Hml Hvf Hasc Hids Hd Hnew.
  set (new := mkRow (last_id w + 1) url method payload) in *.
  assert (Hlt : forallb (fun r => (row_id r <? row_id new)%Z) (queue w) = true).
  { rewrite forallb_forall in Hids |- *. intros x Hx.
    specialize (Hids x Hx). subst new. cbn. lia. }
  split; intros self Hs Hp He.
  - assert (Hins : forall w1, last_id w1 = last_id w ->
               exists w2,
                 elsewhere (Part000.Worker_get env self url method payload) w1
                 = Some (Returns tt, w2) /\
                 busy w2 = busy w1 /\ mainloop w2 = mainloop w1 /\
                 verify w2 = verify w1 /\ http w2 = http w1 /\
                 queue w2 = queue w1 ++ [new]).
    { intros w1 Hl.
      destruct (Worker_get_inserts env self url method payload w1 Hp He)
        as (w2 & E & H). exists w2. rewrite Hl in H. split; [exact E|exact H]. }
    assert (Hbody : forall k fuel w1,
               loop_with_insert (Part000.send_iteration env self)
                 (elsewhere (Part000.Worker_get env self url method payload))
                 k fuel (set_busy true w) = Some (Returns tt, w1) ->
               send_with_insert env self k fuel url method payload w
               = Some (Returns tt, set_busy false w1)).
    { intros k fuel w1 E. destruct Hs as (Hp1 & Hp2 & _).
      unfold send_with_insert.
      rewrite (bind_returns _ _ w (set_busy true w) true)
        by (unfold Part000.send_guard, bind, gets; rewrite Hb; reflexivity).
      cbn beta iota.
      match goal with
      | |- context [try_catch ?b _] =>
          assert (B : b (set_busy true w) = Some (Returns tt, w1))
      end.
      { rewrite (bind_returns _ _ _ (set_busy true w) tt)
          by (unfold Statement; rewrite Hp1; reflexivity).
        rewrite (bind_returns _ _ _ (set_busy true w) tt)
          by (unfold Statement; rewrite Hp2; reflexivity).
        unfold loop_with_insert in E. unfold bind at 1 in E.
        unfold bind at 1. rewrite passes_is_passes_of. exact E. }
      rewrite (bind_returns _ _ _ w1 tt)
        by (unfold try_catch; rewrite B; reflexivity).
      reflexivity. }
    split.
    + intros k fuel Hk Hfuel.
      destruct (loop_with_insert_sees env (Part000.send_iteration env self)
                  (fun w r rest => send_iteration_delivers env self w r rest Hs)
                  (fun w Hq => send_iteration_empty env self w Hq Hs)
                  _ new (last_id w) Hins k fuel (set_busy true w)
                  eq_refl Hasc Hml Hvf Hlt Hd Hnew Hk Hfuel)
        as (w' & E & _ & _ & _ & Q & T).
      exists (set_busy false w'). split; [|split; [exact Q|exact T]].
      apply Hbody. exact E.
    + intros k fuel Hk.
      destruct (loop_with_insert_misses env (Part000.send_iteration env self)
                  (fun w r rest => send_iteration_delivers env self w r rest Hs)
                  (fun w Hq => send_iteration_empty env self w Hq Hs)
                  _ new (last_id w) Hins k fuel (set_busy true w)
                  eq_refl Hasc Hml Hvf Hd Hk)
        as (w' & E & _ & Fm & Fv & Q & T).
      destruct (send_delivers env self (set_busy false w') Hs)
        as (w'' & E2 & _ & Q2 & T2); cbn; try assumption; try reflexivity.
      { rewrite Q. reflexivity. }
      { rewrite Q. cbn. rewrite Hnew. reflexivity. }
      exists (set_busy false w'), w''.
      split; [apply Hbody; exact E|].
      split; [exact Q|]. split; [exact T|]. split; [exact E2|].
      split; [exact Q2|]. cbn in T2. rewrite Q in T2. exact T2.
  - assert (Hins : forall w1, last_id w1 = last_id w ->
               exists w2,
                 elsewhere (Part001.Worker_get env self url method payload) w1
                 = Some (Returns tt, w2) /\
                 busy w2 = busy w1 /\ mainloop w2 = mainloop w1 /\
                 verify w2 = verify w1 /\ http w2 = http w1 /\
                 queue w2 = queue w1 ++ [new]).
    { intros w1 Hl.
      destruct (Worker_get_inserts' env self url method payload w1 Hp He)
        as (w2 & E & H). exists w2. rewrite Hl in H. split; [exact E|exact H]. }
    assert (Hbody : forall k fuel w1,
               loop_with_insert (Part001.send_iteration env self)
                 (elsewhere (Part001.Worker_get env self url method payload))
                 k fuel w = Some (Returns tt, w1) ->
               worker_sweep_with_insert env self k fuel url method payload w
               = Some (Returns tt, w1)).
    { intros k fuel w1 E. destruct Hs as (Hp1 & Hp2 & _).
      unfold worker_sweep_with_insert.
      match goal with
      | |- context [try_catch ?b _] =>
          assert (B : b w = Some (Returns tt, w1))
      end.
      { rewrite (bind_returns _ _ _ w tt)
          by (unfold Statement; rewrite Hp1; reflexivity).
        rewrite (bind_returns _ _ _ w tt)
          by (unfold Statement; rewrite Hp2; reflexivity).
        exact E. }
      unfold try_catch. rewrite B. reflexivity. }
    split.
    + intros k fuel Hk Hfuel.
      destruct (loop_with_insert_sees env (Part001.send_iteration env self)
                  (fun w r rest => send_iteration_delivers' env self w r rest Hs)
                  (fun w Hq => send_iteration_empty' env self w Hq Hs)
                  _ new (last_id w) Hins k fuel w
                  eq_refl Hasc Hml Hvf Hlt Hd Hnew Hk Hfuel)
        as (w' & E & _ & _ & _ & Q & T).
      exists w'. split; [apply Hbody; exact E|]. split; [exact Q|exact T].
    + intros k fuel Hk.
      destruct (loop_with_insert_misses env (Part001.send_iteration env self)
                  (fun w r rest => send_iteration_delivers' env self w r rest Hs)
                  (fun w Hq => send_iteration_empty' env self w Hq Hs)
                  _ new (last_id w) Hins k fuel w
                  eq_refl Hasc Hml Hvf Hd Hk)
        as (w' & E & _ & Fm & Fv & Q & T).
      destruct (worker_sweep_delivers env self w' Hs)
        as (w'' & E2 & _ & Q2 & T2); try assumption.
      { rewrite Q. reflexivity. }
      { rewrite Q. cbn. rewrite Hnew. reflexivity. }
      exists w', w''.
      split; [apply Hbody; exact E|].
      split; [exact Q|]. split; [exact T|]. split; [exact E2|].
      split; [exact Q2|]. rewrite Q in T2. exact T2.
Qed.

Lemma C5_mid_sweep_insert_witness :
  (exists w',
      send_with_insert (sample_env "") sample_protocol 1 3
        "http://c.example/" "GET" "" (sample_world [row_a; row_b])
      = Some (Returns tt, w') /\
      map snd (http w') = [row_a; row_b; mkRow 11 "http://c.example/" "GET" ""]) /\
  (exists w',
      send_with_insert (sample_env "") sample_protocol 3 3
        "http://c.example/" "GET" "" (sample_world [row_a; row_b])
      = Some (Returns tt, w') /\
      queue w' = [mkRow 11 "http://c.example/" "GET" ""] /\
      map snd (http w') = [row_a; row_b]).
Proof.
  destruct (C5_mid_sweep_insert (sample_env "") (sample_world [row_a; row_b])
              "http://c.example/" "GET" ""
              eq_refl eq_refl eq_refl eq_refl eq_refl eq_refl eq_refl) as [H _].
  destruct (H sample_protocol (sample_store_sound _ _ _) eq_refl (fun _ => eq_refl))
    as [Hsees Hmisses].
  split.
  - destruct (Hsees 1 3 ltac:(cbn; lia) ltac:(cbn; lia)) as (w' & E & _ & T).
    exists w'. split; [exact E|exact T].
  - destruct (Hmisses 3 3 ltac:(cbn; lia)) as (w' & w'' & E & Q & T & _).
    exists w'. split; [exact E|]. split; [exact Q|exact T].
Defined.

(** ** The thread steps are [send]

    A thread followed alone through its steps does what [send] does in
    one piece: the interleavings above cut the very code of [send]. *)

Section ThreadsAreSend.
Variable env : Env.
Variable self : Part000.Protocol.

Lemma run_thread_loop (fuel : nat) :
  forall sel w o w1,
    while_rows (Part000.send_iteration env self) fuel sel w = Some (o, w1) ->
    exists n,
      run_thread env self n (InLoop sel) w
      = Some (set_busy false
                match o with
                | Returns _ => w1
                | Throws e => add_log (send_warning e) w1
                end).
Proof.
  induction fuel as [|fuel IH]; intros sel w o w1 H; [discriminate|].
  cbn [while_rows] in H. unfold bind in H.
  destruct (Part000.send_iteration env self sel w) as [[[[[] c]|e] w2]|] eqn:E;
    try discriminate; cbn [fst snd] in H.
  - destruct (IH _ _ _ _ H) as (n & Hn).
    exists (S n). cbn [run_thread thread_step]. rewrite E. exact Hn.
  - injection H as <- <-. exists 2. cbn [run_thread thread_step]. rewrite E.
    reflexivity.
  - injection H as <- <-. exists 2. cbn [run_thread thread_step]. rewrite E.
    unfold caught. rewrite send_catch_returns. reflexivity.
Qed.

Lemma thread_alone_is_send (w : World) :
  exists n w',
    run_thread env self n AtGuard w = Some w' /\
    Part000.send env self w = Some (Returns tt, w').
Proof.
  destruct (send_characterised env self w) as (w' & E & C).
  destruct (busy w) eqn:Hb.
  { subst w'. exists 1, w. split; [|exact E].
    cbn [run_thread thread_step]. unfold Part000.send_guard. monad_unfold.
    rewrite Hb. reflexivity. }
  assert (G : thread_step env self AtGuard w = Some (InTry, set_busy true w)).
  { cbn [thread_step]. unfold Part000.send_guard. monad_unfold.
    rewrite Hb. reflexivity. }
  unfold Part000.send_body, Statement in C. monad_unfold.
  destruct (prepare_fault env (Part000.del self)) as [e|] eqn:P1.
  { monad_unfold. subst w'. exists 3. eexists. split; [|exact E].
    cbn [run_thread]. rewrite G. cbn [thread_step]. unfold Statement.
    monad_unfold. rewrite P1. monad_unfold. unfold caught.
    rewrite send_catch_returns. reflexivity. }
  destruct (prepare_fault env (Part000.select self)) as [e|] eqn:P2.
  { monad_unfold. subst w'. exists 3. eexists. split; [|exact E].
    cbn [run_thread]. rewrite G. cbn [thread_step]. unfold Statement.
    monad_unfold. rewrite P1. monad_unfold. rewrite P2. monad_unfold.
    unfold caught. rewrite send_catch_returns. reflexivity. }
  monad_unfold.
  destruct (while_rows (Part000.send_iteration env self)
              (S (length (queue w))) None (set_busy true w))
    as [[o w1]|] eqn:L; [|contradiction].
  destruct (run_thread_loop _ _ _ _ _ L) as (n & Hn).
  exists (S (S n)), w'. split; [|exact E].
  cbn [run_thread]. rewrite G. cbn [thread_step]. unfold Statement.
  monad_unfold. rewrite P1. monad_unfold. rewrite P2. monad_unfold.
  unfold caught. rewrite Hn. destruct o as [[]|e]; subst w'; reflexivity.
Qed.

End ThreadsAreSend.

(** ** The worker task and the timer callback of the second source *)

Section Part001Task.
Variable env : Env.
Variable self : Part001.Protocol.

Lemma worker_sweep_returns (w : World) :
  exists w', Part001.worker_sweep env self w = Some (Returns tt, w') /\
             busy w' = busy w.
Proof.
  destruct (send_outcome' env self w) as (o & w1 & E & Fb & _).
  unfold Part001.worker_sweep, try_catch. rewrite E.
  destruct o as [[]|[what|]]; eexists; (split; [reflexivity|exact Fb]).
Qed.

(** With nothing to publish, the task ends with the flag clear whatever
    [send] threw. *)
Lemma worker_task_clears_flag (w : World) :
  (Part001.retry_notify self && configured (Part001.pending self)
   && systemservice env)%bool = false ->
  exists w', Part001.worker_task env self w = Some (Returns tt, w') /\
             busy w' = false.
Proof.
  intros Hn. unfold Part001.worker_task.
  destruct (worker_sweep_returns w) as (w1 & E & _).
  unfold bind at 1. rewrite E.
  destruct (Part001.retry_notify self && configured (Part001.pending self))%bool;
    cbn [andb] in Hn; [rewrite Hn|]; monad_unfold;
    eexists; split; reflexivity.
Qed.

(** The count of the status publication is outside the [try] statement:
    when it throws, the exception leaves the task and the flag stays as
    the callback set it. *)
Lemma worker_task_count_throws (w : World) (text : string) (e : exn) :
  Part001.retry_notify self = true ->
  systemservice env = true ->
  Part001.pending self = Some text ->
  configured (Some text) = true ->
  prepare_fault env text = Some e ->
  exists w', Part001.worker_task env self w = Some (Throws e, w') /\
             busy w' = busy w.
Proof.
  intros Hn Hs Hp Hc Hf. unfold Part001.worker_task.
  destruct (worker_sweep_returns w) as (w1 & E & Fb).
  unfold bind at 1. rewrite E.
  unfold Part001.count, Statement. rewrite Hn, Hs, Hp, Hc, Hf.
  monad_unfold. cbn. eexists. split; [reflexivity|]. cbn. exact Fb.
Qed.

End Part001Task.

(** ** The fuel of [send] is enough *)

(** Any fuel above the number of queued rows gives the run [send] is
    defined by. *)
Lemma send_fuel_irrelevant (env : Env) (self : Part000.Protocol)
  (fuel : nat) (w : World) :
  length (queue w) < fuel ->
  Part000.send_fuel env self fuel w = Part000.send env self w.
Proof.
  intros Hlen.
  assert (B : Part000.send_body env self fuel (set_busy true w)
              = Part000.send_body env self (S (length (queue w))) (set_busy true w)).
  { unfold Part000.send_body, Statement. monad_unfold.
    destruct (prepare_fault env (Part000.del self)); [reflexivity|].
    destruct (prepare_fault env (Part000.select self)); [reflexivity|].
    apply (while_rows_fuel _ (send_iteration_shrinking env self)); cbn; lia. }
  unfold Part000.send, Part000.send_fuel, Part000.send_guard, bind, gets.
  destruct (busy w); [reflexivity|].
  unfold modify, ret, try_catch. rewrite B. reflexivity.
Qed.

Lemma send_fuel_irrelevant' (env : Env) (self : Part001.Protocol)
  (fuel : nat) (w : World) :
  length (queue w) < fuel ->
  Part001.send_fuel env self fuel w = Part001.send env self w.
Proof.
  intros Hlen. unfold Part001.send, Part001.send_fuel, Statement. monad_unfold.
  destruct (prepare_fault env (Part001.del self)); [reflexivity|].
  destruct (prepare_fault env (Part001.select self)); [reflexivity|].
  apply (while_rows_fuel _ (send_iteration_shrinking' env self)); lia.
Qed.

(** ** The scenario of the specification

    Two requests enqueued through the worker, a GET and a POST; one sweep
    with a transport that answers the first and refuses the second: the
    queue then holds the second request alone and the count is 1. *)
Example scenario_one_left :
  exists w1 w2 w3 pushed1 pushed2,
    Part000.Worker_get (sample_env "http://example.test/b") sample_protocol
      "http://example.test/a" "GET" "" (sample_world [])
    = Some (Returns pushed1, w1) /\
    Part000.Worker_get (sample_env "http://example.test/b") sample_protocol
      "http://example.test/b" "POST" "x=1" w1
    = Some (Returns pushed2, w2) /\
    Part000.send (sample_env "http://example.test/b") sample_protocol w2
    = Some (Returns tt, w3) /\
    queue w3 = [mkRow 12 "http://example.test/b" "POST" "x=1"] /\
    map snd (http w3)
    = [mkRow 11 "http://example.test/a" "GET" "";
       mkRow 12 "http://example.test/b" "POST" "x=1"] /\
    option_map fst (Part000.count (sample_env "http://example.test/b") sample_protocol w3)
    = Some (Returns 1%Z).
Proof.
  do 5 eexists.
  split; [vm_compute; reflexivity|].
  split; [vm_compute; reflexivity|].
  split; [vm_compute; reflexivity|].
  split; [reflexivity|]. split; [reflexivity|].
  vm_compute. reflexivity.
Qed.

(** * Further properties of the code *)

(** ** What a sweep can do to the queue, whatever fails *)

Ltac row_account unfolding :=
  unfolding; unfold exec_delete; monad_unfold; cbn;
  repeat (break_match; cbn);
  do 2 eexists; (split; [reflexivity|]); cbn;
  (split; [first [left; reflexivity | right; eexists; reflexivity]|]);
  reflexivity.

Lemma send_row_account (env : Env) (self : Part000.Protocol) (r : Row) (w : World) :
  exists o w',
    Part000.send_row env self r w = Some (o, w') /\
    (http w' = http w \/ exists m, http w' = http w ++ [(m, r)]) /\
    match o with
    | Returns _ =>
        queue w' = filter (fun x => negb (row_id x =? row_id r)%Z) (queue w)
    | Throws _ => queue w' = queue w
    end.
Proof. row_account ltac:(unfold Part000.send_row). Qed.

Lemma send_row_account' (env : Env) (self : Part001.Protocol) (r : Row) (w : World) :
  exists o w',
    Part001.send_row env self r w = Some (o, w') /\
    (http w' = http w \/ exists m, http w' = http w ++ [(m, r)]) /\
    match o with
    | Returns _ =>
        queue w' = filter (fun x => negb (row_id x =? row_id r)%Z) (queue w)
    | Throws _ => queue w' = queue w
    end.
Proof. row_account ltac:(unfold Part001.send_row). Qed.

Lemma send_iteration_accounted (env : Env) (self : Part000.Protocol) :
  accounted (Part000.send_iteration env self).
Proof.
  intros w. unfold Part000.send_iteration, step_select. monad_unfold.
  cbn -[Part000.send_row].
  destruct (step_fault env (Part000.select self) (queue w));
    cbn -[Part000.send_row].
  { do 2 eexists. split; [reflexivity|]. split; [left; reflexivity|reflexivity]. }
  destruct (queue w) as [|r rest] eqn:Hq; cbn -[Part000.send_row].
  { do 2 eexists. split; [reflexivity|]. split; [left; reflexivity|]. cbn. exact Hq. }
  destruct (mainloop w); cbn -[Part000.send_row];
    [destruct (verify w); cbn -[Part000.send_row]|];
    try (do 2 eexists; split; [reflexivity|]; split; [left; reflexivity|];
         cbn; exact Hq).
  destruct (send_row_account env self r (add_sql (Part000.select self) w))
    as (o & w' & E & H & Q).
  rewrite E. cbn in H, Q. rewrite Hq in Q.
  assert (H' : http w' = http w \/
               exists m r0 rest0, r :: rest = r0 :: rest0 /\ http w' = http w ++ [(m, r0)]).
  { destruct H as [H|[m H]]; [left; exact H|right; exists m, r, rest; auto]. }
  destruct o as [[]|e]; do 2 eexists; (split; [reflexivity|]); (split; [exact H'|]).
  - exists r, rest. auto.
  - exact Q.
Qed.

Lemma send_iteration_accounted' (env : Env) (self : Part001.Protocol) :
  accounted (Part001.send_iteration env self).
Proof.
  intros w. unfold Part001.send_iteration, step_select. monad_unfold.
  cbn -[Part001.send_row].
  destruct (step_fault env (Part001.select self) (queue w));
    cbn -[Part001.send_row].
  { do 2 eexists. split; [reflexivity|]. split; [left; reflexivity|reflexivity]. }
  destruct (queue w) as [|r rest] eqn:Hq; cbn -[Part001.send_row].
  { do 2 eexists. split; [reflexivity|]. split; [left; reflexivity|]. cbn. exact Hq. }
  destruct (mainloop w); cbn -[Part001.send_row];
    try (do 2 eexists; split; [reflexivity|]; split; [left; reflexivity|];
         cbn; exact Hq).
  destruct (send_row_account' env self r (add_sql (Part001.select self) w))
    as (o & w' & E & H & Q).
  rewrite E. cbn in H, Q. rewrite Hq in Q.
  assert (H' : http w' = http w \/
               exists m r0 rest0, r :: rest = r0 :: rest0 /\ http w' = http w ++ [(m, r0)]).
  { destruct H as [H|[m H]]; [left; exact H|right; exists m, r, rest; auto]. }
  destruct o as [[]|e]; do 2 eexists; (split; [reflexivity|]); (split; [exact H'|]).
  - exists r, rest. auto.
  - exact Q.
Qed.

Lemma only_removes_refl (w : World) : only_removes w w.
Proof.
  repeat split; [apply incl_refl|auto|lia].
Qed.

Section AccountedLoop.
Variable iteration : Cursor -> M (Flow * Cursor).
Hypothesis iteration_shrinking : shrinking iteration.
Hypothesis iteration_accounted : accounted iteration.

Lemma while_rows_only_removes (fuel : nat) :
  forall w o w',
    while_rows iteration fuel None w = Some (o, w') -> only_removes w w'.
Proof.
  induction fuel as [|fuel IH]; intros w o w' H; [discriminate|].
  cbn [while_rows] in H. unfold bind in H.
  destruct (iteration_shrinking w) as (o1 & w1 & E & F & S1).
  destruct (iteration_accounted w) as (o2 & w2 & E2 & Hh & Hq).
  rewrite E in E2. injection E2 as <- <-. rewrite E in H.
  destruct F as (_ & _ & _ & Fl & _).
  destruct o1 as [[[] c]|e]; cbn [fst snd] in H.
  - destruct S1 as [-> Hlen]. destruct Hq as (r & rest & Hw & Hw1).
    destruct (IH _ _ _ H) as (I1 & I2 & I3 & I4).
    assert (Hincl : incl (queue w1) (queue w)).
    { rewrite Hw1. intros x Hx. apply filter_In in Hx. tauto. }
    split; [eapply incl_tran; eassumption|].
    split; [congruence|]. split.
    + intros call Hc. destruct (I3 call Hc) as [Hc1|Hc1].
      * destruct Hh as [Hh|(m & r0 & rest0 & Hw0 & Hh)].
        { left. rewrite <- Hh. exact Hc1. }
        rewrite Hh in Hc1. apply in_app_or in Hc1 as [Hc1|[<-|[]]]; [auto|].
        right. cbn. rewrite Hw0. left. reflexivity.
      * right. apply Hincl. exact Hc1.
    + assert (length (http w1) <= length (http w) + 1).
      { destruct Hh as [Hh|(m & r0 & rest0 & _ & Hh)]; rewrite Hh;
          [lia|rewrite length_app; cbn; lia]. }
      lia.
  - injection H as <- <-. unfold only_removes. rewrite Hq.
    split; [apply incl_refl|]. split; [exact Fl|]. split.
    + intros call Hc. destruct Hh as [Hh|(m & r0 & rest0 & Hw0 & Hh)].
      { left. rewrite <- Hh. exact Hc. }
      rewrite Hh in Hc. apply in_app_or in Hc as [Hc|[<-|[]]]; [auto|].
      right. cbn. rewrite Hw0. left. reflexivity.
    + destruct Hh as [Hh|(m & r0 & rest0 & Hw0 & Hh)]; rewrite Hh;
        [lia|rewrite length_app, Hw0; cbn; lia].
  - injection H as <- <-. unfold only_removes. rewrite Hq.
    split; [apply incl_refl|]. split; [exact Fl|]. split.
    + intros call Hc. destruct Hh as [Hh|(m & r0 & rest0 & Hw0 & Hh)].
      { left. rewrite <- Hh. exact Hc. }
      rewrite Hh in Hc. apply in_app_or in Hc as [Hc|[<-|[]]]; [auto|].
      right. cbn. rewrite Hw0. left. reflexivity.
    + destruct Hh as [Hh|(m & r0 & rest0 & Hw0 & Hh)]; rewrite Hh;
        [lia|rewrite length_app, Hw0; cbn; lia].
Qed.

End AccountedLoop.

Lemma send_only_removes (env : Env) (self : Part000.Protocol) (w : World) :
  exists w', Part000.send env self w = Some (Returns tt, w') /\ only_removes w w'.
Proof.
  destruct (send_characterised env self w) as (w' & E & C).
  exists w'. split; [exact E|].
  destruct (busy w); [subst w'; apply only_removes_refl|].
  assert (B : forall o w1,
             Part000.send_body env self (S (length (queue w))) (set_busy true w)
             = Some (o, w1) -> only_removes w w1).
  { intros o w1. unfold Part000.send_body, Statement. monad_unfold.
    destruct (prepare_fault env (Part000.del self)).
    { intros H. injection H as <- <-. exact (only_removes_refl (set_busy true w)). }
    destruct (prepare_fault env (Part000.select self)).
    { intros H. injection H as <- <-. exact (only_removes_refl (set_busy true w)). }
    intros H.
    apply (while_rows_only_removes _ (send_iteration_shrinking env self)
             (send_iteration_accounted env self)) in H. exact H. }
  destruct (Part000.send_body env self (S (length (queue w))) (set_busy true w))
    as [[[[]|e] w1]|]; [| |contradiction];
    subst w'; specialize (B _ _ eq_refl); exact B.
Qed.

Lemma worker_sweep_only_removes (env : Env) (self : Part001.Protocol) (w : World) :
  exists w', Part001.worker_sweep env self w = Some (Returns tt, w') /\
             only_removes w w'.
Proof.
  assert (B : forall o w1, Part001.send env self w = Some (o, w1) -> only_removes w w1).
  { intros o w1. unfold Part001.send, Part001.send_fuel, Statement. monad_unfold.
    destruct (prepare_fault env (Part001.del self)).
    { intros H. injection H as <- <-. apply only_removes_refl. }
    destruct (prepare_fault env (Part001.select self)).
    { intros H. injection H as <- <-. apply only_removes_refl. }
    intros H.
    apply (while_rows_only_removes _ (send_iteration_shrinking' env self)
             (send_iteration_accounted' env self)) in H. exact H. }
  destruct (send_outcome' env self w) as (o & w1 & E & _).
  specialize (B _ _ E). unfold Part001.worker_sweep, try_catch. rewrite E.
  destruct o as [[]|[what|]]; eexists; (split; [reflexivity|]); exact B.
Qed.

(** X1: first in, first out. On a queue in ascending ids whose requests
    all deliver, with the store sound and the main loop running, one
    sweep calls the transport on every queued request, in queue order, and
    leaves the queue empty; for [send] of the first source and for the
    guarded [send] of the worker task of the second. *)
Theorem X1_fifo_delivery (env : Env) (w : World) :
  ascending (queue w) = true ->
  busy w = false -> mainloop w = true -> verify w = true ->
  forallb (delivers env) (queue w) = true ->
  (forall self,
      store_sound env (Part000.del self) (Part000.select self) ->
      exists w',
        Part000.send env self w = Some (Returns tt, w') /\
        queue w' = [] /\ busy w' = false /\
        map snd (http w') = map snd (http w) ++ queue w) /\
  (forall self,
      store_sound env (Part001.del self) (Part001.select self) ->
      exists w',
        Part001.worker_sweep env self w = Some (Returns tt, w') /\
        queue w' = [] /\
        map snd (http w') = map snd (http w) ++ queue w).
Proof.
  intros Hasc Hb Hml Hvf Hd. split; intros self Hs.
  - destruct (send_delivers env self w Hs Hasc Hb Hml Hvf Hd)
      as (w' & E & (Fb & _) & Q & T).
    exists w'. repeat split; try assumption. congruence.
  - destruct (worker_sweep_delivers env self w Hs Hasc Hml Hvf Hd)
      as (w' & E & _ & Q & T).
    exists w'. repeat split; assumption.
Qed.

Lemma X1_fifo_delivery_witness :
  exists w',
    Part000.send (sample_env "") sample_protocol (sample_world [row_a; row_b; row_c])
    = Some (Returns tt, w') /\
    queue w' = [] /\
    map snd (http w') = [row_a; row_b; row_c].
Proof.
  destruct (X1_fifo_delivery (sample_env "") (sample_world [row_a; row_b; row_c])
              eq_refl eq_refl eq_refl eq_refl eq_refl) as [H _].
  destruct (H sample_protocol (sample_store_sound _ _ _)) as (w' & E & Q & _ & T).
  exists w'. split; [exact E|]. split; [exact Q|exact T].
Defined.

(** X2: a sweep by itself only removes. In a run of the sweep during
    which no other thread enqueues a request, whatever the store, the
    transport and [MethodFactory] do, and whatever is queued, the queue
    after the sweep is part of the queue before it, no id is generated,
    and every transport call the sweep made was for a request that was
    queued when it started. *)
Theorem X2_sweep_only_removes (env : Env) (w : World) :
  (forall self, exists w',
      Part000.send env self w = Some (Returns tt, w') /\
      incl (queue w') (queue w) /\
      last_id w' = last_id w /\
      forall call, In call (http w') -> In call (http w) \/ In (snd call) (queue w)) /\
  (forall self, exists w',
      Part001.worker_sweep env self w = Some (Returns tt, w') /\
      incl (queue w') (queue w) /\
      last_id w' = last_id w /\
      forall call, In call (http w') -> In call (http w) \/ In (snd call) (queue w)).
Proof.
  split; intros self.
  - destruct (send_only_removes env self w) as (w' & E & I1 & I2 & I3 & _).
    exists w'. auto.
  - destruct (worker_sweep_only_removes env self w) as (w' & E & I1 & I2 & I3 & _).
    exists w'. auto.
Qed.

Lemma calls_bound (calls : list (Method * Row)) (q : list Row) :
  NoDup (map (fun call => row_id (snd call)) calls) ->
  (forall call, In call calls -> In (snd call) q) ->
  length calls <= length q.
Proof.
  intros Hnd Hin.
  rewrite <- (length_map (fun call => row_id (snd call)) calls),
    <- (length_map row_id q).
  apply NoDup_incl_length; [exact Hnd|].
  intros id Hid. apply in_map_iff in Hid as (call & <- & Hc).
  apply in_map. apply Hin. exact Hc.
Qed.

Section CallsOnce.
Variable iteration : Cursor -> M (Flow * Cursor).
Hypothesis iteration_shrinking : shrinking iteration.
Hypothesis iteration_accounted : accounted iteration.

(** The calls of the loop: each for a queued row, no two for one id. A
    pass that goes on has deleted every row of the id it called for. *)
Lemma while_rows_calls_once (fuel : nat) :
  forall w o w',
    while_rows iteration fuel None w = Some (o, w') ->
    exists calls,
      http w' = http w ++ calls /\
      NoDup (map (fun call => row_id (snd call)) calls) /\
      (forall call, In call calls -> In (snd call) (queue w)).
Proof.
  induction fuel as [|fuel IH]; intros w o w' H; [discriminate|].
  cbn [while_rows] in H. unfold bind in H.
  destruct (iteration_shrinking w) as (o1 & w1 & E & _ & S1).
  destruct (iteration_accounted w) as (o2 & w2 & E2 & Hh & Hq).
  rewrite E in E2. injection E2 as <- <-. rewrite E in H.
  assert (Hone : exists calls1,
             http w1 = http w ++ calls1 /\
             NoDup (map (fun call => row_id (snd call)) calls1) /\
             (forall call, In call calls1 ->
                           exists rest, queue w = snd call :: rest)).
  { destruct Hh as [Hh|(m & r0 & rest0 & Hw0 & Hh)].
    - exists []. rewrite app_nil_r. split; [exact Hh|].
      split; [constructor|]. intros call [].
    - exists [(m, r0)]. split; [exact Hh|]. split.
      + cbn. constructor; [intros []|constructor].
      + intros call [<-|[]]. exists rest0. exact Hw0. }
  destruct Hone as (calls1 & Hc1 & Hnd1 & Hhead).
  destruct o1 as [[[] c]|e]; cbn [fst snd] in H.
  - destruct S1 as [-> _]. destruct Hq as (r & rest & Hw & Hw1).
    destruct (IH _ _ _ H) as (calls2 & Hc2 & Hnd2 & Hin2).
    exists (calls1 ++ calls2). split; [rewrite Hc2, Hc1, app_assoc; reflexivity|].
    split.
    + rewrite map_app. apply NoDup_app; [exact Hnd1|exact Hnd2|].
      intros id Hid1 Hid2.
      apply in_map_iff in Hid1 as (c1 & <- & Hc1in).
      apply in_map_iff in Hid2 as (c2 & Heq & Hc2in).
      destruct (Hhead c1 Hc1in) as (rest1 & Hw1').
      rewrite Hw in Hw1'. injection Hw1' as -> _.
      specialize (Hin2 c2 Hc2in). rewrite Hw1 in Hin2.
      apply filter_In in Hin2 as [_ Hne].
      rewrite Heq, Z.eqb_refl in Hne. discriminate.
    + intros call Hc. apply in_app_or in Hc as [Hc|Hc].
      * destruct (Hhead call Hc) as (rest1 & ->). left. reflexivity.
      * specialize (Hin2 call Hc). rewrite Hw1 in Hin2.
        apply filter_In in Hin2. tauto.
  - injection H as <- <-. exists calls1. split; [exact Hc1|].
    split; [exact Hnd1|]. intros call Hc.
    destruct (Hhead call Hc) as (rest1 & ->). left. reflexivity.
  - injection H as <- <-. exists calls1. split; [exact Hc1|].
    split; [exact Hnd1|]. intros call Hc.
    destruct (Hhead call Hc) as (rest1 & ->). left. reflexivity.
Qed.

End CallsOnce.

Lemma calls_once_refl (w w' : World) :
  http w' = http w -> calls_once w w'.
Proof.
  intros H. exists []. rewrite app_nil_r.
  split; [exact H|]. split; [constructor|]. split; [intros call []|cbn; lia].
Qed.

Lemma send_calls_once (env : Env) (self : Part000.Protocol) (w : World) :
  exists w', Part000.send env self w = Some (Returns tt, w') /\ calls_once w w'.
Proof.
  destruct (send_characterised env self w) as (w' & E & C).
  exists w'. split; [exact E|].
  destruct (busy w); [subst w'; apply calls_once_refl; reflexivity|].
  assert (B : forall o w1,
             Part000.send_body env self (S (length (queue w))) (set_busy true w)
             = Some (o, w1) -> calls_once w w1).
  { intros o w1. unfold Part000.send_body, Statement. monad_unfold.
    destruct (prepare_fault env (Part000.del self)).
    { intros H. injection H as <- <-. apply calls_once_refl. reflexivity. }
    destruct (prepare_fault env (Part000.select self)).
    { intros H. injection H as <- <-. apply calls_once_refl. reflexivity. }
    intros H.
    apply (while_rows_calls_once _ (send_iteration_shrinking env self)
             (send_iteration_accounted env self)) in H.
    destruct H as (calls & Hc & Hnd & Hin).
    exists calls. split; [exact Hc|]. split; [exact Hnd|].
    split; [exact Hin|]. apply (calls_bound calls (queue w) Hnd Hin). }
  destruct (Part000.send_body env self (S (length (queue w))) (set_busy true w))
    as [[[[]|e] w1]|]; [| |contradiction];
    subst w'; specialize (B _ _ eq_refl); exact B.
Qed.

Lemma worker_sweep_calls_once (env : Env) (self : Part001.Protocol) (w : World) :
  exists w', Part001.worker_sweep env self w = Some (Returns tt, w') /\
             calls_once w w'.
Proof.
  assert (B : forall o w1, Part001.send env self w = Some (o, w1) -> calls_once w w1).
  { intros o w1. unfold Part001.send, Part001.send_fuel, Statement. monad_unfold.
    destruct (prepare_fault env (Part001.del self)).
    { intros H. injection H as <- <-. apply calls_once_refl. reflexivity. }
    destruct (prepare_fault env (Part001.select self)).
    { intros H. injection H as <- <-. apply calls_once_refl. reflexivity. }
    intros H.
    apply (while_rows_calls_once _ (send_iteration_shrinking' env self)
             (send_iteration_accounted' env self)) in H.
    destruct H as (calls & Hc & Hnd & Hin).
    exists calls. split; [exact Hc|]. split; [exact Hnd|].
    split; [exact Hin|]. apply (calls_bound calls (queue w) Hnd Hin). }
  destruct (send_outcome' env self w) as (o & w1 & E & _).
  specialize (B _ _ E). unfold Part001.worker_sweep, try_catch. rewrite E.
  destruct o as [[]|[what|]]; eexists; (split; [reflexivity|]); exact B.
Qed.

(** X3: at most one transport call per queued request. In a run of the
    sweep during which no other thread enqueues a request, whatever
    fails, the transport calls the sweep adds are each for a request that
    was queued when it started and no two of them are for the same id;
    so they are no more than the requests queued at the start. *)
Theorem X3_one_call_per_request (env : Env) (w : World) :
  (forall self, exists w' calls,
      Part000.send env self w = Some (Returns tt, w') /\
      http w' = http w ++ calls /\
      NoDup (map (fun call => row_id (snd call)) calls) /\
      (forall call, In call calls -> In (snd call) (queue w)) /\
      length calls <= length (queue w)) /\
  (forall self, exists w' calls,
      Part001.worker_sweep env self w = Some (Returns tt, w') /\
      http w' = http w ++ calls /\
      NoDup (map (fun call => row_id (snd call)) calls) /\
      (forall call, In call calls -> In (snd call) (queue w)) /\
      length calls <= length (queue w)).
Proof.
  split; intros self.
  - destruct (send_calls_once env self w) as (w' & E & calls & H).
    exists w', calls. split; [exact E|exact H].
  - destruct (worker_sweep_calls_once env self w) as (w' & E & calls & H).
    exists w', calls. split; [exact E|exact H].
Qed.

(** ** Shutdown *)

Lemma send_body_stopped (env : Env) (self : Part000.Protocol) (fuel : nat) (w : World) :
  mainloop w = false \/ verify w = false ->
  exists o w1,
    Part000.send_body env self (S fuel) w = Some (o, w1) /\
    queue w1 = queue w /\ http w1 = http w /\
    (store_sound env (Part000.del self) (Part000.select self) -> o = Returns tt).
Proof.
  intros H.
  unfold Part000.send_body, Statement. cbn [while_rows].
  unfold Part000.send_iteration, step_select. monad_unfold.
  cbn -[Part000.send_row].
  destruct (prepare_fault env (Part000.del self)) eqn:P1; cbn -[Part000.send_row].
  { do 2 eexists. repeat split. intros (Hp & _). congruence. }
  destruct (prepare_fault env (Part000.select self)) eqn:P2; cbn -[Part000.send_row].
  { do 2 eexists. repeat split. intros (_ & Hp & _). congruence. }
  destruct (step_fault env (Part000.select self) (queue w)) eqn:P3;
    cbn -[Part000.send_row].
  { do 2 eexists. repeat split. intros (_ & _ & Hp & _). rewrite Hp in P3.
    discriminate. }
  destruct (queue w) as [|r rest] eqn:Hq; cbn -[Part000.send_row].
  { do 2 eexists. split; [reflexivity|]. cbn. auto. }
  destruct (mainloop w) eqn:Hml; cbn -[Part000.send_row].
  - destruct (verify w) eqn:Hvf; [destruct H; discriminate|].
    cbn. do 2 eexists. split; [reflexivity|]. cbn. auto.
  - do 2 eexists. split; [reflexivity|]. cbn. auto.
Qed.

(** X4: shutdown stops the sweep before its first request. When the main
    loop is no longer running, or the protocol object is no longer
    registered, [send] of the first source returns with the queue as it
    was, no transport call made and the flag clear, and with a sound store
    without warning; the sweep of the second source does so when the main
    loop is no longer running. *)
Theorem X4_shutdown_stops_sweep (env : Env) (w : World) :
  busy w = false ->
  (forall self,
      mainloop w = false \/ verify w = false ->
      exists w',
        Part000.send env self w = Some (Returns tt, w') /\
        queue w' = queue w /\ http w' = http w /\ busy w' = false /\
        (store_sound env (Part000.del self) (Part000.select self) ->
         log w' = log w)) /\
  (forall self,
      mainloop w = false ->
      exists w',
        Part001.worker_sweep env self w = Some (Returns tt, w') /\
        queue w' = queue w /\ http w' = http w).
Proof.
  intros Hb. split; intros self H.
  - destruct (send_characterised env self w) as (w' & E & C). rewrite Hb in C.
    destruct (send_body_stopped env self (length (queue w)) (set_busy true w) H)
      as (o & w1 & E1 & Q & T & L).
    rewrite E1 in C. exists w'. split; [exact E|].
    destruct o as [[]|e]; subst w'; cbn; repeat split; try assumption.
    + intros Hs. clear L.
      unfold Part000.send_body, Statement in E1. cbn [while_rows] in E1.
      unfold Part000.send_iteration, step_select in E1. monad_unfold.
      destruct Hs as (P1 & P2 & P3 & _). rewrite P1, P2 in E1.
      cbn -[Part000.send_row] in E1. rewrite P3 in E1.
      cbn -[Part000.send_row] in E1.
      destruct (queue w) as [|r rest]; cbn -[Part000.send_row] in E1.
      { injection E1 as <-. reflexivity. }
      destruct (mainloop w) eqn:Hml; cbn -[Part000.send_row] in E1.
      * destruct (verify w); [destruct H; discriminate|].
        cbn in E1. injection E1 as <-. reflexivity.
      * injection E1 as <-. reflexivity.
    + intros Hs. specialize (L Hs). discriminate.
  - unfold Part001.worker_sweep, try_catch, Part001.send, Part001.send_fuel, Statement.
    cbn [while_rows]. unfold Part001.send_iteration, step_select. monad_unfold.
    cbn -[Part001.send_row].
    destruct (prepare_fault env (Part001.del self)) as [[|]|]; cbn -[Part001.send_row];
      try (eexists; split; [reflexivity|]; cbn; auto; fail).
    destruct (prepare_fault env (Part001.select self)) as [[|]|];
      cbn -[Part001.send_row];
      try (eexists; split; [reflexivity|]; cbn; auto; fail).
    destruct (step_fault env (Part001.select self) (queue w)) as [[|]|];
      cbn -[Part001.send_row];
      try (eexists; split; [reflexivity|]; cbn; auto; fail).
    destruct (queue w) as [|r rest] eqn:Hq; cbn -[Part001.send_row].
    { eexists. split; [reflexivity|]. cbn. auto. }
    rewrite H. cbn. eexists. split; [reflexivity|]. cbn. auto.
Qed.

Lemma X4_shutdown_stops_sweep_witness :
  exists w',
    Part000.send (sample_env "") sample_protocol
      (mkWorld [row_a; row_b] 10 false false true None None [] [] [])
    = Some (Returns tt, w') /\
    queue w' = [row_a; row_b] /\ http w' = [].
Proof.
  destruct (X4_shutdown_stops_sweep (sample_env "")
              (mkWorld [row_a; row_b] 10 false false true None None [] [] [])
              eq_refl) as [H _].
  destruct (H sample_protocol (or_introl eq_refl)) as (w' & E & Q & T & _).
  exists w'. split; [exact E|]. split; [exact Q|exact T].
Defined.

(** ** A request that cannot be sent or cannot be deleted *)

Lemma send_body_rejected (env : Env) (self : Part000.Protocol) (fuel : nat)
  (w : World) (r : Row) (rest : list Row) (e : exn) :
  store_sound env (Part000.del self) (Part000.select self) ->
  queue w = r :: rest ->
  mainloop w = true -> verify w = true ->
  MethodFactory env (row_action r) = Throws e ->
  exists w1,
    Part000.send_body env self (S fuel) w = Some (Throws e, w1) /\
    same_frame w w1 /\ queue w1 = r :: rest /\ http w1 = http w.
Proof.
  intros (P1 & P2 & P3 & _) Hq Hml Hvf Hm.
  unfold Part000.send_body, Statement. cbn [while_rows].
  unfold Part000.send_iteration, step_select, Part000.send_row. monad_unfold.
  rewrite P1, P2. cbn. rewrite Hq, P3. cbn. rewrite Hml. cbn. rewrite Hvf. cbn.
  rewrite Hm. cbn.
  eexists. split; [reflexivity|]. cbn. split; [repeat split|]. auto.
Qed.

(** X5: a request whose verb [MethodFactory] rejects blocks the queue. With
    such a request at the head, [send] ends in the warning of its [catch]
    clause: no transport call is made, nothing is deleted, neither that
    request nor any behind it, and the world is left such that the next
    sweep meets the same request in the same way. *)
Theorem X5_rejected_verb_blocks (env : Env) (self : Part000.Protocol) (w : World)
  (r : Row) (rest : list Row) (e : exn) :
  store_sound env (Part000.del self) (Part000.select self) ->
  queue w = r :: rest ->
  busy w = false -> mainloop w = true -> verify w = true ->
  MethodFactory env (row_action r) = Throws e ->
  exists w',
    Part000.send env self w = Some (Returns tt, w') /\
    queue w' = r :: rest /\
    http w' = http w /\
    (exists earlier, log w' = earlier ++ [send_warning e]) /\
    busy w' = false /\ mainloop w' = true /\ verify w' = true.
Proof.
  intros Hs Hq Hb Hml Hvf Hm.
  destruct (send_characterised env self w) as (w' & E & C). rewrite Hb in C.
  destruct (send_body_rejected env self (length (queue w)) (set_busy true w)
              r rest e Hs Hq Hml Hvf Hm) as (w1 & E1 & F & Q & T).
  rewrite E1 in C. subst w'. eexists. split; [exact E|].
  destruct F as (_ & Fm & Fv & _). cbn in *.
  repeat split; try assumption; try congruence.
  eexists. reflexivity.
Qed.

Lemma X5_rejected_verb_blocks_witness :
  exists w',
    Part000.send (sample_env "") sample_protocol (sample_world [row_bad; row_a])
    = Some (Returns tt, w') /\
    queue w' = [row_bad; row_a] /\ http w' = [].
Proof.
  destruct (X5_rejected_verb_blocks (sample_env "") sample_protocol
              (sample_world [row_bad; row_a]) row_bad [row_a]
              (std_exception "Invalid HTTP method")
              (sample_store_sound _ _ _) eq_refl eq_refl eq_refl eq_refl eq_refl)
    as (w' & E & Q & T & _).
  exists w'. split; [exact E|]. split; [exact Q|exact T].
Defined.

Lemma send_body_delete_fails (env : Env) (self : Part000.Protocol) (fuel : nat)
  (w : World) (r : Row) (rest : list Row) (e : exn) :
  prepare_fault env (Part000.del self) = None ->
  prepare_fault env (Part000.select self) = None ->
  (forall q, step_fault env (Part000.select self) q = None) ->
  (forall q, exec_fault env (Part000.del self) q = Some e) ->
  queue w = r :: rest ->
  mainloop w = true -> verify w = true ->
  delivers env r = true ->
  exists w1,
    Part000.send_body env self (S fuel) w = Some (Throws e, w1) /\
    same_frame w w1 /\ queue w1 = r :: rest /\
    map snd (http w1) = map snd (http w) ++ [r].
Proof.
  intros P1 P2 P3 P4 Hq Hml Hvf Hd.
  destruct (delivers_inv env r Hd) as (m & Hm & Hne & Hcall).
  unfold Part000.send_body, Statement. cbn [while_rows].
  unfold Part000.send_iteration, step_select, Part000.send_row, exec_delete.
  monad_unfold.
  rewrite P1, P2. cbn. rewrite Hq, P3. cbn. rewrite Hml. cbn. rewrite Hvf. cbn.
  rewrite Hm. cbn.
  destruct m; [| |contradiction]; destruct Hcall as [resp Hcall];
    rewrite Hcall; cbn; rewrite P4; cbn;
    eexists; (split; [reflexivity|]); cbn;
    (split; [repeat split|]); rewrite map_app; auto.
Qed.

(** X6: a failed delete means a second delivery. When the transport has
    answered for the request at the head of the queue and the delete
    statement then fails, [send] ends in a warning with that request still
    queued; the next sweep calls the transport for the same request
    again. *)
Theorem X6_failed_delete_redelivers (env : Env) (self : Part000.Protocol) (w : World)
  (r : Row) (rest : list Row) (e : exn) :
  prepare_fault env (Part000.del self) = None ->
  prepare_fault env (Part000.select self) = None ->
  (forall q, step_fault env (Part000.select self) q = None) ->
  (forall q, exec_fault env (Part000.del self) q = Some e) ->
  queue w = r :: rest ->
  busy w = false -> mainloop w = true -> verify w = true ->
  delivers env r = true ->
  exists w1 w2,
    Part000.send env self w = Some (Returns tt, w1) /\
    queue w1 = r :: rest /\
    map snd (http w1) = map snd (http w) ++ [r] /\
    Part000.send env self w1 = Some (Returns tt, w2) /\
    queue w2 = r :: rest /\
    map snd (http w2) = map snd (http w) ++ [r; r].
Proof.
  intros P1 P2 P3 P4 Hq Hb Hml Hvf Hd.
  destruct (send_characterised env self w) as (w1 & E1 & C1). rewrite Hb in C1.
  destruct (send_body_delete_fails env self (length (queue w)) (set_busy true w)
              r rest e P1 P2 P3 P4 Hq Hml Hvf Hd) as (v1 & B1 & F1 & Q1 & T1).
  rewrite B1 in C1. destruct F1 as (_ & Fm1 & Fv1 & _). cbn in Fm1, Fv1, T1.
  assert (Hq1 : queue w1 = r :: rest) by (subst w1; exact Q1).
  assert (Hb1 : busy w1 = false) by (subst w1; reflexivity).
  assert (Hml1 : mainloop w1 = true) by (subst w1; cbn; congruence).
  assert (Hvf1 : verify w1 = true) by (subst w1; cbn; congruence).
  assert (Ht1 : map snd (http w1) = map snd (http w) ++ [r]) by (subst w1; exact T1).
  destruct (send_characterised env self w1) as (w2 & E2 & C2). rewrite Hb1 in C2.
  destruct (send_body_delete_fails env self (length (queue w1)) (set_busy true w1)
              r rest e P1 P2 P3 P4 Hq1 Hml1 Hvf1 Hd) as (v2 & B2 & F2 & Q2 & T2).
  rewrite B2 in C2. cbn in T2.
  exists w1, w2. split; [exact E1|]. split; [exact Hq1|]. split; [exact Ht1|].
  split; [exact E2|]. subst w2. cbn. split; [exact Q2|].
  rewrite T2, Ht1, <- app_assoc. reflexivity.
Qed.

Lemma X6_failed_delete_redelivers_witness :
  exists w1 w2,
    Part000.send sample_env_delete_fails sample_protocol (sample_world [row_a; row_b])
    = Some (Returns tt, w1) /\
    Part000.send sample_env_delete_fails sample_protocol w1 = Some (Returns tt, w2) /\
    queue w2 = [row_a; row_b] /\
    map snd (http w2) = [row_a; row_a].
Proof.
  destruct (X6_failed_delete_redelivers sample_env_delete_fails sample_protocol
              (sample_world [row_a; row_b]) row_a [row_b]
              (std_exception "database is locked")
              eq_refl eq_refl (fun _ => eq_refl) (fun _ => eq_refl)
              eq_refl eq_refl eq_refl eq_refl eq_refl)
    as (w1 & w2 & E1 & _ & _ & E2 & Q2 & T2).
  exists w1, w2. repeat split; assumption.
Defined.

(** ** Enqueue, then the pushed task *)

(** X7: what goes in comes out once. On an idle protocol with the main
    loop running, a queue in ascending ids, no id above the last generated
    one, requests that deliver and a sound store, [Worker::get] inserts
    the request and pushes the [sqlite-worker] task; that task then
    delivers the requests that were queued and after them the new one,
    each once, and leaves the queue empty. *)
Theorem X7_enqueue_then_task (env : Env) (self : Part000.Protocol) (w : World)
  (url method payload : string) :
  store_sound env (Part000.del self) (Part000.select self) ->
  prepare_fault env (expand_env env (Part000.ins self)) = None ->
  (forall q, exec_fault env (expand_env env (Part000.ins self)) q = None) ->
  busy w = false -> mainloop w = true -> verify w = true ->
  ascending (queue w) = true ->
  forallb (fun r => (row_id r <=? last_id w)%Z) (queue w) = true ->
  forallb (delivers env) (queue w) = true ->
  delivers env (mkRow (last_id w + 1) url method payload) = true ->
  exists w1 w2,
    Part000.Worker_get env self url method payload w = Some (Returns true, w1) /\
    queue w1 = queue w ++ [mkRow (last_id w + 1) url method payload] /\
    Part000.sqlite_worker env self w1 = Some (Returns tt, w2) /\
    queue w2 = [] /\
    map snd (http w2)
    = map snd (http w) ++ queue w ++ [mkRow (last_id w + 1) url method payload].
Proof.
  intros Hs Hp He Hb Hml Hvf Hasc Hids Hd Hnew.
  set (new := mkRow (last_id w + 1) url method payload) in *.
  destruct (Part000.Worker_get env self url method payload w) as [[o w1]|] eqn:G.
  2:{ unfold Part000.Worker_get, Statement, exec_insert in G. monad_unfold.
      rewrite Hp in G. cbn in G. rewrite He in G. discriminate. }
  assert (Hw1 : o = Returns true /\ busy w1 = false /\ mainloop w1 = true /\
                verify w1 = true /\ http w1 = http w /\ queue w1 = queue w ++ [new]).
  { unfold Part000.Worker_get, Statement, exec_insert in G. monad_unfold.
    rewrite Hp in G. cbn in G. rewrite He in G. cbn in G.
    injection G as <- <-. cbn. rewrite Hml. repeat split; auto. }
  destruct Hw1 as (-> & Hb1 & Hml1 & Hvf1 & Hh1 & Hq1).
  destruct (send_delivers env self w1 Hs) as (w2 & E2 & _ & Q2 & T2); try assumption.
  - rewrite Hq1. apply ascending_snoc; [exact Hasc|].
    rewrite forallb_forall in Hids |- *. intros x Hx.
    specialize (Hids x Hx). subst new. cbn. lia.
  - rewrite Hq1, forallb_app, Hd. cbn. rewrite Hnew. reflexivity.
  - exists w1, w2. split; [reflexivity|]. split; [exact Hq1|].
    unfold Part000.sqlite_worker, bind, gets. rewrite Hvf1.
    split; [exact E2|]. split; [exact Q2|]. rewrite T2, Hh1, Hq1. reflexivity.
Qed.

Lemma X7_enqueue_then_task_witness :
  exists w1 w2,
    Part000.Worker_get (sample_env "") sample_protocol
      "http://c.example/" "GET" "" (sample_world [row_a])
    = Some (Returns true, w1) /\
    Part000.sqlite_worker (sample_env "") sample_protocol w1 = Some (Returns tt, w2) /\
    queue w2 = [] /\
    map snd (http w2) = [row_a; mkRow 11 "http://c.example/" "GET" ""].
Proof.
  destruct (X7_enqueue_then_task (sample_env "") sample_protocol (sample_world [row_a])
              "http://c.example/" "GET" ""
              (sample_store_sound _ _ _) eq_refl (fun _ => eq_refl)
              eq_refl eq_refl eq_refl eq_refl eq_refl eq_refl eq_refl)
    as (w1 & w2 & G & _ & E & Q & T).
  exists w1, w2. repeat split; assumption.
Defined.

(** ** The timer of the second source *)

(** X8: one turn of the retry timer. From an idle protocol the callback
    sets the flag, re-arms the timer at the busy interval and pushes the
    worker task; a tick that comes while the flag is set pushes nothing.
    The task, whatever its sweep met, with the pending query sound, ends
    with the flag clear, the timer at the retry interval and the published
    state that of the number of requests it left queued, none of them
    new. *)
Theorem X8_timer_turn (env : Env) (self : Part001.Protocol) (w : World)
  (text : string) :
  busy w = false ->
  Part001.retry_notify self = true ->
  systemservice env = true ->
  Part001.pending self = Some text ->
  configured (Some text) = true ->
  prepare_fault env text = None ->
  (forall q, step_fault env text q = None) ->
  exists w1 w2,
    Part001.timer_callback self w = Some (Returns (true, true), w1) /\
    busy w1 = true /\
    timer w1 = Some (Part001.retry_when_busy self) /\
    Part001.timer_callback self w1 = Some (Returns (true, false), w1) /\
    Part001.worker_task env self w1 = Some (Returns tt, w2) /\
    busy w2 = false /\
    timer w2 = Some (Part001.retry_interval self) /\
    published w2
    = Some (state_summary (Part001.SQLState (Z.of_nat (length (queue w2))))) /\
    incl (queue w2) (queue w).
Proof.
  intros Hb Hn Hsys Hp Hc Hpf Hsf.
  rewrite (timer_callback_guard self w), Hb. cbn [negb].
  eexists. 
  destruct (worker_sweep_only_removes env self
              (set_busy true (set_timer (Some (Part001.retry_when_busy self)) w)))
    as (v & E & I1 & _).
  eexists. split; [reflexivity|]. split; [reflexivity|]. split; [reflexivity|].
  split; [rewrite timer_callback_guard; reflexivity|].
  unfold Part001.worker_task. unfold bind at 1. rewrite E.
  unfold Part001.count, Statement, step_count. rewrite Hn, Hsys, Hp, Hc, Hpf.
  monad_unfold. cbn. rewrite Hsf. cbn.
  split; [reflexivity|]. cbn. repeat split. exact I1.
Qed.

Lemma X8_timer_turn_witness :
  exists w1 w2,
    Part001.timer_callback sample_protocol' (sample_world [row_a; row_b])
    = Some (Returns (true, true), w1) /\
    Part001.worker_task (sample_env "http://b.example/") sample_protocol' w1
    = Some (Returns tt, w2) /\
    busy w2 = false /\
    published w2 = Some "1 pending message".
Proof.
  destruct (X8_timer_turn (sample_env "http://b.example/") sample_protocol'
              (sample_world [row_a; row_b]) "select count(*) from queue"
              eq_refl eq_refl eq_refl eq_refl eq_refl eq_refl (fun _ => eq_refl))
    as (w1 & w2 & E1 & _ & _ & _ & E2 & B & _ & P & _).
  exists w1, w2. split; [exact E1|]. split; [exact E2|]. split; [exact B|].
  rewrite P. clear P.
  unfold Part001.worker_task in E2. vm_compute in E1. injection E1 as <-.
  vm_compute in E2. injection E2 as <-. reflexivity.
Defined.

(** X9: a pending query that fails after a sweep stalls the timer. The
    count of the status publication is outside the [try] statement of the
    worker task: when it throws, the exception leaves the task with the
    flag still set, and from a world with the flag set every later tick
    of the timer pushes no task and leaves the flag set. *)
Theorem X9_failed_count_stalls (env : Env) (self : Part001.Protocol) (w : World)
  (text : string) (e : exn) :
  busy w = false ->
  Part001.retry_notify self = true ->
  systemservice env = true ->
  Part001.pending self = Some text ->
  configured (Some text) = true ->
  prepare_fault env text = Some e ->
  exists w1 w2,
    Part001.timer_callback self w = Some (Returns (true, true), w1) /\
    Part001.worker_task env self w1 = Some (Throws e, w2) /\
    busy w2 = true /\
    forall w3, busy w3 = true ->
      exists w4,
        Part001.timer_callback self w3 = Some (Returns (true, false), w4) /\
        busy w4 = true.
Proof.
  intros Hb Hn Hsys Hp Hc Hpf.
  rewrite (timer_callback_guard self w), Hb. cbn [negb].
  destruct (worker_task_count_throws env self
              (set_busy true (set_timer (Some (Part001.retry_when_busy self)) w))
              text e Hn Hsys Hp Hc Hpf) as (w2 & E & B).
  do 2 eexists. split; [reflexivity|]. split; [exact E|]. split; [exact B|].
  intros w3 H3. rewrite (timer_callback_guard self w3), H3.
  eexists. split; [reflexivity|]. exact H3.
Qed.

Lemma X9_failed_count_stalls_witness :
  exists w1 w2,
    Part001.timer_callback sample_protocol' (sample_world [row_a])
    = Some (Returns (true, true), w1) /\
    Part001.worker_task sample_env_count_fails sample_protocol' w1
    = Some (Throws (std_exception "no such table: queue"), w2) /\
    busy w2 = true.
Proof.
  destruct (X9_failed_count_stalls sample_env_count_fails sample_protocol'
              (sample_world [row_a]) "select count(*) from queue"
              (std_exception "no such table: queue")
              eq_refl eq_refl eq_refl eq_refl eq_refl eq_refl)
    as (w1 & w2 & E1 & E2 & B & _).
  exists w1, w2. repeat split; assumption.
Defined.

(** ** The init statements *)

Section InitStatements.
Variable env : Env.

Lemma run_init_runs_all (cs : list xml_node) :
  (forall c q, In c cs -> exec_fault env (init_text env c) q = None) ->
  forall w, exists w',
    run_init env cs w = Some (Returns tt, w') /\
    sql w' = sql w ++ map (init_text env) cs /\
    queue w' = queue w /\ timer w' = timer w /\ log w' = log w.
Proof.
  intros Hok. induction cs as [|x cs IH]; intros w.
  - eexists. split; [reflexivity|]. rewrite app_nil_r. auto.
  - cbn [run_init]. unfold Database_exec. monad_unfold. cbn.
    unfold init_text in Hok. rewrite (Hok x) by (left; reflexivity).
    destruct IH with (w := add_sql (expand env x (strip env (node_text x))) w)
      as (w' & E & S1 & Q & T & L).
    { intros c q Hc. apply Hok. right. exact Hc. }
    exists w'. split; [exact E|]. cbn in S1. rewrite S1, <- app_assoc.
    cbn in Q, T, L. auto.
Qed.

Lemma run_init_stops (before : list xml_node) (c : xml_node) (after : list xml_node)
  (e : exn) :
  (forall x q, In x before -> exec_fault env (init_text env x) q = None) ->
  (forall q, exec_fault env (init_text env c) q = Some e) ->
  forall w, exists w',
    run_init env (before ++ c :: after) w = Some (Throws e, w') /\
    sql w' = sql w ++ map (init_text env) before ++ [init_text env c] /\
    queue w' = queue w /\ timer w' = timer w /\ log w' = log w.
Proof.
  intros Hok Hf. induction before as [|x before IH]; intros w.
  - cbn [app run_init]. unfold Database_exec. monad_unfold. cbn.
    unfold init_text in Hf. rewrite Hf.
    eexists. split; [reflexivity|]. cbn. auto.
  - cbn [app run_init]. unfold Database_exec. monad_unfold. cbn.
    unfold init_text in Hok. rewrite (Hok x) by (left; reflexivity).
    destruct IH with (w := add_sql (expand env x (strip env (node_text x))) w)
      as (w' & E & S1 & Q & T & L).
    { intros y q Hy. apply Hok. right. exact Hy. }
    exists w'. split; [exact E|]. cbn in S1. rewrite S1, <- app_assoc.
    cbn in Q, T, L. auto.
Qed.

End InitStatements.

(** X10: the init statements run in document order and stop at the first
    that fails. With the three required templates present, the
    constructor of the first source runs the texts of the [init] children
    one after the other; when one fails, its exception leaves the
    constructor and no later init statement is run; when none fails they
    have all been run, in order, when the object is returned. *)
Theorem X10_init_in_order (env : Env) (dd dv : Z) (node : xml_node) (w : World) :
  child node "insert" <> None ->
  child node "delete" <> None ->
  child node "select" <> None ->
  (forall before c after e,
      init_children node = before ++ c :: after ->
      (forall x q, In x before -> exec_fault env (init_text env x) q = None) ->
      (forall q, exec_fault env (init_text env c) q = Some e) ->
      exists w',
        Part000.Protocol_ctor env dd dv node w = Some (Throws e, w') /\
        sql w' = sql w ++ map (init_text env) before ++ [init_text env c]) /\
  ((forall c q, In c (init_children node) -> exec_fault env (init_text env c) q = None) ->
   exists self w',
     Part000.Protocol_ctor env dd dv node w = Some (Returns self, w') /\
     sql w' = sql w ++ map (init_text env) (init_children node)).
Proof.
  intros Hi Hd Hs. unfold Part000.Protocol_ctor, child_value. split.
  - intros before c after e Hsplit Hok Hf. monad_unfold.
    destruct (child node "insert"); [|contradiction].
    destruct (child node "delete"); [|contradiction].
    destruct (child node "select"); [|contradiction].
    rewrite Hsplit.
    destruct (run_init_stops env before c after e Hok Hf w) as (w' & E & S1 & _).
    destruct (child node "pending"); cbn; rewrite E; eexists;
      (split; [reflexivity|exact S1]).
  - intros Hok. monad_unfold.
    destruct (child node "insert"); [|contradiction].
    destruct (child node "delete"); [|contradiction].
    destruct (child node "select"); [|contradiction].
    destruct (run_init_runs_all env _ Hok w) as (w' & E & S1 & _).
    destruct (child node "pending"); cbn; rewrite E; do 2 eexists;
      (split; [reflexivity|exact S1]).
Qed.

Lemma X10_init_in_order_witness :
  exists w',
    Part000.Protocol_ctor sample_env_init_fails 1 0 sample_node' (sample_world [])
    = Some (Throws (std_exception "disk I/O error"), w') /\
    sql w' = ["create table if not exists queue (id integer primary key)"].
Proof.
  destruct (X10_init_in_order sample_env_init_fails 1 0 sample_node' (sample_world []))
    as [H _]; try discriminate.
  destruct (H [] (Element "init"
                    "create table if not exists queue (id integer primary key)" [])
              [Element "init" "create index if not exists queue_url on queue (url)" []]
              (std_exception "disk I/O error") eq_refl)
    as (w' & E & S1).
  - intros x q [].
  - intros q. reflexivity.
  - exists w'. split; [exact E|exact S1].
Defined.

(** ** The constructor of the second source *)

Section Part001Ctor.
Variable env : Env.
Variable getAttribute_bool : xml_node -> string -> string -> bool -> bool.
Variables dd di dw : Z.

(** X11: a missing required template stops the second constructor before
    it has touched anything. Without an [insert], a [delete] or a [select]
    child the constructor throws from its member initialisers: no timer
    is registered, no SQL is run, nothing is logged. *)
Theorem X11_missing_template_before_timer (node : xml_node) (w : World) :
  child node "insert" = None \/ child node "delete" = None \/
  child node "select" = None ->
  exists what,
    Protocol_ctor' env getAttribute_bool dd di dw node w
    = Some (Throws (std_exception what), w).
Proof.
  intros H. unfold Protocol_ctor', child_value. monad_unfold.
  destruct (child node "insert"); [|eexists; reflexivity].
  destruct (child node "delete"); [|eexists; reflexivity].
  destruct (child node "select"); [|eexists; reflexivity].
  destruct H as [H|[H|H]]; discriminate.
Qed.

(** X12: a failing init statement leaves the timer registered. The second
    constructor registers the retry timer before it runs the init
    statements; with the required templates present and a retry interval
    that is not zero, an init statement that fails makes the constructor
    throw with the timer registered at that interval. *)
Theorem X12_init_failure_after_timer (node : xml_node) (w : World)
  (before : list xml_node) (c : xml_node) (after : list xml_node) (e : exn) :
  child node "insert" <> None ->
  child node "delete" <> None ->
  child node "select" <> None ->
  uint32 (getAttribute env node "sqlite" "retry-interval" di * 1000) <> 0%Z ->
  init_children node = before ++ c :: after ->
  (forall x q, In x before -> exec_fault env (init_text env x) q = None) ->
  (forall q, exec_fault env (init_text env c) q = Some e) ->
  exists w',
    Protocol_ctor' env getAttribute_bool dd di dw node w = Some (Throws e, w') /\
    timer w'
    = Some (uint32 (getAttribute env node "sqlite" "retry-interval" di * 1000)).
Proof.
  intros Hi Hd Hs Hint Hsplit Hok Hf.
  unfold Protocol_ctor', child_value. monad_unfold.
  destruct (child node "insert"); [|contradiction].
  destruct (child node "delete"); [|contradiction].
  destruct (child node "select"); [|contradiction].
  rewrite Hsplit. apply Z.eqb_neq in Hint.
  destruct (child node "pending"); cbn; rewrite Hint;
    match goal with
    | |- context [run_init env _ ?w0] =>
        destruct (run_init_stops env before c after e Hok Hf w0)
          as (w' & E & _ & _ & T & _);
        rewrite E; eexists; (split; [reflexivity|exact T])
    end.
Qed.

(** X13: a failing pending query does not fail construction. With the
    required templates and a pending query present and the init
    statements going through, a [std::exception] thrown while counting the
    pending requests is caught inside the second constructor: the object
    is returned, and the last line logged is the error that names the
    exception. *)
Theorem X13_count_failure_is_logged (node : xml_node) (w : World)
  (p : xml_node) (what : string) :
  child node "insert" <> None ->
  child node "delete" <> None ->
  child node "select" <> None ->
  child node "pending" = Some p ->
  configured (Some (expand env node (strip env (node_text p)))) = true ->
  (forall c q, In c (init_children node) -> exec_fault env (init_text env c) q = None) ->
  prepare_fault env (expand env node (strip env (node_text p)))
  = Some (std_exception what) ->
  exists self w',
    Protocol_ctor' env getAttribute_bool dd di dw node w = Some (Returns self, w') /\
    Part001.pending self = Some (expand env node (strip env (node_text p))) /\
    exists earlier,
      log w' = earlier ++ [(Error, "Error '" +++ what +++ "' counting pending requests")].
Proof.
  intros Hi Hd Hs Hp Hc Hok Hf.
  unfold Protocol_ctor', child_value. monad_unfold. rewrite Hp.
  destruct (child node "insert"); [|contradiction].
  destruct (child node "delete"); [|contradiction].
  destruct (child node "select"); [|contradiction].
  cbn -[configured].
  destruct (uint32 (getAttribute env node "sqlite" "retry-interval" di * 1000) =? 0)%Z;
    match goal with
    | |- context [run_init env _ ?w0] =>
        destruct (run_init_runs_all env _ Hok w0) as (w' & E & _);
        rewrite E
    end;
    unfold log_pending, Part001.count, Statement; cbn -[configured];
    rewrite Hc, Hf; monad_unfold;
    do 2 eexists; (split; [reflexivity|]); (split; [reflexivity|]);
    eexists; reflexivity.
Qed.

End Part001Ctor.

Lemma X12_init_failure_after_timer_witness :
  exists w',
    Protocol_ctor' sample_env_init_fails (fun _ _ _ d => d) 1 60 5 sample_node'
      (sample_world [])
    = Some (Throws (std_exception "disk I/O error"), w') /\
    timer w' = Some 60000%Z.
Proof.
  destruct (X12_init_failure_after_timer sample_env_init_fails (fun _ _ _ d => d)
              1 60 5 sample_node' (sample_world []) []
              (Element "init"
                 "create table if not exists queue (id integer primary key)" [])
              [Element "init" "create index if not exists queue_url on queue (url)" []]
              (std_exception "disk I/O error"))
    as (w' & E & T); try discriminate; try reflexivity.
  - intros x q [].
  - exists w'. split; [exact E|exact T].
Defined.

Lemma X11_missing_template_before_timer_witness :
  exists what,
    Protocol_ctor' (sample_env "") (fun _ _ _ d => d) 1 60 5
      (Element "sql" "" [Element "insert" "insert into queue values (?,?,?)" []])
      (sample_world [])
    = Some (Throws (std_exception what), sample_world []).
Proof.
  apply (X11_missing_template_before_timer (sample_env "") (fun _ _ _ d => d) 1 60 5
           (Element "sql" "" [Element "insert" "insert into queue values (?,?,?)" []])
           (sample_world [])).
  right. left. reflexivity.
Defined.

Lemma X13_count_failure_is_logged_witness :
  exists self w',
    Protocol_ctor' sample_env_count_fails (fun _ _ _ d => d) 1 60 5 sample_node'
      (sample_world [])
    = Some (Returns self, w') /\
    Part001.pending self = Some "select count(*) from queue".
Proof.
  destruct (X13_count_failure_is_logged sample_env_count_fails (fun _ _ _ d => d)
              1 60 5 sample_node' (sample_world [])
              (Element "pending" "select count(*) from queue" [])
              "no such table: queue")
    as (self & w' & E & P & _); try discriminate; try reflexivity.
  exists self, w'. split; [exact E|exact P].
Defined.

(** ** A queue with unexpected verbs in it *)

Section MixedQueue.
Variable env : Env.
Variable self : Part000.Protocol.
Hypothesis sound : store_sound env (Part000.del self) (Part000.select self).

Lemma send_iteration_mixed (w : World) (r : Row) (rest : list Row) :
  queue w = r :: rest ->
  ascending (r :: rest) = true ->
  mainloop w = true -> verify w = true ->
  completes env r = true ->
  exists w',
    Part000.send_iteration env self None w = Some (Returns (Continue, None), w') /\
    same_frame w w' /\
    queue w' = rest /\
    map snd (http w') = map snd (http w) ++ filter (has_transport env) [r].
Proof.
  intros Hq Hasc Hml Hvf Hc.
  destruct sound as (_ & _ & Hstep & Hexec).
  assert (Hm : exists m,
             MethodFactory env (row_action r) = Returns m /\
             match m with
             | Get => exists resp, client_get env (row_url r) = Returns resp
             | Post => exists resp,
                 client_post env (row_url r) (row_payload r) = Returns resp
             | OtherMethod => True
             end).
  { unfold completes, delivers in Hc.
    destruct (MethodFactory env (row_action r)) as [m|e]; [|discriminate].
    exists m. split; [reflexivity|]. destruct m; [| |exact I].
    - destruct (client_get env (row_url r)); [eauto|discriminate].
    - destruct (client_post env (row_url r) (row_payload r)); [eauto|discriminate]. }
  destruct Hm as (m & Hm & Hcall).
  destruct (send_iteration_completes env self w r rest m Hq Hml Hvf
              (Hstep _) (Hexec _) Hm Hcall) as (w' & E & F & Q & T & _).
  exists w'. split; [exact E|]. split; [exact F|].
  split; [rewrite Q; apply filter_head_ascending; exact Hasc|].
  rewrite T, map_app. cbn [filter]. unfold has_transport. rewrite Hm.
  destruct m; reflexivity.
Qed.

Lemma while_rows_mixed (q : list Row) :
  forall (fuel : nat) (w : World),
    queue w = q ->
    ascending q = true ->
    mainloop w = true -> verify w = true ->
    forallb (completes env) q = true ->
    length q < fuel ->
    exists w',
      while_rows (Part000.send_iteration env self) fuel None w
      = Some (Returns tt, w') /\
      same_frame w w' /\
      queue w' = [] /\
      map snd (http w') = map snd (http w) ++ filter (has_transport env) q.
Proof.
  induction q as [|r rest IH]; intros fuel w Hq Hasc Hml Hvf Hc Hlen.
  - destruct fuel as [|fuel]; [cbn in Hlen; lia|].
    destruct (send_iteration_empty env self w Hq sound) as (c & w' & E & F & Q & T).
    exists w'. cbn [while_rows]. unfold bind. rewrite E. cbn.
    split; [reflexivity|]. split; [exact F|]. split; [exact Q|].
    rewrite T, app_nil_r. reflexivity.
  - destruct fuel as [|fuel]; [cbn in Hlen; lia|].
    cbn [forallb] in Hc. apply andb_true_iff in Hc as [Hr Hc].
    destruct (send_iteration_mixed w r rest Hq Hasc Hml Hvf Hr) as (w1 & E & F & Q & T).
    pose proof F as (_ & Fm & Fv & _).
    destruct (IH fuel w1 Q (ascending_tail _ _ Hasc) (eq_trans Fm Hml)
                (eq_trans Fv Hvf) Hc ltac:(cbn in Hlen; lia))
      as (w' & E' & F' & Q' & T').
    exists w'. cbn [while_rows]. unfold bind at 1. rewrite E. cbn [fst snd].
    split; [exact E'|]. split; [eapply same_frame_trans; eassumption|].
    split; [exact Q'|]. rewrite T', T, <- app_assoc.
    change (r :: rest) with ([r] ++ rest). rewrite filter_app. reflexivity.
Qed.

End MixedQueue.

(** X14: unexpected verbs are dropped, the rest delivered. On a queue in
    ascending ids where every verb resolves and the transport answers for
    every GET and POST, one sweep of [send] empties the queue: it calls
    the transport for the GET and POST requests, in queue order, and for
    no other; the requests with another verb are deleted without a
    call. *)
Theorem X14_mixed_queue_drained (env : Env) (self : Part000.Protocol) (w : World) :
  store_sound env (Part000.del self) (Part000.select self) ->
  ascending (queue w) = true ->
  busy w = false -> mainloop w = true -> verify w = true ->
  forallb (completes env) (queue w) = true ->
  exists w',
    Part000.send env self w = Some (Returns tt, w') /\
    queue w' = [] /\
    busy w' = false /\
    map snd (http w') = map snd (http w) ++ filter (has_transport env) (queue w).
Proof.
  intros Hs Hasc Hb Hml Hvf Hc.
  destruct (send_characterised env self w) as (w1 & E & C).
  rewrite Hb in C. exists w1. split; [exact E|].
  destruct (while_rows_mixed env self Hs (queue w) (S (length (queue w)))
              (set_busy true w) eq_refl Hasc Hml Hvf Hc ltac:(lia))
    as (w' & E' & F & Q & T).
  rewrite (send_body_sound env self _ _ Hs), E' in C. subst w1. cbn.
  split; [exact Q|]. split; [reflexivity|exact T].
Qed.

Lemma X14_mixed_queue_drained_witness :
  exists w',
    Part000.send (sample_env "") sample_protocol
      (sample_world [row_a; row_b; row_put])
    = Some (Returns tt, w') /\
    queue w' = [] /\
    map snd (http w') = [row_a; row_b].
Proof.
  destruct (X14_mixed_queue_drained (sample_env "") sample_protocol
              (sample_world [row_a; row_b; row_put])
              (sample_store_sound _ _ _) eq_refl eq_refl eq_refl eq_refl eq_refl)
    as (w' & E & Q & _ & T).
  exists w'. split; [exact E|]. split; [exact Q|exact T].
Defined.

(** ** The task steps are the worker task

    A task followed alone through its steps does what the worker task does
    in one piece, and ends where it ends, whether the task returns or an
    exception leaves it. *)

Section TasksAreWorkerTask.
Variable env : Env.
Variable self : Part001.Protocol.

Lemma run_task_loop (fuel : nat) :
  forall sel w o w1 wc o2 w2,
    while_rows (Part001.send_iteration env self) fuel sel w = Some (o, w1) ->
    match o with
    | Returns _ => Some (Returns tt, w1)
    | Throws e => worker_catch e w1
    end = Some (Returns tt, wc) ->
    worker_tail env self wc = Some (o2, w2) ->
    exists n, run_task env self n (TaskInLoop sel) w = Some w2.
Proof.
  induction fuel as [|fuel IH]; intros sel w o w1 wc o2 w2 H Hc Ht; [discriminate|].
  cbn [while_rows] in H. unfold bind in H.
  destruct (Part001.send_iteration env self sel w) as [[[[[] c]|e] w3]|] eqn:E;
    try discriminate; cbn [fst snd] in H.
  - destruct (IH _ _ _ _ _ _ _ H Hc Ht) as (n & Hn).
    exists (S n). cbn [run_task task_step]. rewrite E. exact Hn.
  - injection H as <- <-. injection Hc as <-.
    exists 2. cbn [run_task task_step]. rewrite E.
    cbn [run_task task_step]. rewrite Ht. reflexivity.
  - injection H as <- <-.
    exists 2. cbn [run_task task_step]. rewrite E. unfold task_caught.
    rewrite Hc. cbn [run_task task_step]. rewrite Ht. reflexivity.
Qed.

Lemma task_alone_is_worker_task (w : World) (o : outcome unit) (w' : World) :
  Part001.worker_task env self w = Some (o, w') ->
  exists n, run_task env self n TaskStart w = Some w'.
Proof.
  intros H.
  change (bind (try_catch (Part001.send env self) worker_catch)
            (fun _ => worker_tail env self) w = Some (o, w')) in H.
  unfold bind at 1, try_catch in H.
  unfold Part001.send, Part001.send_fuel, Statement in H.
  unfold bind at 1 2 in H.
  destruct (prepare_fault env (Part001.del self)) as [e|] eqn:P1;
    unfold raise_fault, throw, ret in H.
  { destruct (worker_catch e w) as [[[[]|e'] wc]|] eqn:C; try discriminate.
    - exists 2. cbn [run_task task_step]. unfold Statement, task_caught.
      monad_unfold. rewrite P1. monad_unfold. rewrite C.
      cbn [run_task task_step]. rewrite H. reflexivity.
    - destruct (worker_catch_returns e w) as (msg & Hm). congruence. }
  destruct (prepare_fault env (Part001.select self)) as [e|] eqn:P2.
  { destruct (worker_catch e w) as [[[[]|e'] wc]|] eqn:C; try discriminate.
    - exists 2. cbn [run_task task_step]. unfold Statement, task_caught.
      monad_unfold. rewrite P1. monad_unfold. rewrite P2. monad_unfold.
      rewrite C. cbn [run_task task_step]. rewrite H. reflexivity.
    - destruct (worker_catch_returns e w) as (msg & Hm). congruence. }
  destruct (while_rows (Part001.send_iteration env self) (S (length (queue w))) None w)
    as [[o1 w1]|] eqn:L; [|discriminate].
  assert (Hc : exists wc,
             match o1 with
             | Returns _ => Some (Returns tt, w1)
             | Throws e => worker_catch e w1
             end = Some (Returns tt, wc) /\
             worker_tail env self wc = Some (o, w')).
  { destruct o1 as [[]|e].
    - exists w1. split; [reflexivity|exact H].
    - destruct (worker_catch_returns e w1) as (msg & Hm). rewrite Hm in H |- *.
      eexists. split; [reflexivity|exact H]. }
  destruct Hc as (wc & Hc & Ht).
  destruct (run_task_loop _ _ _ _ _ _ _ _ L Hc Ht) as (n & Hn).
  exists (S n). cbn [run_task task_step]. unfold Statement, task_caught.
  monad_unfold. rewrite P1. monad_unfold. rewrite P2. monad_unfold. exact Hn.
Qed.

End TasksAreWorkerTask.
